(** * Boid simulation: the flocking decision engine

    A shallow embedding of the TypeScript sources (Boid.ts, the rules,
    WorldTools and BoidSimulation) together with the properties of the
    per-tick update, the neighbour query, the world registry and the
    population reconciliation.

    JavaScript numbers are modelled by [num]: the real numbers extended
    with the two infinities and NaN.  Arithmetic on finite values is exact
    (no rounding, no overflow) and the two zeros are identified; the
    non-finite values follow IEEE 754 as JavaScript exposes it.  The
    program itself runs on binary64 numbers, which round.  The properties
    stated over [num] are therefore of the kinds that rounding leaves
    alone: equalities between the same operations in the same order, the
    comparisons that the code itself makes, signs, and bounds with room to
    spare.  Where a concrete run of the program matters, the module
    [Binary64] has the same operations on binary64 numbers, which Rocq
    evaluates as the program does. *)

From Stdlib Require Import Reals Lra Lia ZArith List String Bool Sorted.
From Stdlib Require Floats.
From Equations Require Import Equations.
Import ListNotations.

Local Open Scope R_scope.

(** ** JavaScript numbers *)

Inductive num : Type :=
| Fin (r : R)
| PInf
| NInf
| NaN.

Declare Scope num_scope.
Delimit Scope num_scope with num.
Bind Scope num_scope with num.

Module Num.

Definition Rltb (a b : R) : bool := if Rlt_dec a b then true else false.
Definition Reqb (a b : R) : bool := if Req_dec_T a b then true else false.

Definition is_finite (a : num) : bool :=
  match a with Fin _ => true | _ => false end.

(** Unary minus. *)
Definition neg (a : num) : num :=
  match a with
  | Fin r => Fin (- r)
  | PInf => NInf
  | NInf => PInf
  | NaN => NaN
  end.

(** [a + b]. *)
Definition add (a b : num) : num :=
  match a, b with
  | NaN, _ | _, NaN => NaN
  | Fin r, Fin s => Fin (r + s)
  | PInf, NInf | NInf, PInf => NaN
  | PInf, _ | _, PInf => PInf
  | NInf, _ | _, NInf => NInf
  end.

(** [a - b]. *)
Definition sub (a b : num) : num := add a (neg b).

(** An infinity of the sign of [r] times the sign [pos]; NaN at zero. *)
Definition inf_times (pos : bool) (r : R) : num :=
  if Reqb r 0 then NaN
  else if Bool.eqb pos (Rltb 0 r) then PInf else NInf.

(** [a * b]. *)
Definition mul (a b : num) : num :=
  match a, b with
  | NaN, _ | _, NaN => NaN
  | Fin r, Fin s => Fin (r * s)
  | PInf, Fin s => inf_times true s
  | NInf, Fin s => inf_times false s
  | Fin r, PInf => inf_times true r
  | Fin r, NInf => inf_times false r
  | PInf, PInf | NInf, NInf => PInf
  | PInf, NInf | NInf, PInf => NInf
  end.

(** [a / b].  A finite non-zero value over zero is an infinity, zero
    over zero is NaN, a finite value over an infinity is zero. *)
Definition div (a b : num) : num :=
  match a, b with
  | NaN, _ | _, NaN => NaN
  | Fin r, Fin s =>
      if Reqb s 0 then inf_times true r else Fin (r / s)
  | Fin _, PInf | Fin _, NInf => Fin 0
  | PInf, Fin s => if Rltb s 0 then NInf else PInf
  | NInf, Fin s => if Rltb s 0 then PInf else NInf
  | PInf, _ | NInf, _ => NaN
  end.

(** [Math.sqrt]. *)
Definition Math_sqrt (a : num) : num :=
  match a with
  | Fin r => if Rltb r 0 then NaN else Fin (sqrt r)
  | PInf => PInf
  | NInf | NaN => NaN
  end.

(** [a < b] and [a > b]: false as soon as one side is NaN. *)
Definition ltb (a b : num) : bool :=
  match a, b with
  | NaN, _ | _, NaN => false
  | Fin r, Fin s => Rltb r s
  | Fin _, PInf | NInf, Fin _ | NInf, PInf => true
  | Fin _, NInf | PInf, _ | NInf, NInf => false
  end.

Definition gtb (a b : num) : bool := ltb b a.

(** [a == 0], also [a === 0]. *)
Definition is_zero (a : num) : bool :=
  match a with Fin r => Reqb r 0 | _ => false end.

(** [a || b] on numbers: [a] unless it is falsy (zero or NaN). *)
Definition or_else (a b : num) : num :=
  match a with
  | Fin r => if Reqb r 0 then b else a
  | NaN => b
  | _ => a
  end.

(** Is the real [r] an integer, and if so is it odd? *)
Definition is_integer (r : R) : bool := Reqb (frac_part r) 0.
Definition is_odd_integer (r : R) : bool :=
  is_integer r && Z.odd (Int_part r).

(** [Math.pow base exponent], after Number::exponentiate. *)
Definition Math_pow (base exponent : num) : num :=
  match exponent with
  | NaN => NaN
  | Fin e =>
      if Reqb e 0 then Fin 1 else
      match base with
      | NaN => NaN
      | PInf => if Rltb 0 e then PInf else Fin 0
      | NInf =>
          if Rltb 0 e then (if is_odd_integer e then NInf else PInf)
          else Fin 0
      | Fin b =>
          if Reqb b 0 then (if Rltb 0 e then Fin 0 else PInf)
          else if Rltb 0 b then Fin (Rpower b e)
          else if is_integer e then
            (if is_odd_integer e then Fin (- Rpower (- b) e)
             else Fin (Rpower (- b) e))
          else NaN
      end
  | PInf =>
      match base with
      | NaN => NaN
      | PInf | NInf => PInf
      | Fin b =>
          if Rltb 1 (Rabs b) then PInf
          else if Reqb (Rabs b) 1 then NaN else Fin 0
      end
  | NInf =>
      match base with
      | NaN => NaN
      | PInf | NInf => Fin 0
      | Fin b =>
          if Rltb 1 (Rabs b) then Fin 0
          else if Reqb (Rabs b) 1 then NaN else PInf
      end
  end.

(** [Math.max a b] and [Math.min a b]: NaN as soon as one side is NaN. *)
Definition Math_max (a b : num) : num :=
  match a, b with
  | NaN, _ | _, NaN => NaN
  | _, _ => if ltb a b then b else a
  end.

Definition Math_min (a b : num) : num :=
  match a, b with
  | NaN, _ | _, NaN => NaN
  | _, _ => if ltb b a then b else a
  end.

End Num.

Notation "a + b" := (Num.add a b) : num_scope.
Notation "a - b" := (Num.sub a b) : num_scope.
Notation "a * b" := (Num.mul a b) : num_scope.
Notation "a / b" := (Num.div a b) : num_scope.
Notation "- a" := (Num.neg a) : num_scope.
Notation "a <? b" := (Num.ltb a b) (at level 70) : num_scope.
Notation "a >? b" := (Num.gtb a b) (at level 70) : num_scope.

(** ** THREE.Vector3

    Every method of three.js mutates [this] and returns it; here a method
    returns the new value of [this]. *)

Module Vector3.

Record t : Type := mk { x : num; y : num; z : num }.

(** [new THREE.Vector3()] *)
Definition zero : t := mk (Fin 0) (Fin 0) (Fin 0).

(** The vector with the finite components [a], [b], [c]. *)
Definition fin (a b c : R) : t := mk (Fin a) (Fin b) (Fin c).

Definition is_finite (v : t) : bool :=
  Num.is_finite (x v) && Num.is_finite (y v) && Num.is_finite (z v).

Definition add (this v : t) : t :=
  mk (x this + x v)%num (y this + y v)%num (z this + z v)%num.

Definition sub (this v : t) : t :=
  mk (x this - x v)%num (y this - y v)%num (z this - z v)%num.

(** [this.subVectors(a, b)] overwrites [this] with [a - b]. *)
Definition subVectors (a b : t) : t := sub a b.

Definition multiplyScalar (this : t) (scalar : num) : t :=
  mk (x this * scalar)%num (y this * scalar)%num (z this * scalar)%num.

Definition divideScalar (this : t) (scalar : num) : t :=
  multiplyScalar this (Fin 1 / scalar)%num.

Definition addScaledVector (this v : t) (s : num) : t :=
  mk (x this + x v * s)%num (y this + y v * s)%num (z this + z v * s)%num.

Definition length (this : t) : num :=
  Num.Math_sqrt (x this * x this + y this * y this + z this * z this)%num.

Definition normalize (this : t) : t :=
  divideScalar this (Num.or_else (length this) (Fin 1)).

Definition setLength (this : t) (l : num) : t :=
  multiplyScalar (normalize this) l.

Definition distanceToSquared (this v : t) : num :=
  let dx := (x this - x v)%num in
  let dy := (y this - y v)%num in
  let dz := (z this - z v)%num in
  (dx * dx + dy * dy + dz * dz)%num.

Definition distanceTo (this v : t) : num :=
  Num.Math_sqrt (distanceToSquared this v).

End Vector3.

(** ** Math.random

    The global random source is an infinite sequence of samples (each in
    the interval from 0 to 1) and a cursor; [Math_random] reads the sample
    under the cursor and advances it. *)

Module Random.

Record t : Type := mk { samples : nat -> R; cursor : nat }.

Definition Math_random (g : t) : num * t :=
  (Fin (samples g (cursor g)), mk (samples g) (S (cursor g))).

End Random.

(** ** Errors

    [throw new Error(message)] is the left injection of a sum. *)

Inductive Error : Type := mkError (message : string).

Definition Result (A : Type) : Type := (Error + A)%type.
Definition ok {A : Type} (a : A) : Result A := inr a.
Definition throw {A : Type} (e : Error) : Result A := inl e.
Definition bind {A B : Type} (m : Result A) (k : A -> Result B) : Result B :=
  match m with inl e => inl e | inr a => k a end.

Notation "'do' a <- m ; k" := (bind m (fun a => k))
  (at level 10, a name, m at level 100, k at level 200).

(** ** Bounds3D, worlds and dropoffs

    These classes are read through the fields and methods that the
    sources under study use. *)

Module Bounds3D.

Record t : Type := mk {
  xMin : num; xMax : num;
  yMin : num; yMax : num;
  zMin : num; zMax : num
}.

End Bounds3D.

Module BasePoint.
Record t : Type := mk { x : num; z : num }.
End BasePoint.

Module CylinderDescription.
Record t : Type := mk { basePoint : BasePoint.t; radius : num }.
End CylinderDescription.

Module Obstacles.
Record t : Type := mk { cylinders : list CylinderDescription.t }.
End Obstacles.

Module World.

Record t : Type := mk {
  name : string;
  get3DBoundaries : Bounds3D.t;
  obstacles : Obstacles.t
}.

End World.

Module Dropoff.
(** A dropoff maps a distance to a weight through its method [fn]. *)
Record t : Type := mk { fn : num -> num }.
End Dropoff.

Inductive BoidType : Type := Normal | ChangeOfLeader.

Inductive RenderingModes : Type := Simple | Photorealistic.

Definition RenderingModes_eqb (a b : RenderingModes) : bool :=
  match a, b with
  | Simple, Simple | Photorealistic, Photorealistic => true
  | _, _ => false
  end.

Module ChangeOfLeaderBoidOptions.

Record t : Type := mk {
  maxLeaderTimestep : num;
  eccentricityThreshold : num;
  neighbourCountThreshold : num;
  becomeLeaderProbability : num;
  colourBoids : bool;
  peakSpeedMultiplier : num;
  peakSpeedTimestepFraction : num
}.

End ChangeOfLeaderBoidOptions.

(** The simulation parameters.  [boidCount] is a count and is kept as a
    whole number; the source types it as a number, and a target that is
    no whole number is outside this model, so the properties of the
    population name their whole-number target.  [dropoffRule] is the
    field that SeparationRule reads. *)
Module BoidSimulationParams.

Record t : Type := mk {
  boidCount : Z;
  boidType : BoidType;
  visibilityThreshold : num;
  maxSpeed : num;
  acceleration : num;
  worldName : string;
  worldDimens : Bounds3D.t;
  rendering : RenderingModes;
  randomnessPerTimestep : num;
  randomnessLimit : num;
  changeOfLeaderBoidOptions : ChangeOfLeaderBoidOptions.t;
  dropoffRule : Dropoff.t
}.

Definition set_worldDimens (p : t) (d : Bounds3D.t) : t :=
  mk (boidCount p) (boidType p) (visibilityThreshold p) (maxSpeed p)
     (acceleration p) (worldName p) d (rendering p)
     (randomnessPerTimestep p) (randomnessLimit p)
     (changeOfLeaderBoidOptions p) (dropoffRule p).

End BoidSimulationParams.

(** ** Boid state *)

Inductive Axis : Type := AxisX | AxisY | AxisZ.

(** The rotation of a mesh: the world-axis rotations applied, in order,
    since the last [rotation.set(0, 0, 0)]. *)
Definition Rotation : Type := list (Axis * num).

Definition BoidId : Type := nat.

Module BoidState.

(** [position] and [rotation] are those of the boid's mesh. *)
Record t : Type := mk {
  id : BoidId;
  position : Vector3.t;
  rotation : Rotation;
  velocity : Vector3.t;
  randomBias : Vector3.t
}.

Definition set_velocity (b : t) (v : Vector3.t) : t :=
  mk (id b) (position b) (rotation b) v (randomBias b).
Definition set_randomBias (b : t) (v : Vector3.t) : t :=
  mk (id b) (position b) (rotation b) (velocity b) v.
Definition set_position (b : t) (v : Vector3.t) : t :=
  mk (id b) v (rotation b) (velocity b) (randomBias b).
Definition set_rotation (b : t) (r : Rotation) : t :=
  mk (id b) (position b) r (velocity b) (randomBias b).

End BoidState.

(** ** Rules *)

Module RuleArguments.

(** [dropoff] is the field that CohesionRule reads. *)
Record t : Type := mk {
  neighbours : list BoidState.t;
  simParams : BoidSimulationParams.t;
  dropoff : Dropoff.t
}.

End RuleArguments.

Module RuleOptions.
Record t : Type := mk { minWeight : option num; maxWeight : option num }.
End RuleOptions.

(** [a ?? b] *)
Definition nullish {A : Type} (a : option A) (b : A) : A :=
  match a with Some v => v | None => b end.

Module Rule.

(** The fields of the abstract class. *)
Record fields : Type := mkFields {
  weight : num;
  minWeight : num;
  maxWeight : num
}.

(** [constructor(weight, options)] *)
Definition new (weight : num) (options : option RuleOptions.t) : fields :=
  mkFields weight
    (nullish (match options with Some o => RuleOptions.minWeight o | None => None end)
             (Fin 0))
    (nullish (match options with Some o => RuleOptions.maxWeight o | None => None end)
             (weight * Fin 2)%num).

(** What a concrete rule class provides. *)
Class Impl (T : Type) : Type := {
  base : T -> fields;
  name : T -> string;
  alwaysApplyToLeaderBoids : T -> bool;
  calculateVector : T -> BoidState.t -> RuleArguments.t -> Vector3.t
}.

(** A rule object: an instance of some concrete rule class. *)
Record t : Type := pack {
  class : Type;
  class_impl : Impl class;
  this : class
}.

Definition call_calculateVector (rule : t) :
  BoidState.t -> RuleArguments.t -> Vector3.t :=
  @calculateVector (class rule) (class_impl rule) (this rule).

End Rule.

(** ** Boid (Boid.ts) *)

Module BoidOptions.

Record t : Type := mk {
  position : Vector3.t;
  velocity : Vector3.t;
  photorealisticRendering : option bool
}.

End BoidOptions.

Module Boid.

Import BoidState.

(** [new Boid(id, options)].  The mesh geometry and material belong to
    the view; of [generateIndividualColour] only its one draw from the
    random source is kept. *)
Definition new (id : BoidId) (options : BoidOptions.t) (g : Random.t)
  : BoidState.t * Random.t :=
  let (_, g) := Random.Math_random g in
  (BoidState.mk id
     (Vector3.mk (Vector3.x (BoidOptions.position options))
                 (Vector3.y (BoidOptions.position options))
                 (Vector3.z (BoidOptions.position options)))
     []
     (BoidOptions.velocity options)
     Vector3.zero,
   g).

Definition capSpeed (this : t) (maxSpeed : num) : t :=
  if (Vector3.length (velocity this) >? maxSpeed)%num
  then set_velocity this (Vector3.setLength (velocity this) maxSpeed)
  else this.

Definition updateRandomBias (this : t)
  (randomnessPerTimestep randomnessLimit : num) (g : Random.t)
  : t * Random.t :=
  let (r1, g) := Random.Math_random g in
  let (r2, g) := Random.Math_random g in
  let (r3, g) := Random.Math_random g in
  let this :=
    set_randomBias this
      (Vector3.add (randomBias this)
         (Vector3.mk
            (r1 * randomnessPerTimestep - randomnessPerTimestep / Fin 2)%num
            (r2 * randomnessPerTimestep - randomnessPerTimestep / Fin 2)%num
            (r3 * randomnessPerTimestep - randomnessPerTimestep / Fin 2)%num))
  in
  (* once randomness gets above a certain threshold, scale it back *)
  let this :=
    if (Vector3.length (randomBias this) >? randomnessLimit)%num
    then set_randomBias this (Vector3.divideScalar (randomBias this) (Fin 100))
    else this
  in
  (this, g).

Definition addRandomnessToVelocity (this : t) (ruleArguments : RuleArguments.t)
  (g : Random.t) : t * Random.t :=
  let (this, g) :=
    updateRandomBias this
      (BoidSimulationParams.randomnessPerTimestep
         (RuleArguments.simParams ruleArguments))
      (BoidSimulationParams.randomnessLimit
         (RuleArguments.simParams ruleArguments))
      g
  in
  (set_velocity this (Vector3.add (velocity this) (randomBias this)), g).

Definition isOtherBoidVisible (this other : t) (visibilityThreshold : num)
  : bool :=
  (Vector3.distanceTo (position this) (position other) <? visibilityThreshold)%num.

Section Orientation.

(** [Math.atan2], left uninterpreted. *)
Variable Math_atan2 : num -> num -> num.

(** Point the boid to face in the direction of the given vector. *)
Definition pointInDirection (this : t) (vector : Vector3.t) : t :=
  let phi := Math_atan2 (- Vector3.z vector)%num (Vector3.x vector) in
  let a :=
    Num.Math_sqrt (Num.Math_pow (Vector3.x vector) (Fin 2)
                   + Num.Math_pow (Vector3.z vector) (Fin 2))%num in
  let theta := Math_atan2 a (Vector3.y vector) in
  (* reset the rotation, then rotate around the world's z-axis by theta
     clockwise and around the world's y-axis by phi anticlockwise *)
  set_rotation this [(AxisZ, (- theta)%num); (AxisY, phi)].

(** Move the boid by its velocity vector. *)
Definition move (this : t) : t :=
  let this := pointInDirection this (velocity this) in
  set_position this (Vector3.add (position this) (velocity this)).

(** The loop over the rules: each rule sees the boid with the velocity
    left by the rules before it. *)
Definition applyRules (this : t) (rules : list Rule.t)
  (ruleArguments : RuleArguments.t) : t :=
  fold_left
    (fun this rule =>
       let ruleVector := Rule.call_calculateVector rule this ruleArguments in
       set_velocity this (Vector3.add (velocity this) ruleVector))
    rules this.

Definition updateAndMove (this : t) (rules : list Rule.t)
  (ruleArguments : RuleArguments.t) (g : Random.t) : t * Random.t :=
  let this := applyRules this rules ruleArguments in
  let this :=
    capSpeed this
      (BoidSimulationParams.maxSpeed (RuleArguments.simParams ruleArguments)) in
  let (this, g) := addRandomnessToVelocity this ruleArguments g in
  (move this, g).

End Orientation.

(** The arguments that [generateIndividualColour] hands to
    [THREE.Color.setHSL]. *)
Record HSL : Type := mkHSL { h : num; s : num; l : num }.

(** Base colour of the boid, before randomly adjusting lightness of each
    boid. *)
Definition baseColour : HSL :=
  mkHSL (Fin (602/1000)) (Fin (32/100)) (Fin (3/10)).

(** Randomly generate a version of [baseColour], with lightness adjusted. *)
Definition generateIndividualColour (photorealisticRendering : bool)
  (g : Random.t) : HSL * Random.t :=
  let (lightnessAdjust, g) :=
    if photorealisticRendering
    then
      let (r, g) := Random.Math_random g in
      ((r * Fin (8/10))%num, g)
    else
      let (r, g) := Random.Math_random g in
      ((r * Fin (4/10) - Fin (2/10))%num, g)
  in
  let l := (l baseColour + lightnessAdjust)%num in
  (* constrain lightness to range [0, 1] *)
  let l := Num.Math_max l (Fin 0) in
  let l := Num.Math_min l (Fin 1) in
  (mkHSL (h baseColour) (s baseColour) l, g).

(** [get velocityNormalised]: a new vector, the velocity is left alone. *)
Definition velocityNormalised (this : t) : Vector3.t :=
  Vector3.normalize (velocity this).

(** The options of the factory method of Boid.ts. *)
Record factoryOptions : Type := mkFactoryOptions {
  positionBounds : option Bounds3D.t;
  velocityBounds : option Bounds3D.t;
  photorealisticRendering : bool
}.

(** [options?.bounds?.field ?? default] *)
Definition bound (options : option factoryOptions)
  (bounds : factoryOptions -> option Bounds3D.t) (field : Bounds3D.t -> num)
  (default : R) : num :=
  match options with
  | Some o => match bounds o with Some b => field b | None => Fin default end
  | None => Fin default
  end.

(** [Boid.generateWithRandomPosAndVel]: factory method to generate a boid
    with random position and velocity. *)
Definition generateWithRandomPosAndVel (id : BoidId)
  (options : option factoryOptions) (g : Random.t) : BoidState.t * Random.t :=
  (* default position and velocity bounds *)
  let minXPos := bound options positionBounds Bounds3D.xMin (-100) in
  let maxXPos := bound options positionBounds Bounds3D.xMax 100 in
  let minYPos := bound options positionBounds Bounds3D.yMin 0 in
  let maxYPos := bound options positionBounds Bounds3D.yMax 50 in
  let minZPos := bound options positionBounds Bounds3D.zMin (-100) in
  let maxZPos := bound options positionBounds Bounds3D.zMax 100 in
  let minXVel := bound options velocityBounds Bounds3D.xMin (-(2/10)) in
  let maxXVel := bound options velocityBounds Bounds3D.xMax (2/10) in
  let minYVel := bound options velocityBounds Bounds3D.yMin (-(2/100)) in
  let maxYVel := bound options velocityBounds Bounds3D.yMax (2/100) in
  let minZVel := bound options velocityBounds Bounds3D.zMin (-(2/10)) in
  let maxZVel := bound options velocityBounds Bounds3D.zMax (2/10) in
  let (rx, g) := Random.Math_random g in
  let (ry, g) := Random.Math_random g in
  let (rz, g) := Random.Math_random g in
  let (sx, g) := Random.Math_random g in
  let (sy, g) := Random.Math_random g in
  let (sz, g) := Random.Math_random g in
  new id
    (BoidOptions.mk
       (Vector3.mk (rx * (maxXPos - minXPos) + minXPos)%num
                   (ry * (maxYPos - minYPos) + minYPos)%num
                   (rz * (maxZPos - minZPos) + minZPos)%num)
       (Vector3.mk (sx * (maxXVel - minXVel) + minXVel)%num
                   (sy * (maxYVel - minYVel) + minYVel)%num
                   (sz * (maxZVel - minZVel) + minZVel)%num)
       (Some (match options with
              | Some o => photorealisticRendering o
              | None => false
              end)))
    g.

End Boid.

(** ** SeparationRule.ts and CohesionRule.ts *)

Section NeighbourRules.

(** [Boid.toOther(other, simParams?)] is not part of Boid.ts; the two
    rules are parametric in it. *)
Variable toOther :
  BoidState.t -> BoidState.t -> option BoidSimulationParams.t -> Vector3.t.

(** *** SeparationRule *)

Record SeparationRule : Type := mkSeparationRule {
  SeparationRule_fields : Rule.fields
}.

Definition SeparationRule_new (weight : num) : SeparationRule :=
  mkSeparationRule (Rule.new weight None).

Definition SeparationRule_calculateVector (this : SeparationRule)
  (thisBoid : BoidState.t) (args : RuleArguments.t) : Vector3.t :=
  let separation := Vector3.zero in
  if Nat.eqb (List.length (RuleArguments.neighbours args)) 0
  then Vector3.zero
  else
    let weightSum := Fin 0 in
    let '(separation, weightSum) :=
      fold_left
        (fun '(separation, weightSum) neighbour =>
           let toOther :=
             toOther thisBoid neighbour (Some (RuleArguments.simParams args)) in
           let weight :=
             Dropoff.fn
               (BoidSimulationParams.dropoffRule (RuleArguments.simParams args))
               (Vector3.length toOther) in
           (Vector3.addScaledVector separation toOther weight,
            (weightSum + weight)%num))
        (RuleArguments.neighbours args)
        (separation, weightSum)
    in
    if Num.is_zero weightSum then Vector3.zero
    else
      let separation := Vector3.divideScalar separation weightSum in
      let separation := Vector3.normalize separation in
      Vector3.multiplyScalar separation
        (Rule.weight (SeparationRule_fields this)).

#[export] Instance SeparationRule_impl : Rule.Impl SeparationRule := {|
  Rule.base := SeparationRule_fields;
  Rule.name := fun _ => "Separation"%string;
  Rule.alwaysApplyToLeaderBoids := fun _ => false;
  Rule.calculateVector := SeparationRule_calculateVector
|}.

(** *** CohesionRule *)

Record CohesionRule : Type := mkCohesionRule {
  CohesionRule_fields : Rule.fields
}.

Definition CohesionRule_new (weight : num) : CohesionRule :=
  mkCohesionRule (Rule.new weight None).

Definition CohesionRule_calculateVector (this : CohesionRule)
  (thisBoid : BoidState.t) (args : RuleArguments.t) : Vector3.t :=
  (* no cohesion force if there are no visible neighbours *)
  if Nat.eqb (List.length (RuleArguments.neighbours args)) 0
  then Vector3.zero
  else
    (* calculate centre of visible boids *)
    let centre := Vector3.zero in
    let weightSum := Fin 0 in
    let '(centre, weightSum) :=
      fold_left
        (fun '(centre, weightSum) neighbour =>
           let weight :=
             Dropoff.fn (RuleArguments.dropoff args)
               (Vector3.length (toOther thisBoid neighbour None)) in
           (Vector3.addScaledVector centre (BoidState.position neighbour) weight,
            (weightSum + weight)%num))
        (RuleArguments.neighbours args)
        (centre, weightSum)
    in
    let centre := Vector3.divideScalar centre weightSum in
    (* cohesion force is towards the calculated centre *)
    let centre := Vector3.sub centre (BoidState.position thisBoid) in
    let centre := Vector3.normalize centre in
    Vector3.multiplyScalar centre (Rule.weight (CohesionRule_fields this)).

#[export] Instance CohesionRule_impl : Rule.Impl CohesionRule := {|
  Rule.base := CohesionRule_fields;
  Rule.name := fun _ => "Cohesion"%string;
  Rule.alwaysApplyToLeaderBoids := fun _ => false;
  Rule.calculateVector := CohesionRule_calculateVector
|}.

End NeighbourRules.

(** ** ObstacleAvoidanceRule.ts *)

Module ObstacleAvoidanceRuleOptions.

Record t : Type := mk {
  minWeight : option num;
  maxWeight : option num;
  sharpness : option num;
  world : World.t
}.

Definition to_RuleOptions (o : t) : RuleOptions.t :=
  RuleOptions.mk (minWeight o) (maxWeight o).

End ObstacleAvoidanceRuleOptions.

Module ObstacleAvoidanceRule.

Record t : Type := mk {
  fields : Rule.fields;
  (* How "sharp" the obstacle boundary should be.  Min value: 1 *)
  SHARPNESS : num;
  world : World.t
}.

Definition new (weight : num) (options : ObstacleAvoidanceRuleOptions.t) : t :=
  mk (Rule.new weight (Some (ObstacleAvoidanceRuleOptions.to_RuleOptions options)))
     (nullish (ObstacleAvoidanceRuleOptions.sharpness options) (Fin 3))
     (ObstacleAvoidanceRuleOptions.world options).

Definition setWorld (this : t) (world : World.t) : t :=
  mk (fields this) (SHARPNESS this) world.

(** The body of the loop, for one cylinder. *)
Definition avoidCylinder (this : t) (thisBoid : BoidState.t)
  (cylinder : CylinderDescription.t) : Vector3.t :=
  let adjustedCylinderPosition :=
    Vector3.mk
      (BasePoint.x (CylinderDescription.basePoint cylinder))
      (Vector3.y (BoidState.position thisBoid))
      (BasePoint.z (CylinderDescription.basePoint cylinder)) in
  let avoidanceVector :=
    Vector3.subVectors (BoidState.position thisBoid) adjustedCylinderPosition in
  let distance :=
    (Vector3.length avoidanceVector - CylinderDescription.radius cylinder)%num in
  let distance := if (distance <? Fin 0)%num then Fin 0 else distance in
  let avoidanceMagnitude :=
    Num.Math_pow (SHARPNESS this) (- (distance - Fin 10))%num in
  Vector3.setLength avoidanceVector avoidanceMagnitude.

(** The local constants of the loop body, each as a function of the boid
    and the cylinder: the vector from the axis of the cylinder to the
    boid, at the height of the boid; [distance], its length less the
    radius and not below zero; and the length that the avoidance vector
    is set to. *)
Definition avoidanceVector (thisBoid : BoidState.t)
  (cylinder : CylinderDescription.t) : Vector3.t :=
  Vector3.subVectors (BoidState.position thisBoid)
    (Vector3.mk
       (BasePoint.x (CylinderDescription.basePoint cylinder))
       (Vector3.y (BoidState.position thisBoid))
       (BasePoint.z (CylinderDescription.basePoint cylinder))).

Definition distance (thisBoid : BoidState.t)
  (cylinder : CylinderDescription.t) : num :=
  let distance :=
    (Vector3.length (avoidanceVector thisBoid cylinder)
     - CylinderDescription.radius cylinder)%num in
  if (distance <? Fin 0)%num then Fin 0 else distance.

Definition magnitude (this : t) (thisBoid : BoidState.t)
  (cylinder : CylinderDescription.t) : num :=
  Num.Math_pow (SHARPNESS this) (- (distance thisBoid cylinder - Fin 10))%num.

Definition calculateVector (this : t) (thisBoid : BoidState.t)
  (_args : RuleArguments.t) : Vector3.t :=
  let finalVector :=
    fold_left
      (fun finalVector cylinder =>
         Vector3.add finalVector (avoidCylinder this thisBoid cylinder))
      (Obstacles.cylinders (World.obstacles (world this)))
      Vector3.zero
  in
  Vector3.multiplyScalar finalVector (Rule.weight (fields this)).

#[export] Instance impl : Rule.Impl t := {|
  Rule.base := fields;
  Rule.name := fun _ => "Avoid Obstacle Boundary"%string;
  Rule.alwaysApplyToLeaderBoids := fun _ => true;
  Rule.calculateVector := calculateVector
|}.

End ObstacleAvoidanceRule.

(** ** WorldTools *)

Module WorldTools.

Definition getNames (worlds : list World.t) : list string :=
  fold_left (fun names world => names ++ [World.name world]) worlds [].

Fixpoint getWorldByName (worlds : list World.t) (worldName : string)
  : Result World.t :=
  match worlds with
  | [] => throw (mkError "World not found.")
  | world :: worlds =>
      if String.eqb (World.name world) worldName
      then ok world
      else getWorldByName worlds worldName
  end.

End WorldTools.

(** ** BoidGenerator *)

Module BoidGenerator.

Record options : Type := mkOptions {
  boidType : option BoidType;
  positionBounds : option Bounds3D.t;
  velocityBounds : option Bounds3D.t;
  acceleration : option num;
  photorealisticRendering : bool
}.

(** [options?.bounds?.field ?? default] *)
Definition bound (bounds : option Bounds3D.t) (field : Bounds3D.t -> num)
  (default : R) : num :=
  match bounds with Some b => field b | None => Fin default end.

(** [Math.random() * (max - min) + min] *)
Definition randomBetween (min max : num) (g : Random.t) : num * Random.t :=
  let (r, g) := Random.Math_random g in
  ((r * (max - min) + min)%num, g).

(** Factory method to generate a boid of a certain type with random
    position and velocity.  Both boid types are built from the same
    random position and velocity; the state that a change-of-leader boid
    adds to a boid is not part of the sources. *)
Definition generateBoidWithRandomPosAndVec (id : BoidId) (o : options)
  (g : Random.t) : BoidState.t * Random.t :=
  let minXPos := bound (positionBounds o) Bounds3D.xMin (-100) in
  let maxXPos := bound (positionBounds o) Bounds3D.xMax 100 in
  let minYPos := bound (positionBounds o) Bounds3D.yMin 0 in
  let maxYPos := bound (positionBounds o) Bounds3D.yMax 50 in
  let minZPos := bound (positionBounds o) Bounds3D.zMin (-100) in
  let maxZPos := bound (positionBounds o) Bounds3D.zMax 100 in
  let minXVel := bound (velocityBounds o) Bounds3D.xMin (-(2/10)) in
  let maxXVel := bound (velocityBounds o) Bounds3D.xMax (2/10) in
  let minYVel := bound (velocityBounds o) Bounds3D.yMin (-(2/100)) in
  let maxYVel := bound (velocityBounds o) Bounds3D.yMax (2/100) in
  let minZVel := bound (velocityBounds o) Bounds3D.zMin (-(2/10)) in
  let maxZVel := bound (velocityBounds o) Bounds3D.zMax (2/10) in
  let (px, g) := randomBetween minXPos maxXPos g in
  let (py, g) := randomBetween minYPos maxYPos g in
  let (pz, g) := randomBetween minZPos maxZPos g in
  let (vx, g) := randomBetween minXVel maxXVel g in
  let (vy, g) := randomBetween minYVel maxYVel g in
  let (vz, g) := randomBetween minZVel maxZVel g in
  Boid.new id
    (BoidOptions.mk (Vector3.mk px py pz) (Vector3.mk vx vy vz)
       (Some (photorealisticRendering o)))
    g.

End BoidGenerator.

(** ** BoidSimulation *)

(** The objects that the simulation hands to the scene graph. *)
Inductive Mesh : Type :=
| BoidMesh (id : BoidId)
| ArenaMesh (params : BoidSimulationParams.t)
| FloorMesh (params : BoidSimulationParams.t)
| WaterMesh
| SkyMesh
| CylinderMesh (description : CylinderDescription.t) (rendering : RenderingModes).

(** [Array.prototype.pop]: the last element and the elements before it. *)
Definition pop {A : Type} (l : list A) : option (A * list A) :=
  match rev l with
  | [] => None
  | a :: r => Some (a, rev r)
  end.

(** [array[i] = a] for an index within the array. *)
Fixpoint assign {A : Type} (l : list A) (i : nat) (a : A) : list A :=
  match l, i with
  | [], _ => []
  | _ :: l, O => a :: l
  | b :: l, S i => b :: assign l i a
  end.

Module BoidSimulation.

Section Simulation.

(** The scene graph belongs to the base class Simulation, which is the
    view layer; the simulation is parametric in it. *)
Context {Scene : Type}.
Variable clearScene : Scene -> Scene.
Variable addToScene : Mesh -> Scene -> Scene.
Variable removeFromScene : Mesh -> Scene -> Scene.
(** [updateSun]: what it does to the scene (its environment map). *)
Variable updateSun : Scene -> Scene.

Variable Math_atan2 : num -> num -> num.

(** [rulesBefore] are the rules that come before [obstacleAvoidRule]
    in [this.rules]; the last entry of [this.rules] is the object
    [this.obstacleAvoidRule] itself, see [rules]. *)
Record t : Type := mk {
  worlds : list World.t;
  currentWorldName : string;
  currentRendering : RenderingModes;
  boids : list BoidState.t;
  nextBoidId : BoidId;
  simParams : BoidSimulationParams.t;
  obstacleAvoidRule : ObstacleAvoidanceRule.t;
  rulesBefore : list Rule.t;
  scene : Scene;
  random : Random.t
}.

Definition rules (this : t) : list Rule.t :=
  rulesBefore this
    ++ [Rule.pack ObstacleAvoidanceRule.t ObstacleAvoidanceRule.impl
          (obstacleAvoidRule this)].

Definition set_scene (this : t) (sc : Scene) : t :=
  mk (worlds this) (currentWorldName this) (currentRendering this)
     (boids this) (nextBoidId this) (simParams this)
     (obstacleAvoidRule this) (rulesBefore this) sc (random this).

Definition set_boids (this : t) (bs : list BoidState.t) : t :=
  mk (worlds this) (currentWorldName this) (currentRendering this)
     bs (nextBoidId this) (simParams this)
     (obstacleAvoidRule this) (rulesBefore this) (scene this) (random this).

Definition set_random (this : t) (g : Random.t) : t :=
  mk (worlds this) (currentWorldName this) (currentRendering this)
     (boids this) (nextBoidId this) (simParams this)
     (obstacleAvoidRule this) (rulesBefore this) (scene this) g.

Definition set_simParams (this : t) (p : BoidSimulationParams.t) : t :=
  mk (worlds this) (currentWorldName this) (currentRendering this)
     (boids this) (nextBoidId this) p
     (obstacleAvoidRule this) (rulesBefore this) (scene this) (random this).

Definition set_obstacleAvoidRule (this : t) (r : ObstacleAvoidanceRule.t) : t :=
  mk (worlds this) (currentWorldName this) (currentRendering this)
     (boids this) (nextBoidId this) (simParams this)
     r (rulesBefore this) (scene this) (random this).

Definition set_current (this : t) (w : string) (r : RenderingModes) : t :=
  mk (worlds this) w r
     (boids this) (nextBoidId this) (simParams this)
     (obstacleAvoidRule this) (rulesBefore this) (scene this) (random this).

Definition set_nextBoidId (this : t) (n : BoidId) : t :=
  mk (worlds this) (currentWorldName this) (currentRendering this)
     (boids this) n (simParams this)
     (obstacleAvoidRule this) (rulesBefore this) (scene this) (random this).

Definition initializePhotorealisticRendering (this : t) : t :=
  let this := set_scene this (addToScene WaterMesh (scene this)) in
  let this := set_scene this (addToScene SkyMesh (scene this)) in
  set_scene this (updateSun (scene this)).

Definition reloadWorld (this : t) : Result t :=
  do world <- WorldTools.getWorldByName (worlds this)
                (BoidSimulationParams.worldName (simParams this));
  let this :=
    set_simParams this
      (BoidSimulationParams.set_worldDimens (simParams this)
         (World.get3DBoundaries world)) in
  let this := set_scene this (clearScene (scene this)) in
  let this :=
    set_obstacleAvoidRule this
      (ObstacleAvoidanceRule.setWorld (obstacleAvoidRule this) world) in
  (* Remove old boids *)
  let this := set_boids this [] in
  (* Arena *)
  let this :=
    set_scene this (addToScene (ArenaMesh (simParams this)) (scene this)) in
  let this :=
    match BoidSimulationParams.rendering (simParams this) with
    | Photorealistic => initializePhotorealisticRendering this
    | Simple =>
        (* Floor *)
        set_scene this (addToScene (FloorMesh (simParams this)) (scene this))
    end in
  (* Obstacles *)
  let this :=
    fold_left
      (fun this description =>
         set_scene this
           (addToScene (CylinderMesh description Photorealistic) (scene this)))
      (Obstacles.cylinders (World.obstacles world))
      this in
  ok (set_current this
        (BoidSimulationParams.worldName (simParams this))
        (BoidSimulationParams.rendering (simParams this))).

Definition newBoidId (this : t) : BoidId * t :=
  let id := nextBoidId this in
  (id, set_nextBoidId this (S (nextBoidId this))).

(** The options that [updateBoidCount] passes to the generator. *)
Definition generatorOptions (simParams : BoidSimulationParams.t)
  : BoidGenerator.options :=
  BoidGenerator.mkOptions
    (Some (BoidSimulationParams.boidType simParams))
    (Some (BoidSimulationParams.worldDimens simParams))
    None
    (Some (BoidSimulationParams.acceleration simParams))
    (RenderingModes_eqb (BoidSimulationParams.rendering simParams)
       Photorealistic).

(** The body of the first loop of [updateBoidCount]. *)
Definition generateBoid (this : t) : t :=
  let (id, this) := newBoidId this in
  let (boid, g) :=
    BoidGenerator.generateBoidWithRandomPosAndVec id
      (generatorOptions (simParams this)) (random this) in
  let this := set_random this g in
  let this :=
    set_scene this (addToScene (BoidMesh (BoidState.id boid)) (scene this)) in
  set_boids this (boids this ++ [boid]).

(** [while (difference > 0)]: generate new boids. *)
Equations? generateLoop (difference : Z) (this : t) : Z * t
  by wf (Z.to_nat difference) lt :=
  generateLoop difference this with Z_gt_dec difference 0 => {
    | left _ => generateLoop (difference - 1) (generateBoid this)
    | right _ => (difference, this) }.
Proof. lia. Qed.

(** [while (difference < 0)]: remove boids, as long as there is one. *)
Equations? removeLoop (difference : Z) (this : t) : Z * t
  by wf (Z.to_nat (- difference)) lt :=
  removeLoop difference this with Z_lt_dec difference 0 => {
    | left _ with pop (boids this) => {
        | None =>
            (* handle the case that for some reason there's no boid to
               remove *)
            (difference, this)
        | Some (boid, rest) =>
            let this := set_boids this rest in
            let this :=
              set_scene this
                (removeFromScene (BoidMesh (BoidState.id boid)) (scene this)) in
            removeLoop (difference + 1) this }
    | right _ => (difference, this) }.
Proof. lia. Qed.

Definition updateBoidCount (this : t) : t :=
  if Z.eqb (BoidSimulationParams.boidCount (simParams this))
           (Z.of_nat (List.length (boids this)))
  then this
  else
    (* Calculate how many boids we need to generate/remove. *)
    let difference :=
      (BoidSimulationParams.boidCount (simParams this)
       - Z.of_nat (List.length (boids this)))%Z in
    let (difference, this) := generateLoop difference this in
    let (_, this) := removeLoop difference this in
    this.

(** A reference to a boid is its index in [this.boids]: every boid
    object is pushed there once, when it is created.  The loop of
    [getBoidNeighbours], from index [k] on. *)
Fixpoint neighboursLoop (boid : nat) (thisBoid : BoidState.t)
  (visibilityThreshold : num) (k : nat) (others : list BoidState.t)
  : list nat :=
  match others with
  | [] => []
  | otherBoid :: others =>
      if Nat.eqb k boid
      then neighboursLoop boid thisBoid visibilityThreshold (S k) others
      else if Boid.isOtherBoidVisible thisBoid otherBoid visibilityThreshold
      then k :: neighboursLoop boid thisBoid visibilityThreshold (S k) others
      else neighboursLoop boid thisBoid visibilityThreshold (S k) others
  end.

(** The references of the neighbours of the boid referenced by [boid].
    [update] asks for the neighbours of the boids of the collection only.
    A boid object outside the collection has no reference here, and the
    empty result for an index that stands for no boid is no behaviour of
    the source. *)
Definition getBoidNeighbours (this : t) (boid : nat) : list nat :=
  match nth_error (boids this) boid with
  | None => []
  | Some thisBoid =>
      neighboursLoop boid thisBoid
        (BoidSimulationParams.visibilityThreshold (simParams this))
        0 (boids this)
  end.

(** The boids behind a list of references. *)
Definition deref (this : t) (refs : list nat) : list BoidState.t :=
  flat_map
    (fun r => match nth_error (boids this) r with
              | Some b => [b]
              | None => []
              end)
    refs.

(** One call of the callback of [this.boids.map]: the per-tick update
    of the boid at index [i].  The source calls [boid.update(rules, args)],
    a method of the boid classes built on Boid.ts that Boid.ts itself
    does not define; the update of Boid.ts, [Boid.updateAndMove], stands
    for it here.  The properties of [update] below rest only on what an
    agent update leaves alone: the settings, the worlds, the ids and the
    size of the collection. *)
Definition updateBoid (this : t) (i : nat) : t :=
  match nth_error (boids this) i with
  | None => this
  | Some boid =>
      let args :=
        RuleArguments.mk
          (deref this (getBoidNeighbours this i))
          (simParams this)
          (BoidSimulationParams.dropoffRule (simParams this)) in
      let (boid, g) :=
        Boid.updateAndMove Math_atan2 boid (rules this) args (random this) in
      set_random (set_boids this (assign (boids this) i boid)) g
  end.

Definition updateBoids (this : t) : t :=
  fold_left updateBoid (seq 0 (List.length (boids this))) this.

Definition needsReload (this : t) : bool :=
  negb (String.eqb (currentWorldName this)
          (BoidSimulationParams.worldName (simParams this)))
  || negb (RenderingModes_eqb (currentRendering this)
             (BoidSimulationParams.rendering (simParams this))).

(** One tick.  Advancing the water animation and rendering the scene
    are left to the view. *)
Definition update (this : t) : Result t :=
  (* Reload the world if needed *)
  do this <- (if needsReload this then reloadWorld this else ok this);
  (* update boids before updating base simulation to rerender *)
  let this := updateBoidCount this in
  ok (updateBoids this).

End Simulation.

Arguments t : clear implicits.

End BoidSimulation.

(** * The same operations on binary64 numbers

    The vector operations, the per-tick update of a boid and the
    neighbour query once more, on the numbers the program runs on:
    IEEE 754 binary64, with rounding to nearest.  They serve to evaluate
    the program at concrete inputs. *)

Module Binary64.

Import Floats.
Local Open Scope float_scope.

(** [a || b] on numbers: [a] unless it is falsy (a zero or NaN). *)
Definition or_else (a b : float) : float :=
  if (a =? 0) || is_nan a then b else a.

(** The real number that a finite binary64 number stands for. *)
Definition to_R (f : float) : R :=
  match Prim2SF f with
  | S754_finite s m e =>
      (IZR (if s then Z.neg m else Z.pos m) * powerRZ 2 e)%R
  | _ => 0%R
  end.

Module Vector3.

Record t : Type := mk { x : float; y : float; z : float }.

(** [new THREE.Vector3()] *)
Definition zero : t := mk 0 0 0.

Definition add (this v : t) : t :=
  mk (x this + x v) (y this + y v) (z this + z v).

Definition sub (this v : t) : t :=
  mk (x this - x v) (y this - y v) (z this - z v).

Definition multiplyScalar (this : t) (scalar : float) : t :=
  mk (x this * scalar) (y this * scalar) (z this * scalar).

Definition divideScalar (this : t) (scalar : float) : t :=
  multiplyScalar this (1 / scalar).

Definition length (this : t) : float :=
  sqrt (x this * x this + y this * y this + z this * z this).

Definition normalize (this : t) : t :=
  divideScalar this (or_else (length this) 1).

Definition setLength (this : t) (l : float) : t :=
  multiplyScalar (normalize this) l.

Definition distanceToSquared (this v : t) : float :=
  let dx := x this - x v in
  let dy := y this - y v in
  let dz := z this - z v in
  dx * dx + dy * dy + dz * dz.

Definition distanceTo (this v : t) : float :=
  sqrt (distanceToSquared this v).

(** The point of space that a vector of finite components stands for. *)
Definition to_R3 (v : t) : R * R * R := (to_R (x v), to_R (y v), to_R (z v)).

End Vector3.

Module Random.

Record t : Type := mk { samples : nat -> float; cursor : nat }.

Definition Math_random (g : t) : float * t :=
  (samples g (cursor g), mk (samples g) (S (cursor g))).

End Random.

(** The parameters that the functions below read. *)
Module BoidSimulationParams.

Record t : Type := mk {
  visibilityThreshold : float;
  maxSpeed : float;
  randomnessPerTimestep : float;
  randomnessLimit : float
}.

End BoidSimulationParams.

Module Boid.

Record t : Type := mk {
  position : Vector3.t;
  rotation : list (Axis * float);
  velocity : Vector3.t;
  randomBias : Vector3.t
}.

Definition set_velocity (b : t) (v : Vector3.t) : t :=
  mk (position b) (rotation b) v (randomBias b).
Definition set_randomBias (b : t) (v : Vector3.t) : t :=
  mk (position b) (rotation b) (velocity b) v.
Definition set_position (b : t) (v : Vector3.t) : t :=
  mk v (rotation b) (velocity b) (randomBias b).
Definition set_rotation (b : t) (r : list (Axis * float)) : t :=
  mk (position b) r (velocity b) (randomBias b).

Definition capSpeed (this : t) (maxSpeed : float) : t :=
  if maxSpeed <? Vector3.length (velocity this)
  then set_velocity this (Vector3.setLength (velocity this) maxSpeed)
  else this.

Definition updateRandomBias (this : t)
  (randomnessPerTimestep randomnessLimit : float) (g : Random.t)
  : t * Random.t :=
  let (r1, g) := Random.Math_random g in
  let (r2, g) := Random.Math_random g in
  let (r3, g) := Random.Math_random g in
  let this :=
    set_randomBias this
      (Vector3.add (randomBias this)
         (Vector3.mk
            (r1 * randomnessPerTimestep - randomnessPerTimestep / 2)
            (r2 * randomnessPerTimestep - randomnessPerTimestep / 2)
            (r3 * randomnessPerTimestep - randomnessPerTimestep / 2)))
  in
  (* once randomness gets above a certain threshold, scale it back *)
  let this :=
    if randomnessLimit <? Vector3.length (randomBias this)
    then set_randomBias this (Vector3.divideScalar (randomBias this) 100)
    else this
  in
  (this, g).

Definition addRandomnessToVelocity (this : t)
  (simParams : BoidSimulationParams.t) (g : Random.t) : t * Random.t :=
  let (this, g) :=
    updateRandomBias this
      (BoidSimulationParams.randomnessPerTimestep simParams)
      (BoidSimulationParams.randomnessLimit simParams)
      g
  in
  (set_velocity this (Vector3.add (velocity this) (randomBias this)), g).

Definition isOtherBoidVisible (this other : t) (visibilityThreshold : float)
  : bool :=
  Vector3.distanceTo (position this) (position other) <? visibilityThreshold.

Section Orientation.

(** [Math.atan2] and [Math.pow], left uninterpreted. *)
Variable Math_atan2 : float -> float -> float.
Variable Math_pow : float -> float -> float.

Definition pointInDirection (this : t) (vector : Vector3.t) : t :=
  let phi := Math_atan2 (- Vector3.z vector) (Vector3.x vector) in
  let a :=
    sqrt (Math_pow (Vector3.x vector) 2 + Math_pow (Vector3.z vector) 2) in
  let theta := Math_atan2 a (Vector3.y vector) in
  set_rotation this [(AxisZ, - theta); (AxisY, phi)].

(** Move the boid by its velocity vector. *)
Definition move (this : t) : t :=
  let this := pointInDirection this (velocity this) in
  set_position this (Vector3.add (position this) (velocity this)).

(** A rule here is [calculateVector] with its rule arguments applied. *)
Definition updateAndMove (this : t) (rules : list (t -> Vector3.t))
  (simParams : BoidSimulationParams.t) (g : Random.t) : t * Random.t :=
  let this :=
    fold_left
      (fun this rule =>
         let ruleVector := rule this in
         set_velocity this (Vector3.add (velocity this) ruleVector))
      rules this in
  let this := capSpeed this (BoidSimulationParams.maxSpeed simParams) in
  let (this, g) := addRandomnessToVelocity this simParams g in
  (move this, g).

End Orientation.

End Boid.

Module BoidSimulation.

(** A reference to a boid is its index in the collection, as in
    [BoidSimulation.getBoidNeighbours] above. *)
Fixpoint neighboursLoop (boid : nat) (thisBoid : Boid.t)
  (visibilityThreshold : float) (k : nat) (others : list Boid.t)
  : list nat :=
  match others with
  | [] => []
  | otherBoid :: others =>
      if Nat.eqb k boid
      then neighboursLoop boid thisBoid visibilityThreshold (S k) others
      else if Boid.isOtherBoidVisible thisBoid otherBoid visibilityThreshold
      then k :: neighboursLoop boid thisBoid visibilityThreshold (S k) others
      else neighboursLoop boid thisBoid visibilityThreshold (S k) others
  end.

Definition getBoidNeighbours (boids : list Boid.t)
  (simParams : BoidSimulationParams.t) (boid : nat) : list nat :=
  match nth_error boids boid with
  | None => []
  | Some thisBoid =>
      neighboursLoop boid thisBoid
        (BoidSimulationParams.visibilityThreshold simParams) 0 boids
  end.

End BoidSimulation.

(** ObstacleAvoidanceRule.ts, with the cylinders of its world. *)
Module CylinderDescription.

Record t : Type := mk { basePoint_x : float; basePoint_z : float; radius : float }.

End CylinderDescription.

Module ObstacleAvoidanceRule.

Record t : Type := mk {
  weight : float;
  SHARPNESS : float;
  cylinders : list CylinderDescription.t
}.

Section Power.

(** [Math.pow], left uninterpreted. *)
Variable Math_pow : float -> float -> float.

(** The body of the loop, for one cylinder. *)
Definition avoidCylinder (this : t) (thisBoid : Boid.t)
  (cylinder : CylinderDescription.t) : Vector3.t :=
  let adjustedCylinderPosition :=
    Vector3.mk
      (CylinderDescription.basePoint_x cylinder)
      (Vector3.y (Boid.position thisBoid))
      (CylinderDescription.basePoint_z cylinder) in
  let avoidanceVector :=
    Vector3.sub (Boid.position thisBoid) adjustedCylinderPosition in
  let distance :=
    Vector3.length avoidanceVector - CylinderDescription.radius cylinder in
  let distance := if distance <? 0 then 0 else distance in
  let avoidanceMagnitude := Math_pow (SHARPNESS this) (- (distance - 10)) in
  Vector3.setLength avoidanceVector avoidanceMagnitude.

Definition calculateVector (this : t) (thisBoid : Boid.t) : Vector3.t :=
  let finalVector :=
    fold_left
      (fun finalVector cylinder =>
         Vector3.add finalVector (avoidCylinder this thisBoid cylinder))
      (cylinders this)
      Vector3.zero
  in
  Vector3.multiplyScalar finalVector (weight this).

End Power.

End ObstacleAvoidanceRule.

End Binary64.

(** * Notions of the specification *)

(** The Euclidean distance between two points of space. *)
Definition euclidean_distance (p q : R * R * R) : R :=
  let '(px, py, pz) := p in
  let '(qx, qy, qz) := q in
  sqrt (Rsqr (px - qx) + Rsqr (py - qy) + Rsqr (pz - qz)).

(** A boid that came out of the generator for the parameters [p]. *)
Definition freshly_generated (p : BoidSimulationParams.t) (b : BoidState.t)
  : Prop :=
  exists g,
    b = fst (BoidGenerator.generateBoidWithRandomPosAndVec (BoidState.id b)
               (BoidSimulation.generatorOptions p) g).

(** The Euclidean norm of a vector of space. *)
Definition norm3 (a b c : R) : R := sqrt (a * a + b * b + c * c).

(** The distance, in the horizontal plane, from a position to the axis
    of a cylinder based at [(cx, cz)]; and the distance to its surface,
    clamped to zero inside the radius [r]. *)
Definition planar_distance (cx cz px pz : R) : R :=
  sqrt (Rsqr (px - cx) + Rsqr (pz - cz)).

Definition surface_distance (cx cz r px pz : R) : R :=
  Rmax (planar_distance cx cz px pz - r) 0.

(** The magnitude of the avoidance vector for the sharpness [S]: the
    exponential [S^-(distance - 10)] of the surface distance. *)
Definition avoidanceMagnitude (S cx cz r px pz : R) : R :=
  Rpower S (- (surface_distance cx cz r px pz + - 10)).

(** The sum of the dropoff weights that a rule accumulates over the
    neighbours, in the order of the loop; and the weights themselves, as
    SeparationRule and as CohesionRule compute them. *)
Definition weightSum (weights : list num) : num :=
  fold_left Num.add weights (Fin 0).

Definition separation_weights
  (toOther : BoidState.t -> BoidState.t -> option BoidSimulationParams.t
             -> Vector3.t)
  (thisBoid : BoidState.t) (args : RuleArguments.t) : list num :=
  map (fun neighbour =>
         Dropoff.fn
           (BoidSimulationParams.dropoffRule (RuleArguments.simParams args))
           (Vector3.length
              (toOther thisBoid neighbour (Some (RuleArguments.simParams args)))))
      (RuleArguments.neighbours args).

Definition cohesion_weights
  (toOther : BoidState.t -> BoidState.t -> option BoidSimulationParams.t
             -> Vector3.t)
  (thisBoid : BoidState.t) (args : RuleArguments.t) : list num :=
  map (fun neighbour =>
         Dropoff.fn (RuleArguments.dropoff args)
           (Vector3.length (toOther thisBoid neighbour None)))
      (RuleArguments.neighbours args).

(** A vector none of whose components is a finite number. *)
Definition nowhere_finite (v : Vector3.t) : Prop :=
  Num.is_finite (Vector3.x v) = false
  /\ Num.is_finite (Vector3.y v) = false
  /\ Num.is_finite (Vector3.z v) = false.

(** Every boid of the collection carries an id that the simulation has
    already handed out. *)
Definition ids_below_next {Scene : Type} (this : BoidSimulation.t Scene)
  : Prop :=
  Forall (fun b => (BoidState.id b < BoidSimulation.nextBoidId this)%nat)
    (BoidSimulation.boids this).

(** A random source all of whose samples lie in the range of
    [Math.random]: from 0 inclusive to 1 exclusive. *)
Definition unit_samples (g : Random.t) : Prop :=
  forall n, 0 <= Random.samples g n < 1.

(** A point with finite coordinates inside a box with finite extents. *)
Definition inside (bounds : Bounds3D.t) (p : Vector3.t) : Prop :=
  exists x0 x1 y0 y1 z0 z1 px py pz,
    bounds = Bounds3D.mk (Fin x0) (Fin x1) (Fin y0) (Fin y1) (Fin z0) (Fin z1)
    /\ p = Vector3.fin px py pz
    /\ x0 <= px <= x1 /\ y0 <= py <= y1 /\ z0 <= pz <= z1.

(** A box with finite extents, each minimum at most its maximum. *)
Definition well_formed_bounds (bounds : Bounds3D.t) : Prop :=
  exists x0 x1 y0 y1 z0 z1,
    bounds = Bounds3D.mk (Fin x0) (Fin x1) (Fin y0) (Fin y1) (Fin z0) (Fin z1)
    /\ x0 <= x1 /\ y0 <= y1 /\ z0 <= z1.

(** The ids of the collection are pairwise distinct. *)
Definition ids_unique {Scene : Type} (this : BoidSimulation.t Scene) : Prop :=
  NoDup (map BoidState.id (BoidSimulation.boids this)).

(** Two states of the simulation with the same settings: registry,
    current world and rendering, parameters and rules. *)
Definition same_settings {Scene : Type} (this this' : BoidSimulation.t Scene)
  : Prop :=
  BoidSimulation.worlds this' = BoidSimulation.worlds this
  /\ BoidSimulation.currentWorldName this' = BoidSimulation.currentWorldName this
  /\ BoidSimulation.currentRendering this' = BoidSimulation.currentRendering this
  /\ BoidSimulation.simParams this' = BoidSimulation.simParams this
  /\ BoidSimulation.obstacleAvoidRule this' = BoidSimulation.obstacleAvoidRule this
  /\ BoidSimulation.rulesBefore this' = BoidSimulation.rulesBefore this.


(** The position bounds that the generators use when none are given. *)
Definition default_position_bounds : Bounds3D.t :=
  Bounds3D.mk (Fin (-100)) (Fin 100) (Fin 0) (Fin 50) (Fin (-100)) (Fin 100).

(** A vector with a component that is NaN. *)
Definition has_NaN (v : Vector3.t) : Prop :=
  Vector3.x v = NaN \/ Vector3.y v = NaN \/ Vector3.z v = NaN.


(** The per-tick update as the specification orders it, written with the
    operations on vectors alone, step by step. *)
Section TickOrder.

Variable Math_atan2 : num -> num -> num.

(** Step 1: every rule is evaluated, on the boid as the rules before it
    left it, and its force is added to the velocity as it is. *)
Definition velocity_with_forces (this : BoidState.t) (rules : list Rule.t)
  (args : RuleArguments.t) : Vector3.t :=
  fold_left
    (fun velocity rule =>
       Vector3.add velocity
         (Rule.call_calculateVector rule
            (BoidState.set_velocity this velocity) args))
    rules (BoidState.velocity this).

(** Step 2: a velocity whose length is above the maximum speed is set to
    the length of the maximum speed. *)
Definition capped_velocity (velocity : Vector3.t) (maxSpeed : num)
  : Vector3.t :=
  if (Vector3.length velocity >? maxSpeed)%num
  then Vector3.setLength velocity maxSpeed
  else velocity.

(** Step 3: the bias drifts, on each axis by a sample times the rate less
    half the rate, and is divided by 100 when its length is then above
    the limit. *)
Definition drifted_bias (bias : Vector3.t)
  (randomnessPerTimestep randomnessLimit : num) (s1 s2 s3 : R) : Vector3.t :=
  let drifted :=
    Vector3.add bias
      (Vector3.mk
         (Fin s1 * randomnessPerTimestep - randomnessPerTimestep / Fin 2)%num
         (Fin s2 * randomnessPerTimestep - randomnessPerTimestep / Fin 2)%num
         (Fin s3 * randomnessPerTimestep - randomnessPerTimestep / Fin 2)%num)
  in
  if (Vector3.length drifted >? randomnessLimit)%num
  then Vector3.divideScalar drifted (Fin 100)
  else drifted.

(** Step 5: the orientation, a function of the velocity alone: the yaw
    from [atan2(-z, x)], the pitch from [atan2(horizontal magnitude, y)]. *)
Definition heading (velocity : Vector3.t) : Rotation :=
  let yaw := Math_atan2 (- Vector3.z velocity)%num (Vector3.x velocity) in
  let horizontal_magnitude :=
    Num.Math_sqrt (Num.Math_pow (Vector3.x velocity) (Fin 2)
                   + Num.Math_pow (Vector3.z velocity) (Fin 2))%num in
  let pitch := Math_atan2 horizontal_magnitude (Vector3.y velocity) in
  [(AxisZ, (- pitch)%num); (AxisY, yaw)].

(** The five steps in their order; step 4 adds the velocity to the
    position.  The three samples are those under the cursor of the random
    source. *)
Definition tick_in_specified_order (this : BoidState.t) (rules : list Rule.t)
  (args : RuleArguments.t) (g : Random.t) : BoidState.t * Random.t :=
  let simParams := RuleArguments.simParams args in
  let c := Random.cursor g in
  let step1 := velocity_with_forces this rules args in
  let step2 := capped_velocity step1 (BoidSimulationParams.maxSpeed simParams) in
  let bias :=
    drifted_bias (BoidState.randomBias this)
      (BoidSimulationParams.randomnessPerTimestep simParams)
      (BoidSimulationParams.randomnessLimit simParams)
      (Random.samples g c) (Random.samples g (1 + c))
      (Random.samples g (2 + c)) in
  let step3 := Vector3.add step2 bias in
  let step4 := Vector3.add (BoidState.position this) step3 in
  let step5 := heading step3 in
  (BoidState.mk (BoidState.id this) step4 step5 step3 bias,
   Random.mk (Random.samples g) (3 + c)).

End TickOrder.

(** The boid that the generator makes under the id [id] for the position
    bounds [bounds], from the samples of a random source from the index
    [c] on: three samples place it between the bounds, the next three
    give it a velocity between the default velocity bounds; it has no
    rotation and no random bias yet. *)
Definition drawn_boid (bounds : Bounds3D.t) (samples : nat -> R) (c : nat)
  (id : BoidId) : BoidState.t :=
  BoidState.mk id
    (Vector3.mk
       (Fin (samples c) * (Bounds3D.xMax bounds - Bounds3D.xMin bounds)
        + Bounds3D.xMin bounds)%num
       (Fin (samples (1 + c)%nat)
        * (Bounds3D.yMax bounds - Bounds3D.yMin bounds)
        + Bounds3D.yMin bounds)%num
       (Fin (samples (2 + c)%nat)
        * (Bounds3D.zMax bounds - Bounds3D.zMin bounds)
        + Bounds3D.zMin bounds)%num)
    []
    (Vector3.mk
       (Fin (samples (3 + c)%nat) * (Fin (2/10) - Fin (- (2/10)))
        + Fin (- (2/10)))%num
       (Fin (samples (4 + c)%nat) * (Fin (2/100) - Fin (- (2/100)))
        + Fin (- (2/100)))%num
       (Fin (samples (5 + c)%nat) * (Fin (2/10) - Fin (- (2/10)))
        + Fin (- (2/10)))%num)
    Vector3.zero.

Arguments drawn_boid bounds samples c%_nat id%_nat.

(** * Sample objects

    Concrete parameters, boids and worlds on which the properties below
    are exercised.  The parameters are the defaults of BoidSimulation. *)

(** A stand-in for [Math.atan2] where its value does not matter. *)
Definition sample_atan2 : num -> num -> num := fun _ _ => Fin 0.

Definition sample_bounds : Bounds3D.t :=
  Bounds3D.mk (Fin (-100)) (Fin 100) (Fin 0) (Fin 100) (Fin (-100)) (Fin 100).

(** [new NoDropoff(1)] *)
Definition sample_dropoff : Dropoff.t := Dropoff.mk (fun _ => Fin 1).

Definition sample_params_for (boidCount : Z) (worldName : string)
  : BoidSimulationParams.t :=
  BoidSimulationParams.mk boidCount ChangeOfLeader (Fin 25) (Fin (1/2))
    (Fin (1/100)) worldName sample_bounds Simple (Fin (1/100)) (Fin (1/10))
    (ChangeOfLeaderBoidOptions.mk (Fin 200) (Fin (1/2)) (Fin 8) (Fin (1/1000))
       true (Fin (5/4)) (Fin (1/4)))
    sample_dropoff.

Arguments sample_params_for boidCount%_Z worldName%_string.

Definition sample_params : BoidSimulationParams.t :=
  sample_params_for 100 "Default".

Definition sample_args (neighbours : list BoidState.t) : RuleArguments.t :=
  RuleArguments.mk neighbours sample_params sample_dropoff.

(** A random source that always yields one half. *)
Definition sample_random : Random.t := Random.mk (fun _ => 1/2) 0%nat.

(** A boid flying along the x-axis at the maximum speed, with a small
    random bias in the same direction. *)
Definition sample_boid : BoidState.t :=
  BoidState.mk 0%nat (Vector3.fin 0 0 0) [] (Vector3.fin (1/2) 0 0)
    (Vector3.fin (1/20) 0 0).

(** A world with one cylinder of radius one on the y-axis, and the
    obstacle rule as BoidSimulation builds it: weight 10, sharpness 3. *)
Definition sample_cylinder : CylinderDescription.t :=
  CylinderDescription.mk (BasePoint.mk (Fin 0) (Fin 0)) (Fin 1).

Definition sample_world : World.t :=
  World.mk "Obstacles1" sample_bounds (Obstacles.mk [sample_cylinder]).

Definition sample_obstacleAvoidRule : ObstacleAvoidanceRule.t :=
  ObstacleAvoidanceRule.new (Fin 10)
    (ObstacleAvoidanceRuleOptions.mk None None None sample_world).

(** A boid at rest at the position [(px, py, pz)]. *)
Definition boid_with_id (id : BoidId) (px py pz : R) : BoidState.t :=
  BoidState.mk id (Vector3.fin px py pz) [] (Vector3.fin 0 0 0)
    (Vector3.fin 0 0 0).

Arguments boid_with_id id%_nat px%_R py%_R pz%_R.

Definition boid_at (px py pz : R) : BoidState.t := boid_with_id 0 px py pz.

(** A scene graph that is the list of its meshes. *)
Definition sample_clearScene (sc : list Mesh) : list Mesh := [].
Definition sample_addToScene (m : Mesh) (sc : list Mesh) : list Mesh := sc ++ [m].
Definition sample_removeFromScene (m : Mesh) (sc : list Mesh) : list Mesh :=
  match m with
  | BoidMesh id =>
      filter (fun o => match o with
                       | BoidMesh id' => negb (Nat.eqb id id')
                       | _ => true
                       end) sc
  | _ => sc
  end.
Definition sample_updateSun (sc : list Mesh) : list Mesh := sc.

Definition default_world : World.t :=
  World.mk "Default" sample_bounds (Obstacles.mk []).

(** Three boids on the x-axis. *)
Definition sample_boids : list BoidState.t :=
  [boid_with_id 0 0 0 0; boid_with_id 1 3 0 0; boid_with_id 2 40 0 0].

(** A simulation in the world "Default" with the three sample boids, a
    given boid-count target and a given selected world. *)
Definition sample_simulation (boidCount : Z) (worldName : string)
  : BoidSimulation.t (list Mesh) :=
  BoidSimulation.mk
    [default_world; sample_world]
    "Default" Simple
    sample_boids 3%nat
    (sample_params_for boidCount worldName)
    (ObstacleAvoidanceRule.new (Fin 10)
       (ObstacleAvoidanceRuleOptions.mk None None None default_world))
    []
    []
    sample_random.

Arguments sample_simulation boidCount%_Z worldName%_string.

(** The vector from a boid to another, for [Boid.toOther]. *)
Definition sample_toOther (this other : BoidState.t)
  (_ : option BoidSimulationParams.t) : Vector3.t :=
  Vector3.sub (BoidState.position other) (BoidState.position this).

(** A dropoff that gives every distance the weight zero, and the rule
    arguments of a boid with one neighbour under that dropoff. *)
Definition zero_dropoff : Dropoff.t := Dropoff.mk (fun _ => Fin 0).

Definition zero_weight_args : RuleArguments.t :=
  RuleArguments.mk [boid_at 1 0 0] sample_params zero_dropoff.

(** The sample simulation with another visibility threshold. *)
Definition sample_simulation_seeing (visibilityThreshold : num)
  : BoidSimulation.t (list Mesh) :=
  BoidSimulation.set_simParams (sample_simulation 3 "Default")
    (BoidSimulationParams.mk 3 ChangeOfLeader visibilityThreshold (Fin (1/2))
       (Fin (1/100)) "Default" sample_bounds Simple (Fin (1/100)) (Fin (1/10))
       (ChangeOfLeaderBoidOptions.mk (Fin 200) (Fin (1/2)) (Fin 8)
          (Fin (1/1000)) true (Fin (5/4)) (Fin (1/4)))
       sample_dropoff).

(** Sample objects on binary64 numbers: parameters within the ranges of
    the control panel (visibility radius 5, maximum speed 0.5, no
    randomness), a boid flying at the velocity (0, 3, 11), and two boids
    at rest, the second one unit in the last place short of (3, 4, 0). *)
Section Binary64Samples.

Import Floats.
Local Open Scope float_scope.


Definition binary64_params : Binary64.BoidSimulationParams.t :=
  Binary64.BoidSimulationParams.mk 5 0.5 0 0.



Definition binary64_boid_at (px py pz : float) : Binary64.Boid.t :=
  Binary64.Boid.mk (Binary64.Vector3.mk px py pz) [] Binary64.Vector3.zero
    Binary64.Vector3.zero.

(** The largest binary64 number below four: four less two to the power
    of minus 51. *)
Definition binary64_below_four : float := 0x1.fffffffffffffp+1.

Definition binary64_boids : list Binary64.Boid.t :=
  [binary64_boid_at 0 0 0; binary64_boid_at 3 binary64_below_four 0].

(** [Math.pow] at a whole exponent, by repeated multiplication: exact
    when the power is a binary64 number, as the powers of three below
    are; at any other exponent it is no number here. *)
Definition whole_number (y : float) : option Z :=
  match Prim2SF y with
  | S754_zero _ => Some 0%Z
  | S754_finite s m e =>
      let n :=
        if (0 <=? e)%Z then Some (Z.pos m * 2 ^ e)%Z
        else if (Z.pos m mod 2 ^ (- e) =? 0)%Z
             then Some (Z.pos m / 2 ^ (- e))%Z
             else None in
      if s then option_map Z.opp n else n
  | _ => None
  end.

Definition binary64_pow_whole (x y : float) : float :=
  match whole_number y with
  | Some Z0 => 1
  | Some (Zpos p) => Pos.iter (fun acc => acc * x) 1 p
  | Some (Zneg p) => 1 / Pos.iter (fun acc => acc * x) 1 p
  | None => nan
  end.

(** A rule of sharpness 3 and weight 1 about one cylinder of radius 1
    whose axis goes through the origin. *)
Definition binary64_obstacleAvoidRule : Binary64.ObstacleAvoidanceRule.t :=
  Binary64.ObstacleAvoidanceRule.mk 1 3
    [Binary64.CylinderDescription.mk 0 0 1].

(** Two to the power of minus 600, a distance whose square is below the
    least positive binary64 number. *)
Definition binary64_tiny : float := 0x1p-600.

End Binary64Samples.

(** * Properties *)

(** ** The world registry *)

(** C9. Looking a world up by name throws the error "World not found."
    exactly when no world of the registry has that name, and otherwise
    returns the first world of the registry that has it; there is no
    third outcome, in particular no default world. *)
Theorem getWorldByName_first_or_error :
  forall (worlds : list World.t) (worldName : string),
    (WorldTools.getWorldByName worlds worldName
       = throw (mkError "World not found.")
     <-> forall w, In w worlds -> World.name w <> worldName)
    /\ (forall w,
          WorldTools.getWorldByName worlds worldName = ok w
          <-> exists before after,
                worlds = before ++ w :: after
                /\ World.name w = worldName
                /\ forall w', In w' before -> World.name w' <> worldName)
    /\ (forall e,
          WorldTools.getWorldByName worlds worldName = throw e
          -> e = mkError "World not found.").
Proof.
  intros worlds worldName.
  induction worlds as [|world worlds [IHerr [IHok IHonly]]]; simpl.
  - split; [split | split; [intros w; split |]].
    + intros _ w [].
    + reflexivity.
    + discriminate.
    + intros (before & after & Heq & _). destruct before; discriminate.
    + intros e He. injection He as <-. reflexivity.
  - destruct (String.eqb (World.name world) worldName) eqn:Hname.
    + apply String.eqb_eq in Hname.
      split; [split | split; [intros w; split |]].
      * discriminate.
      * intros Hnone. exfalso. apply (Hnone world); simpl; auto.
      * intros Hw. injection Hw as <-.
        exists [], worlds. split; [reflexivity | split; [assumption |]].
        intros w' [].
      * intros (before & after & Heq & Hw & Hbefore).
        destruct before as [|b before]; simpl in Heq.
        -- injection Heq as -> _. reflexivity.
        -- injection Heq as -> _. exfalso. apply (Hbefore b); simpl; auto.
      * discriminate.
    + apply String.eqb_neq in Hname.
      split; [split | split; [intros w; split |]].
      * intros Herr w [<- | Hin]; [assumption | now apply IHerr].
      * intros Hnone. apply IHerr. intros w Hin. apply Hnone. now right.
      * intros Hw. apply IHok in Hw as (before & after & -> & Hn & Hbefore).
        exists (world :: before), after.
        split; [reflexivity | split; [assumption |]].
        intros w' [<- | Hin]; auto.
      * intros (before & after & Heq & Hw & Hbefore).
        destruct before as [|b before]; simpl in Heq.
        -- injection Heq as -> _. contradiction.
        -- injection Heq as -> ->. apply IHok.
           exists before, after.
           split; [reflexivity | split; [assumption |]].
           intros w' Hin. apply Hbefore. now right.
      * apply IHonly.
Qed.

(** ** Population reconciliation *)

Lemma pop_nil {A : Type} : pop (@nil A) = None.
Proof. reflexivity. Qed.

Lemma pop_snoc {A : Type} (l : list A) (a : A) : pop (l ++ [a]) = Some (a, l).
Proof.
  unfold pop. rewrite rev_app_distr. simpl. now rewrite rev_involutive.
Qed.

Lemma pop_None {A : Type} (l : list A) : pop l = None -> l = [].
Proof.
  destruct l as [|a l] using rev_ind; [reflexivity |].
  rewrite pop_snoc. discriminate.
Qed.

Lemma pop_Some {A : Type} (l rest : list A) (a : A) :
  pop l = Some (a, rest) -> l = rest ++ [a].
Proof.
  destruct l as [|b l _] using rev_ind; [discriminate |].
  rewrite pop_snoc. intros H. now injection H as -> ->.
Qed.

Section PopulationFacts.

Variable Scene : Type.
Variable clearScene : Scene -> Scene.
Variable addToScene : Mesh -> Scene -> Scene.
Variable removeFromScene : Mesh -> Scene -> Scene.
Variable updateSun : Scene -> Scene.
Variable Math_atan2 : num -> num -> num.

Import BoidSimulation.

(** The removal loop only pops boids (and their meshes): it keeps the
    first boids, as many as are left, and nothing else of the state. *)
Lemma removeLoop_spec (k : nat) :
  forall (difference : Z) (this : t Scene),
    Z.to_nat (- difference) = k ->
    let this' := snd (removeLoop removeFromScene difference this) in
    boids this' = firstn (List.length (boids this) - k) (boids this)
    /\ nextBoidId this' = nextBoidId this
    /\ simParams this' = simParams this
    /\ random this' = random this
    /\ obstacleAvoidRule this' = obstacleAvoidRule this
    /\ rulesBefore this' = rulesBefore this
    /\ worlds this' = worlds this
    /\ currentWorldName this' = currentWorldName this
    /\ currentRendering this' = currentRendering this.
Proof.
  induction k as [|k IH]; intros difference this Hk; simp removeLoop.
  - destruct (Z_lt_dec difference 0) as [Hlt | Hge]; [lia |].
    simpl. rewrite Nat.sub_0_r, firstn_all. repeat split; reflexivity.
  - destruct (Z_lt_dec difference 0) as [Hlt | Hge]; [| lia].
    simpl.
    destruct (pop (boids this)) as [[boid rest] |] eqn:Hpop; simpl.
    + apply pop_Some in Hpop.
      specialize (IH (difference + 1)%Z
        (set_scene
           (set_boids this rest)
           (removeFromScene (BoidMesh (BoidState.id boid))
              (scene (set_boids this rest))))).
      simpl in IH.
      destruct IH as (Hb & Hrest); [lia |].
      split; [| exact Hrest].
      rewrite Hb, Hpop, length_app. simpl.
      replace (List.length rest + 1 - S k)%nat
        with (List.length rest - k)%nat by lia.
      rewrite firstn_app.
      replace (List.length rest - k - List.length rest)%nat with 0%nat by lia.
      simpl. now rewrite app_nil_r.
    + apply pop_None in Hpop. rewrite Hpop. simpl.
      repeat split; reflexivity.
Qed.

(** The generation loop does nothing when there is nothing to generate. *)
Lemma generateLoop_nonpositive (difference : Z) (this : t Scene) :
  (difference <= 0)%Z ->
  generateLoop addToScene difference this = (difference, this).
Proof.
  intros Hle. simp generateLoop.
  destruct (Z_gt_dec difference 0); [lia | reflexivity].
Qed.

(** Otherwise it runs its body once per unit of [difference]. *)
Lemma generateLoop_iter (k : nat) :
  forall (difference : Z) (this : t Scene),
    difference = Z.of_nat k ->
    generateLoop addToScene difference this
    = (0%Z, Nat.iter k (generateBoid addToScene) this).
Proof.
  induction k as [|k IH]; intros difference this ->.
  - now rewrite generateLoop_nonpositive by lia.
  - simp generateLoop.
    destruct (Z_gt_dec (Z.of_nat (S k)) 0); [| lia].
    simpl. rewrite (IH (Z.of_nat (S k) - 1)%Z _ ltac:(lia)). f_equal.
    simpl. now rewrite Nat.iter_swap.
Qed.

(** C8. Lowering the boid-count target from [n] to [m] removes boids from
    the end of the collection only: the first [m] boids stay as they are,
    boid for boid and field for field, and exactly [n - m] are removed.
    With a target below zero the loop stops once the collection is empty;
    with nothing to remove the reconciliation leaves the simulation as it
    is.  The function is total: no path of it throws. *)
Theorem updateBoidCount_removes_from_the_end (this : t Scene) (n : nat) (m : Z) :
  List.length (boids this) = n ->
  BoidSimulationParams.boidCount (simParams this) = m ->
  (m < Z.of_nat n)%Z ->
  let this' := updateBoidCount addToScene removeFromScene this in
  boids this' = firstn (Z.to_nat m) (boids this)
  /\ (exists removed,
        boids this = boids this' ++ removed
        /\ ((0 <= m)%Z -> Z.of_nat (List.length removed) = (Z.of_nat n - m)%Z))
  /\ ((0 <= m)%Z -> Z.of_nat (List.length (boids this')) = m)
  /\ ((m < 0)%Z -> boids this' = [])
  /\ (boids this = [] -> this' = this)
  /\ nextBoidId this' = nextBoidId this
  /\ random this' = random this.
Proof.
  intros Hn Hm Hlt this'. subst this'. unfold updateBoidCount.
  rewrite Hm, Hn.
  destruct (Z.eqb_spec m (Z.of_nat n)) as [Heq | _]; [lia |].
  rewrite generateLoop_nonpositive by lia.
  pose proof (removeLoop_spec (Z.to_nat (- (m - Z.of_nat n))) (m - Z.of_nat n)%Z
                this eq_refl) as Hspec.
  simpl in Hspec.
  destruct (removeLoop removeFromScene (m - Z.of_nat n) this) as [d this'] eqn:Hloop.
  simpl in Hspec.
  destruct Hspec as (Hb & Hid & _ & Hrand & _).
  rewrite Hn in Hb.
  replace (n - Z.to_nat (- (m - Z.of_nat n)))%nat with (Z.to_nat m) in Hb by lia.
  split; [exact Hb |].
  split.
  { exists (skipn (Z.to_nat m) (boids this)). split.
    - rewrite Hb. symmetry. apply firstn_skipn.
    - intros Hm0. rewrite length_skipn, Hn. lia. }
  split.
  { intros Hm0. rewrite Hb, length_firstn, Hn. lia. }
  split.
  { intros Hm0. rewrite Hb. replace (Z.to_nat m) with 0%nat by lia. reflexivity. }
  split; [| split; assumption].
  intros Hnil. revert Hloop. simp removeLoop.
  destruct (Z_lt_dec (m - Z.of_nat n) 0) as [Hneg | Hge]; [| lia].
  simpl. rewrite Hnil. simpl. intros H. injection H as _ Hthis. now symmetry.
Qed.

End PopulationFacts.

(** ** Switching the world *)

Section WorldSwitchFacts.

Variable Scene : Type.
Variable clearScene : Scene -> Scene.
Variable addToScene : Mesh -> Scene -> Scene.
Variable removeFromScene : Mesh -> Scene -> Scene.
Variable updateSun : Scene -> Scene.
Variable Math_atan2 : num -> num -> num.

Import BoidSimulation.

Lemma add_cylinders_scene (rendering : RenderingModes)
  (cylinders : list CylinderDescription.t) :
  forall this : t Scene,
  exists sc,
    fold_left
      (fun this description =>
         set_scene this (addToScene (CylinderMesh description rendering) (scene this)))
      cylinders this
    = set_scene this sc.
Proof.
  induction cylinders as [|c cylinders IH]; intros this; simpl.
  - exists (scene this). now destruct this.
  - destruct (IH (set_scene this
                    (addToScene (CylinderMesh c rendering) (scene this))))
      as [sc Hsc].
    exists sc. rewrite Hsc. reflexivity.
Qed.

(** What a successful [reloadWorld] leaves behind: the world found under
    the selected name in the bounds and in the obstacle rule, no boids,
    and the selection recorded as current. *)
Lemma reloadWorld_ok (this this1 : t Scene) :
  reloadWorld clearScene addToScene updateSun this = ok this1 ->
  exists world,
    WorldTools.getWorldByName (worlds this)
      (BoidSimulationParams.worldName (simParams this)) = ok world
    /\ simParams this1
       = BoidSimulationParams.set_worldDimens (simParams this)
           (World.get3DBoundaries world)
    /\ obstacleAvoidRule this1
       = ObstacleAvoidanceRule.setWorld (obstacleAvoidRule this) world
    /\ boids this1 = []
    /\ nextBoidId this1 = nextBoidId this
    /\ random this1 = random this
    /\ rulesBefore this1 = rulesBefore this
    /\ worlds this1 = worlds this
    /\ currentWorldName this1 = BoidSimulationParams.worldName (simParams this)
    /\ currentRendering this1 = BoidSimulationParams.rendering (simParams this).
Proof.
  unfold reloadWorld, bind.
  destruct (WorldTools.getWorldByName (worlds this)
              (BoidSimulationParams.worldName (simParams this)))
    as [e | world]; [discriminate |].
  intros H. injection H as <-. exists world.
  split; [reflexivity |].
  match goal with
  | |- context [fold_left ?f ?l ?s] =>
      destruct (add_cylinders_scene Photorealistic l s) as [sc ->]
  end.
  destruct (BoidSimulationParams.rendering (simParams this)) eqn:Hr;
    simpl; rewrite ?Hr; repeat split; reflexivity.
Qed.

Lemma reloadWorld_throws (this : t Scene) (e : Error) :
  reloadWorld clearScene addToScene updateSun this = throw e ->
  WorldTools.getWorldByName (worlds this)
    (BoidSimulationParams.worldName (simParams this)) = throw e.
Proof.
  unfold reloadWorld, bind.
  destruct (WorldTools.getWorldByName (worlds this)
              (BoidSimulationParams.worldName (simParams this)))
    as [e' | world]; [| discriminate].
  unfold throw. intros H. injection H as ->. reflexivity.
Qed.

(** The generator gives the boid the id it is asked for. *)
Lemma generateBoidWithRandomPosAndVec_id (id : BoidId)
  (o : BoidGenerator.options) (g : Random.t) :
  BoidState.id (fst (BoidGenerator.generateBoidWithRandomPosAndVec id o g)) = id.
Proof. reflexivity. Qed.

(** One pass through the generation loop appends one boid, made by the
    generator under the next id and from the current random source. *)
Lemma generateBoid_spec (this : t Scene) :
  let this' := generateBoid addToScene this in
  boids this'
  = boids this
      ++ [fst (BoidGenerator.generateBoidWithRandomPosAndVec (nextBoidId this)
                 (generatorOptions (simParams this)) (random this))]
  /\ nextBoidId this' = S (nextBoidId this)
  /\ simParams this' = simParams this
  /\ obstacleAvoidRule this' = obstacleAvoidRule this
  /\ rulesBefore this' = rulesBefore this
  /\ currentWorldName this' = currentWorldName this.
Proof. repeat split; reflexivity. Qed.

Lemma iter_generateBoid_spec (k : nat) (this : t Scene) :
  let this' := Nat.iter k (generateBoid addToScene) this in
  (exists news,
     boids this' = boids this ++ news
     /\ map BoidState.id news = seq (nextBoidId this) k
     /\ Forall (freshly_generated (simParams this)) news)
  /\ nextBoidId this' = (nextBoidId this + k)%nat
  /\ simParams this' = simParams this
  /\ obstacleAvoidRule this' = obstacleAvoidRule this
  /\ rulesBefore this' = rulesBefore this
  /\ currentWorldName this' = currentWorldName this.
Proof.
  induction k as [|k IH].
  - simpl. split; [| repeat split; auto].
    exists []. rewrite app_nil_r. repeat split; constructor.
  - cbv zeta in IH |- *.
    change (Nat.iter (S k) (generateBoid addToScene) this)
      with (generateBoid addToScene (Nat.iter k (generateBoid addToScene) this)).
    destruct IH as ((news & Hb & Hids & Hfresh) & Hnext & Hp & Ho & Hr & Hc).
    pose proof (generateBoid_spec (Nat.iter k (generateBoid addToScene) this))
      as Hg.
    cbv zeta in Hg.
    destruct Hg as (Hb' & Hnext' & Hp' & Ho' & Hr' & Hc').
    split; [| repeat split; congruence || lia].
    eexists (news ++ [_]). split; [| split].
    + rewrite Hb', Hb, <- app_assoc. reflexivity.
    + rewrite map_app, Hids, seq_S. cbn [map].
      rewrite generateBoidWithRandomPosAndVec_id, Hnext. reflexivity.
    + apply Forall_app. split; [assumption |].
      constructor; [| constructor].
      eexists. rewrite generateBoidWithRandomPosAndVec_id, Hp. reflexivity.
Qed.

(** Starting from an empty collection, the reconciliation fills it with
    boids that all come out of the generator, under consecutive new ids. *)
Lemma updateBoidCount_from_empty (this : t Scene) :
  boids this = [] ->
  let count := Z.to_nat (BoidSimulationParams.boidCount (simParams this)) in
  let this' := updateBoidCount addToScene removeFromScene this in
  map BoidState.id (boids this') = seq (nextBoidId this) count
  /\ Forall (freshly_generated (simParams this)) (boids this')
  /\ simParams this' = simParams this
  /\ obstacleAvoidRule this' = obstacleAvoidRule this
  /\ rulesBefore this' = rulesBefore this
  /\ currentWorldName this' = currentWorldName this.
Proof.
  intros Hnil count this'. subst count this'. unfold updateBoidCount.
  rewrite Hnil. simpl List.length. change (Z.of_nat 0) with 0%Z.
  destruct (Z.eqb_spec (BoidSimulationParams.boidCount (simParams this)) 0)
    as [Hzero | Hnonzero].
  - rewrite Hzero, Hnil. simpl. repeat split; constructor.
  - rewrite Z.sub_0_r.
    destruct (Z_lt_dec 0 (BoidSimulationParams.boidCount (simParams this)))
      as [Hpos | Hneg].
    + rewrite (generateLoop_iter Scene addToScene
                 (Z.to_nat (BoidSimulationParams.boidCount (simParams this))))
        by lia.
      simp removeLoop. simpl.
      pose proof (iter_generateBoid_spec
                    (Z.to_nat (BoidSimulationParams.boidCount (simParams this)))
                    this) as Hiter.
      cbv zeta in Hiter.
      destruct Hiter as ((news & Hb & Hids & Hfresh) & _ & Hp & Ho & Hr & Hc).
      rewrite Hb, Hnil. simpl. repeat split; assumption.
    + rewrite generateLoop_nonpositive by lia.
      pose proof (removeLoop_spec Scene removeFromScene
                    (Z.to_nat (- BoidSimulationParams.boidCount (simParams this)))
                    (BoidSimulationParams.boidCount (simParams this))
                    this eq_refl) as Hspec.
      cbv zeta in Hspec.
      destruct (removeLoop removeFromScene
                  (BoidSimulationParams.boidCount (simParams this)) this)
        as [d this'].
      simpl in Hspec.
      destruct Hspec as (Hb & _ & Hp & _ & Ho & Hr & _ & Hc & _).
      rewrite Hb, Hnil, firstn_nil.
      replace (Z.to_nat (BoidSimulationParams.boidCount (simParams this)))
        with 0%nat by lia.
      simpl. repeat split; (assumption || constructor).
Qed.

(** The per-boid update leaves the parameters, the obstacle rule and the
    rule list alone. *)
Lemma updateBoid_preserves (this : t Scene) (i : nat) :
  let this' := updateBoid Math_atan2 this i in
  simParams this' = simParams this
  /\ obstacleAvoidRule this' = obstacleAvoidRule this
  /\ rulesBefore this' = rulesBefore this
  /\ currentWorldName this' = currentWorldName this.
Proof.
  unfold updateBoid.
  destruct (nth_error (boids this) i) as [boid |]; [| repeat split].
  destruct (Boid.updateAndMove _ _ _ _ _) as [boid' g].
  repeat split.
Qed.

Lemma updateBoid_prefix_preserves (indices : list nat) :
  forall this : t Scene,
    let this' := fold_left (updateBoid Math_atan2) indices this in
    simParams this' = simParams this
    /\ obstacleAvoidRule this' = obstacleAvoidRule this
    /\ rulesBefore this' = rulesBefore this
    /\ currentWorldName this' = currentWorldName this.
Proof.
  induction indices as [|i indices IH]; intros this; simpl.
  - repeat split.
  - specialize (IH (updateBoid Math_atan2 this i)). cbv zeta in IH.
    destruct IH as (Hp & Ho & Hr & Hc).
    destruct (updateBoid_preserves this i) as (Hp' & Ho' & Hr' & Hc').
    repeat split; congruence.
Qed.

(** C7. When the selected world differs from the current one, [update]
    reloads before anything else.  If the name is unknown the tick stops
    there, with the error, and updates no agent.  Otherwise the world
    found under the name supplies the bounds, the obstacle list and the
    world reference of the obstacle rule alike, and this holds in the state
    that every agent update of the tick starts from. *)
Theorem world_switch_is_atomic (this : t Scene) :
  currentWorldName this <> BoidSimulationParams.worldName (simParams this) ->
  (forall e,
     reloadWorld clearScene addToScene updateSun this = throw e ->
     update clearScene addToScene removeFromScene updateSun Math_atan2 this
     = throw e)
  /\ (forall this1,
        reloadWorld clearScene addToScene updateSun this = ok this1 ->
        exists world,
          WorldTools.getWorldByName (worlds this)
            (BoidSimulationParams.worldName (simParams this)) = ok world
          /\ update clearScene addToScene removeFromScene updateSun Math_atan2 this
             = ok (updateBoids Math_atan2
                     (updateBoidCount addToScene removeFromScene this1))
          /\ forall k,
               let thisk :=
                 fold_left (updateBoid Math_atan2) (seq 0 k)
                   (updateBoidCount addToScene removeFromScene this1) in
               BoidSimulationParams.worldDimens (simParams thisk)
               = World.get3DBoundaries world
               /\ ObstacleAvoidanceRule.world (obstacleAvoidRule thisk) = world
               /\ Obstacles.cylinders
                    (World.obstacles
                       (ObstacleAvoidanceRule.world (obstacleAvoidRule thisk)))
                  = Obstacles.cylinders (World.obstacles world)
               /\ rules thisk
                  = rulesBefore this
                      ++ [Rule.pack ObstacleAvoidanceRule.t
                            ObstacleAvoidanceRule.impl
                            (ObstacleAvoidanceRule.setWorld
                               (obstacleAvoidRule this) world)]
               /\ currentWorldName thisk
                  = BoidSimulationParams.worldName (simParams this)).
Proof.
  intros Hchanged.
  assert (Hneeds : needsReload this = true).
  { unfold needsReload.
    destruct (String.eqb_spec (currentWorldName this)
                (BoidSimulationParams.worldName (simParams this)));
      [contradiction | reflexivity]. }
  split.
  - intros e He. unfold update. rewrite Hneeds, He. reflexivity.
  - intros this1 Hreload.
    destruct (reloadWorld_ok this this1 Hreload)
      as (world & Hworld & Hp & Ho & Hnil & _ & _ & Hr & _ & Hc & _).
    exists world. split; [assumption |].
    split. { unfold update. rewrite Hneeds, Hreload. reflexivity. }
    intros k thisk.
    pose proof (updateBoidCount_from_empty this1 Hnil) as Hfill.
    cbv zeta in Hfill. destruct Hfill as (_ & _ & Hp2 & Ho2 & Hr2 & Hc2).
    pose proof (updateBoid_prefix_preserves (seq 0 k)
                  (updateBoidCount addToScene removeFromScene this1)) as Hk.
    cbv zeta in Hk. fold thisk in Hk. destruct Hk as (Hpk & Hok & Hrk & Hck).
    assert (Hrule : obstacleAvoidRule thisk
                    = ObstacleAvoidanceRule.setWorld (obstacleAvoidRule this) world)
      by congruence.
    split. { rewrite Hpk, Hp2, Hp. reflexivity. }
    split. { rewrite Hrule. reflexivity. }
    split. { rewrite Hrule. reflexivity. }
    split. { unfold rules. rewrite Hrule, Hrk, Hr2, Hr. reflexivity. }
    congruence.
Qed.

End WorldSwitchFacts.

(** ** Numbers and vectors on finite values *)

Lemma Rltb_true (a b : R) : Num.Rltb a b = true <-> a < b.
Proof.
  unfold Num.Rltb. destruct (Rlt_dec a b); split; intros; auto; discriminate.
Qed.

Lemma Rltb_false (a b : R) : Num.Rltb a b = false <-> b <= a.
Proof.
  unfold Num.Rltb. destruct (Rlt_dec a b); split; intros; auto; try discriminate; lra.
Qed.

Lemma Reqb_true (a b : R) : Num.Reqb a b = true <-> a = b.
Proof.
  unfold Num.Reqb. destruct (Req_dec_T a b); split; intros; auto; discriminate.
Qed.

Lemma Reqb_false (a b : R) : Num.Reqb a b = false <-> a <> b.
Proof.
  unfold Num.Reqb. destruct (Req_dec_T a b); split; intros; auto;
    try discriminate; contradiction.
Qed.

Lemma Math_sqrt_fin (r : R) : 0 <= r -> Num.Math_sqrt (Fin r) = Fin (sqrt r).
Proof.
  intros Hr. unfold Num.Math_sqrt.
  destruct (Num.Rltb r 0) eqn:H; [apply Rltb_true in H; lra | reflexivity].
Qed.

Lemma sum_squares_nonneg (a b c : R) : 0 <= a * a + b * b + c * c.
Proof. nra. Qed.

Lemma length_fin (a b c : R) :
  Vector3.length (Vector3.fin a b c) = Fin (sqrt (a * a + b * b + c * c)).
Proof.
  unfold Vector3.length. simpl. apply Math_sqrt_fin, sum_squares_nonneg.
Qed.

Lemma distanceTo_fin (a b c a' b' c' : R) :
  Vector3.distanceTo (Vector3.fin a b c) (Vector3.fin a' b' c')
  = Fin (euclidean_distance (a, b, c) (a', b', c')).
Proof.
  unfold Vector3.distanceTo, Vector3.distanceToSquared, euclidean_distance,
    Vector3.fin.
  cbn [Vector3.x Vector3.y Vector3.z Num.sub Num.neg Num.add Num.mul].
  rewrite Math_sqrt_fin by apply sum_squares_nonneg.
  reflexivity.
Qed.

Lemma euclidean_distance_sym (p q : R * R * R) :
  euclidean_distance p q = euclidean_distance q p.
Proof.
  destruct p as [[a b] c], q as [[a' b'] c']. unfold euclidean_distance.
  f_equal. unfold Rsqr. ring.
Qed.

(** ** The neighbour query *)

Section NeighbourFacts.

Variable Scene : Type.

Import BoidSimulation.

Lemma neighboursLoop_In (boid : nat) (thisBoid : BoidState.t) (thr : num)
  (others : list BoidState.t) :
  forall (k r : nat),
    In r (neighboursLoop boid thisBoid thr k others)
    <-> r <> boid
        /\ (k <= r)%nat
        /\ exists other,
             nth_error others (r - k) = Some other
             /\ Boid.isOtherBoidVisible thisBoid other thr = true.
Proof.
  induction others as [|otherBoid others IH]; intros k r; simpl.
  - split; [intros [] |].
    intros (_ & _ & other & Hnth & _).
    destruct (r - k)%nat; discriminate.
  - assert (Hrest :
      In r (neighboursLoop boid thisBoid thr (S k) others)
      <-> r <> boid /\ (k < r)%nat
          /\ exists other,
               nth_error (otherBoid :: others) (r - k) = Some other
               /\ Boid.isOtherBoidVisible thisBoid other thr = true).
    { rewrite IH. split.
      - intros (Hne & Hle & other & Hnth & Hvis).
        repeat split; [assumption | lia |].
        exists other. split; [| assumption].
        replace (r - k)%nat with (S (r - S k)) by lia. assumption.
      - intros (Hne & Hlt & other & Hnth & Hvis).
        repeat split; [assumption | lia |].
        exists other. split; [| assumption].
        replace (r - k)%nat with (S (r - S k)) in Hnth by lia. assumption. }
    destruct (Nat.eqb_spec k boid) as [Hk | Hk].
    + rewrite Hrest. split.
      * intros (Hne & Hlt & Hex). repeat split; [assumption | lia | assumption].
      * intros (Hne & Hle & Hex). repeat split; [assumption | lia | assumption].
    + destruct (Boid.isOtherBoidVisible thisBoid otherBoid thr) eqn:Hvis.
      * simpl. rewrite Hrest. split.
        -- intros [<- | (Hne & Hlt & Hex)].
           ++ repeat split; [assumption | lia |].
              exists otherBoid. rewrite Nat.sub_diag. split; [reflexivity | assumption].
           ++ repeat split; [assumption | lia | assumption].
        -- intros (Hne & Hle & Hex).
           destruct (Nat.eq_dec k r) as [-> | Hkr]; [now left | right].
           repeat split; [assumption | lia | assumption].
      * rewrite Hrest. split.
        -- intros (Hne & Hlt & Hex). repeat split; [assumption | lia | assumption].
        -- intros (Hne & Hle & other & Hnth & Hvis').
           repeat split; [assumption | | exists other; split; assumption].
           destruct (Nat.eq_dec k r) as [-> | Hkr]; [| lia].
           rewrite Nat.sub_diag in Hnth. simpl in Hnth. injection Hnth as <-.
           congruence.
Qed.

(** The neighbours of a boid are the other boids of the collection that
    it sees. *)
Lemma getBoidNeighbours_In (this : t Scene) (a b : nat) (A B : BoidState.t) :
  nth_error (boids this) a = Some A ->
  nth_error (boids this) b = Some B ->
  In b (getBoidNeighbours this a)
  <-> b <> a
      /\ Boid.isOtherBoidVisible A B
           (BoidSimulationParams.visibilityThreshold (simParams this)) = true.
Proof.
  intros HA HB. unfold getBoidNeighbours. rewrite HA, neighboursLoop_In.
  rewrite Nat.sub_0_r. split.
  - intros (Hne & _ & other & Hnth & Hvis).
    rewrite HB in Hnth. injection Hnth as <-. split; assumption.
  - intros (Hne & Hvis). repeat split; [assumption | lia |].
    exists B. split; assumption.
Qed.

End NeighbourFacts.

(** ** The per-tick update of a boid *)

Section TickFacts.

Variable Math_atan2 : num -> num -> num.

Import BoidState.

Lemma capSpeed_keeps (this : BoidState.t) (maxSpeed : num) :
  id (Boid.capSpeed this maxSpeed) = id this
  /\ position (Boid.capSpeed this maxSpeed) = position this
  /\ rotation (Boid.capSpeed this maxSpeed) = rotation this
  /\ randomBias (Boid.capSpeed this maxSpeed) = randomBias this.
Proof.
  unfold Boid.capSpeed.
  destruct (Vector3.length (velocity this) >? maxSpeed)%num; repeat split.
Qed.

Lemma applyRules_keeps (rules : list Rule.t) (args : RuleArguments.t) :
  forall this : BoidState.t,
    id (Boid.applyRules this rules args) = id this
    /\ position (Boid.applyRules this rules args) = position this
    /\ rotation (Boid.applyRules this rules args) = rotation this
    /\ randomBias (Boid.applyRules this rules args) = randomBias this.
Proof.
  unfold Boid.applyRules.
  induction rules as [|rule rules IH]; intros this; simpl.
  - repeat split.
  - match goal with
    | |- context [fold_left _ _ ?b] => destruct (IH b) as (H1 & H2 & H3 & H4)
    end.
    repeat split; assumption.
Qed.

Lemma updateRandomBias_keeps (this : BoidState.t) (rpt limit : num) (g : Random.t) :
  let this' := fst (Boid.updateRandomBias this rpt limit g) in
  id this' = id this
  /\ position this' = position this
  /\ rotation this' = rotation this
  /\ velocity this' = velocity this.
Proof.
  unfold Boid.updateRandomBias. simpl.
  match goal with |- context [if ?c then _ else _] => destruct c end;
    repeat split.
Qed.

(** The new bias is a function of the old bias alone. *)
Lemma updateRandomBias_bias_only (this other : BoidState.t) (rpt limit : num)
  (g : Random.t) :
  randomBias this = randomBias other ->
  randomBias (fst (Boid.updateRandomBias this rpt limit g))
  = randomBias (fst (Boid.updateRandomBias other rpt limit g)).
Proof.
  intros Hbias. unfold Boid.updateRandomBias.
  cbn [Random.Math_random fst snd set_randomBias randomBias].
  rewrite Hbias.
  match goal with |- context [if ?c then _ else _] => destruct c end;
    reflexivity.
Qed.

Lemma addRandomnessToVelocity_spec (this : BoidState.t)
  (args : RuleArguments.t) (g : Random.t) :
  let this' := fst (Boid.addRandomnessToVelocity this args g) in
  velocity this' = Vector3.add (velocity this) (randomBias this')
  /\ randomBias this'
     = randomBias
         (fst (Boid.updateRandomBias this
                 (BoidSimulationParams.randomnessPerTimestep
                    (RuleArguments.simParams args))
                 (BoidSimulationParams.randomnessLimit
                    (RuleArguments.simParams args))
                 g))
  /\ id this' = id this
  /\ position this' = position this
  /\ rotation this' = rotation this.
Proof.
  unfold Boid.addRandomnessToVelocity.
  pose proof (updateRandomBias_keeps this
                (BoidSimulationParams.randomnessPerTimestep
                   (RuleArguments.simParams args))
                (BoidSimulationParams.randomnessLimit
                   (RuleArguments.simParams args)) g) as Hkeeps.
  cbv zeta in Hkeeps.
  destruct (Boid.updateRandomBias this _ _ g) as [this1 g1].
  cbn [fst] in *. destruct Hkeeps as (Hid & Hpos & Hrot & Hvel).
  cbn. rewrite Hvel. repeat split; assumption.
Qed.

Lemma move_spec (this : BoidState.t) :
  velocity (Boid.move Math_atan2 this) = velocity this
  /\ randomBias (Boid.move Math_atan2 this) = randomBias this
  /\ id (Boid.move Math_atan2 this) = id this
  /\ position (Boid.move Math_atan2 this)
     = Vector3.add (position this) (velocity this)
  /\ forall other,
       rotation (Boid.move Math_atan2 this)
       = rotation (Boid.pointInDirection Math_atan2 other (velocity this)).
Proof. repeat split. Qed.

(** The per-tick update, step by step. *)
Lemma updateAndMove_unfolded (this : BoidState.t) (rules : list Rule.t)
  (args : RuleArguments.t) (g : Random.t) :
  let maxSpeed := BoidSimulationParams.maxSpeed (RuleArguments.simParams args) in
  let this' := fst (Boid.updateAndMove Math_atan2 this rules args g) in
  (forall rule rest,
     rules = rule :: rest ->
     Boid.applyRules this rules args
     = Boid.applyRules
         (set_velocity this
            (Vector3.add (velocity this)
               (Rule.call_calculateVector rule this args)))
         rest args)
  /\ Boid.applyRules this [] args = this
  /\ velocity this'
     = Vector3.add
         (velocity (Boid.capSpeed (Boid.applyRules this rules args) maxSpeed))
         (randomBias this')
  /\ randomBias this'
     = randomBias
         (fst (Boid.updateRandomBias this
                 (BoidSimulationParams.randomnessPerTimestep
                    (RuleArguments.simParams args))
                 (BoidSimulationParams.randomnessLimit
                    (RuleArguments.simParams args))
                 g))
  /\ position this' = Vector3.add (position this) (velocity this')
  /\ (forall other,
        rotation this'
        = rotation (Boid.pointInDirection Math_atan2 other (velocity this')))
  /\ id this' = id this.
Proof.
  intros maxSpeed this'. subst this'.
  unfold Boid.updateAndMove.
  fold maxSpeed.
  destruct (applyRules_keeps rules args this) as (Hid & Hpos & Hrot & Hbias).
  destruct (capSpeed_keeps (Boid.applyRules this rules args) maxSpeed)
    as (Hid' & Hpos' & Hrot' & Hbias').
  pose proof (addRandomnessToVelocity_spec
                (Boid.capSpeed (Boid.applyRules this rules args) maxSpeed)
                args g) as Hrandom.
  cbv zeta in Hrandom.
  destruct (Boid.addRandomnessToVelocity _ args g) as [this3 g3].
  cbn [fst] in *.
  destruct Hrandom as (Hvel3 & Hbias3 & Hid3 & Hpos3 & Hrot3).
  destruct (move_spec this3) as (Hvel4 & Hbias4 & Hid4 & Hpos4 & Hrot4).
  split; [intros rule rest ->; reflexivity |].
  split; [reflexivity |].
  split; [now rewrite Hvel4, Hbias4 |].
  split.
  { rewrite Hbias4, Hbias3.
    apply updateRandomBias_bias_only. now rewrite Hbias', Hbias. }
  split; [rewrite Hpos4, Hvel4, Hpos3, Hpos', Hpos; reflexivity |].
  split; [intros other; rewrite Hvel4; apply Hrot4 |].
  now rewrite Hid4, Hid3, Hid', Hid.
Qed.

End TickFacts.

(** ** Arithmetic of finite vectors *)

Lemma div_fin (a b : R) : b <> 0 -> (Fin a / Fin b)%num = Fin (a / b).
Proof.
  intros Hb. unfold Num.div.
  destruct (Num.Reqb b 0) eqn:H; [apply Reqb_true in H; contradiction | reflexivity].
Qed.

Lemma or_else_fin (a : R) (b : num) : a <> 0 -> Num.or_else (Fin a) b = Fin a.
Proof.
  intros Ha. unfold Num.or_else.
  destruct (Num.Reqb a 0) eqn:H; [apply Reqb_true in H; contradiction | reflexivity].
Qed.

Lemma divideScalar_fin (a b c k : R) :
  k <> 0 ->
  Vector3.divideScalar (Vector3.fin a b c) (Fin k)
  = Vector3.fin (a * (1 / k)) (b * (1 / k)) (c * (1 / k)).
Proof.
  intros Hk. unfold Vector3.divideScalar. rewrite div_fin by assumption.
  reflexivity.
Qed.

Lemma norm3_nonneg (a b c : R) : 0 <= norm3 a b c.
Proof. apply sqrt_pos. Qed.





Lemma setLength_fin (a b c l : R) :
  norm3 a b c <> 0 ->
  Vector3.setLength (Vector3.fin a b c) (Fin l)
  = Vector3.fin (a * (1 / norm3 a b c) * l)
                (b * (1 / norm3 a b c) * l)
                (c * (1 / norm3 a b c) * l).
Proof.
  intros Hn. unfold Vector3.setLength, Vector3.normalize.
  rewrite length_fin. fold (norm3 a b c).
  rewrite or_else_fin, divideScalar_fin by assumption.
  reflexivity.
Qed.


(** ** A tick of the sample boid *)




(** ** Obstacle avoidance *)


Lemma norm3_planar (cx cz px py pz : R) :
  norm3 (px + - cx) (py + - py) (pz + - cz) = planar_distance cx cz px pz.
Proof.
  unfold norm3, planar_distance, Rsqr. f_equal. ring.
Qed.


Section ObstacleFacts.

Import ObstacleAvoidanceRule.

Variable this : ObstacleAvoidanceRule.t.
Variables S W cx cz r : R.
Variable cylinder : CylinderDescription.t.

Hypothesis HS : SHARPNESS this = Fin S.
Hypothesis HS0 : 0 < S.
Hypothesis HW : Rule.weight (fields this) = Fin W.
Hypothesis Hcylinder :
  cylinder = CylinderDescription.mk (BasePoint.mk (Fin cx) (Fin cz)) (Fin r).
Hypothesis Hworld : Obstacles.cylinders (World.obstacles (world this)) = [cylinder].




End ObstacleFacts.

Lemma planar_distance_x (a : R) : 0 <= a -> planar_distance 0 0 a 0 = a.
Proof.
  intros Ha. unfold planar_distance, Rsqr.
  replace ((a - 0) * (a - 0) + (0 - 0) * (0 - 0)) with (a * a) by ring.
  now apply sqrt_square.
Qed.



(** ** Separation and cohesion in the degenerate cases *)

Lemma is_finite_add_inv (a b : num) :
  Num.is_finite (a + b)%num = true ->
  Num.is_finite a = true /\ Num.is_finite b = true.
Proof. destruct a, b; simpl; auto. Qed.

Lemma not_finite_add_l (a b : num) :
  Num.is_finite a = false -> Num.is_finite (a + b)%num = false.
Proof. destruct a, b; simpl; auto. Qed.

Lemma not_finite_sub_l (a b : num) :
  Num.is_finite a = false -> Num.is_finite (a - b)%num = false.
Proof. intros H. unfold Num.sub. now apply not_finite_add_l. Qed.

Lemma not_finite_inf_times (pos : bool) (r : R) :
  Num.is_finite (Num.inf_times pos r) = false.
Proof.
  unfold Num.inf_times.
  destruct (Num.Reqb r 0); [reflexivity |].
  destruct (Bool.eqb pos (Num.Rltb 0 r)); reflexivity.
Qed.

Lemma not_finite_mul_l (a b : num) :
  Num.is_finite a = false -> Num.is_finite (a * b)%num = false.
Proof.
  destruct a, b; simpl; auto using not_finite_inf_times; discriminate.
Qed.

Lemma one_div_zero : (Fin 1 / Fin 0)%num = PInf.
Proof.
  unfold Num.div, Num.inf_times.
  replace (Num.Reqb 0 0) with true by (symmetry; now apply Reqb_true).
  replace (Num.Reqb 1 0) with false by (symmetry; apply Reqb_false; lra).
  replace (Num.Rltb 0 1) with true by (symmetry; apply Rltb_true; lra).
  reflexivity.
Qed.

Lemma is_zero_zero : Num.is_zero (Fin 0) = true.
Proof. simpl. now apply Reqb_true. Qed.

(** A finite sum has finite summands only. *)
Lemma fold_add_finite (weights : list num) :
  forall (acc : num) (r : R),
    fold_left Num.add weights acc = Fin r ->
    Num.is_finite acc = true
    /\ Forall (fun w => Num.is_finite w = true) weights.
Proof.
  induction weights as [|w weights IH]; intros acc r Hsum; simpl in Hsum.
  - rewrite Hsum. split; [reflexivity | constructor].
  - destruct (IH _ _ Hsum) as [Hacc Hrest].
    apply is_finite_add_inv in Hacc as [Hacc Hw].
    split; [assumption | now constructor].
Qed.

Lemma addScaledVector_finite (c v : Vector3.t) (w : num) :
  Vector3.is_finite c = true -> Vector3.is_finite v = true ->
  Num.is_finite w = true ->
  Vector3.is_finite (Vector3.addScaledVector c v w) = true.
Proof.
  assert (Hnum : forall a b k : num,
            Num.is_finite a = true -> Num.is_finite b = true ->
            Num.is_finite k = true ->
            Num.is_finite (a + b * k)%num = true).
  { intros a b k. destruct a, b, k; simpl; intros; trivial; discriminate. }
  unfold Vector3.is_finite, Vector3.addScaledVector.
  cbn [Vector3.x Vector3.y Vector3.z].
  rewrite !andb_true_iff.
  intros [[Hcx Hcy] Hcz] [[Hvx Hvy] Hvz] Hw.
  repeat split; now apply Hnum.
Qed.

(** The loop of a neighbour rule: the sum it accumulates is the weight
    sum, and the vector it accumulates is finite when the vectors and the
    weights that go into it are. *)
Lemma neighbour_loop (vec : BoidState.t -> Vector3.t) (weight : BoidState.t -> num)
  (neighbours : list BoidState.t) :
  forall (acc : Vector3.t) (sum : num),
    let result :=
      fold_left
        (fun '(acc, sum) neighbour =>
           (Vector3.addScaledVector acc (vec neighbour) (weight neighbour),
            (sum + weight neighbour)%num))
        neighbours (acc, sum) in
    snd result = fold_left Num.add (map weight neighbours) sum
    /\ (Vector3.is_finite acc = true ->
        Forall (fun n => Vector3.is_finite (vec n) = true) neighbours ->
        Forall (fun w => Num.is_finite w = true) (map weight neighbours) ->
        Vector3.is_finite (fst result) = true).
Proof.
  induction neighbours as [|n neighbours IH]; intros acc sum; simpl.
  - split; auto.
  - specialize (IH (Vector3.addScaledVector acc (vec n) (weight n))
                   (sum + weight n)%num).
    cbv zeta in IH. destruct IH as [Hsum Hfin].
    split; [exact Hsum |].
    intros Hacc Hvecs Hweights.
    inversion Hvecs; subst. inversion Hweights; subst.
    apply Hfin; try assumption.
    now apply addScaledVector_finite.
Qed.

Lemma nowhere_finite_multiplyScalar (v : Vector3.t) (k : num) :
  nowhere_finite v -> nowhere_finite (Vector3.multiplyScalar v k).
Proof.
  intros (Hx & Hy & Hz). repeat split; cbn; now apply not_finite_mul_l.
Qed.

Lemma nowhere_finite_divideScalar (v : Vector3.t) (k : num) :
  nowhere_finite v -> nowhere_finite (Vector3.divideScalar v k).
Proof. apply nowhere_finite_multiplyScalar. Qed.

Lemma nowhere_finite_normalize (v : Vector3.t) :
  nowhere_finite v -> nowhere_finite (Vector3.normalize v).
Proof. apply nowhere_finite_divideScalar. Qed.

Lemma nowhere_finite_sub (v u : Vector3.t) :
  nowhere_finite v -> nowhere_finite (Vector3.sub v u).
Proof.
  intros (Hx & Hy & Hz). repeat split; cbn; now apply not_finite_sub_l.
Qed.

(** Dividing a finite vector by zero leaves no finite component. *)
Lemma nowhere_finite_divide_by_zero (v : Vector3.t) :
  Vector3.is_finite v = true ->
  nowhere_finite (Vector3.divideScalar v (Fin 0)).
Proof.
  unfold Vector3.is_finite, Vector3.divideScalar. rewrite one_div_zero.
  destruct v as [[a | | |] [b | | |] [c | | |]]; simpl; try discriminate.
  intros _. repeat split; apply not_finite_inf_times.
Qed.

Lemma nowhere_finite_not_zero (v : Vector3.t) :
  nowhere_finite v -> v <> Vector3.zero.
Proof. intros (Hx & _) ->. discriminate. Qed.

Section NeighbourRuleFacts.

Variable toOther :
  BoidState.t -> BoidState.t -> option BoidSimulationParams.t -> Vector3.t.

Lemma SeparationRule_no_neighbours (this : SeparationRule)
  (thisBoid : BoidState.t) (args : RuleArguments.t) :
  RuleArguments.neighbours args = [] ->
  SeparationRule_calculateVector toOther this thisBoid args = Vector3.zero.
Proof.
  intros Hnil. unfold SeparationRule_calculateVector. now rewrite Hnil.
Qed.

Lemma CohesionRule_no_neighbours (this : CohesionRule)
  (thisBoid : BoidState.t) (args : RuleArguments.t) :
  RuleArguments.neighbours args = [] ->
  CohesionRule_calculateVector toOther this thisBoid args = Vector3.zero.
Proof.
  intros Hnil. unfold CohesionRule_calculateVector. now rewrite Hnil.
Qed.

(** SeparationRule tests the weight sum before it divides by it. *)
Lemma SeparationRule_zero_weight_sum (this : SeparationRule)
  (thisBoid : BoidState.t) (args : RuleArguments.t) :
  weightSum (separation_weights toOther thisBoid args) = Fin 0 ->
  SeparationRule_calculateVector toOther this thisBoid args = Vector3.zero.
Proof.
  intros Hsum. unfold SeparationRule_calculateVector.
  destruct (Nat.eqb _ 0); [reflexivity |].
  pose proof (neighbour_loop
                (fun n => toOther thisBoid n (Some (RuleArguments.simParams args)))
                (fun n =>
                   Dropoff.fn
                     (BoidSimulationParams.dropoffRule
                        (RuleArguments.simParams args))
                     (Vector3.length
                        (toOther thisBoid n
                           (Some (RuleArguments.simParams args)))))
                (RuleArguments.neighbours args) Vector3.zero (Fin 0))
    as [Hloop _].
  cbv beta zeta in Hloop |- *.
  destruct (fold_left _ (RuleArguments.neighbours args) (Vector3.zero, Fin 0))
    as [separation sum].
  cbn [snd] in Hloop. unfold weightSum, separation_weights in Hsum.
  rewrite Hloop, Hsum, is_zero_zero. reflexivity.
Qed.

(** CohesionRule does not: with a weight sum of zero it divides the
    accumulated centre by zero, and no component of the force it returns
    is a finite number. *)
Lemma CohesionRule_zero_weight_sum (this : CohesionRule)
  (thisBoid : BoidState.t) (args : RuleArguments.t) :
  RuleArguments.neighbours args <> [] ->
  weightSum (cohesion_weights toOther thisBoid args) = Fin 0 ->
  Vector3.is_finite (BoidState.position thisBoid) = true ->
  Forall (fun n => Vector3.is_finite (BoidState.position n) = true)
    (RuleArguments.neighbours args) ->
  nowhere_finite (CohesionRule_calculateVector toOther this thisBoid args).
Proof.
  intros Hsome Hsum Hthis Hneighbours. unfold CohesionRule_calculateVector.
  destruct (RuleArguments.neighbours args) as [|n neighbours] eqn:Hl;
    [contradiction |].
  cbn [List.length Nat.eqb]. rewrite <- Hl in *. clear Hl Hsome n neighbours.
  pose proof (neighbour_loop BoidState.position
                (fun n =>
                   Dropoff.fn (RuleArguments.dropoff args)
                     (Vector3.length (toOther thisBoid n None)))
                (RuleArguments.neighbours args) Vector3.zero (Fin 0))
    as [Hloop Hfinite].
  cbv beta zeta in Hloop, Hfinite |- *.
  unfold weightSum, cohesion_weights in Hsum.
  destruct (fold_left _ (RuleArguments.neighbours args) (Vector3.zero, Fin 0))
    as [centre sum].
  cbn [fst snd] in Hloop, Hfinite.
  rewrite Hloop, Hsum.
  apply nowhere_finite_multiplyScalar, nowhere_finite_normalize,
    nowhere_finite_sub, nowhere_finite_divide_by_zero.
  apply Hfinite; [reflexivity | assumption |].
  apply (fold_add_finite _ _ _ Hsum).
Qed.

(** C4. With no neighbours, SeparationRule and CohesionRule both return
    the zero vector.  With neighbours whose dropoff weights sum to zero,
    SeparationRule returns the zero vector, but CohesionRule divides by
    the sum: for finite positions, no component of its force is a finite
    number, and the force is not the zero vector. *)
Theorem zero_weight_sum_Separation_zero_Cohesion_not_finite
  (separation : SeparationRule) (cohesion : CohesionRule)
  (thisBoid : BoidState.t) (args : RuleArguments.t) :
  (RuleArguments.neighbours args = [] ->
   SeparationRule_calculateVector toOther separation thisBoid args = Vector3.zero
   /\ CohesionRule_calculateVector toOther cohesion thisBoid args = Vector3.zero)
  /\ (weightSum (separation_weights toOther thisBoid args) = Fin 0 ->
      SeparationRule_calculateVector toOther separation thisBoid args
      = Vector3.zero)
  /\ (RuleArguments.neighbours args <> [] ->
      weightSum (cohesion_weights toOther thisBoid args) = Fin 0 ->
      Vector3.is_finite (BoidState.position thisBoid) = true ->
      Forall (fun n => Vector3.is_finite (BoidState.position n) = true)
        (RuleArguments.neighbours args) ->
      nowhere_finite (CohesionRule_calculateVector toOther cohesion thisBoid args)
      /\ CohesionRule_calculateVector toOther cohesion thisBoid args
         <> Vector3.zero).
Proof.
  split; [| split].
  - intros Hnil. split.
    + now apply SeparationRule_no_neighbours.
    + now apply CohesionRule_no_neighbours.
  - apply SeparationRule_zero_weight_sum.
  - intros Hsome Hsum Hthis Hneighbours.
    pose proof (CohesionRule_zero_weight_sum cohesion thisBoid args
                  Hsome Hsum Hthis Hneighbours) as Hnan.
    split; [assumption | now apply nowhere_finite_not_zero].
Qed.

End NeighbourRuleFacts.

(** The failing input of C4: one neighbour, of dropoff weight zero. *)
Lemma zero_weight_sum_Separation_zero_Cohesion_not_finite_witness :
  (RuleArguments.neighbours zero_weight_args <> []
   /\ weightSum (cohesion_weights sample_toOther (boid_at 0 0 0) zero_weight_args)
      = Fin 0
   /\ Vector3.is_finite (BoidState.position (boid_at 0 0 0)) = true
   /\ Forall (fun n => Vector3.is_finite (BoidState.position n) = true)
        (RuleArguments.neighbours zero_weight_args))
  /\ nowhere_finite
       (CohesionRule_calculateVector sample_toOther (CohesionRule_new (Fin 1))
          (boid_at 0 0 0) zero_weight_args)
  /\ CohesionRule_calculateVector sample_toOther (CohesionRule_new (Fin 1))
       (boid_at 0 0 0) zero_weight_args
     <> Vector3.zero.
Proof.
  assert (Hsome : RuleArguments.neighbours zero_weight_args <> [])
    by discriminate.
  assert (Hsum :
    weightSum (cohesion_weights sample_toOther (boid_at 0 0 0) zero_weight_args)
    = Fin 0).
  { unfold weightSum, cohesion_weights. cbn. f_equal. apply Rplus_0_l. }
  assert (Hthis : Vector3.is_finite (BoidState.position (boid_at 0 0 0)) = true)
    by reflexivity.
  assert (Hneighbours :
    Forall (fun n => Vector3.is_finite (BoidState.position n) = true)
      (RuleArguments.neighbours zero_weight_args))
    by (repeat constructor).
  split; [repeat split; assumption |].
  exact (proj2 (proj2
    (zero_weight_sum_Separation_zero_Cohesion_not_finite sample_toOther
       (SeparationRule_new (Fin 1)) (CohesionRule_new (Fin 1))
       (boid_at 0 0 0) zero_weight_args))
    Hsome Hsum Hthis Hneighbours).
Defined.

(** ** The ids in use stay below the next id *)

Section IdFacts.

Variable Scene : Type.
Variable clearScene : Scene -> Scene.
Variable addToScene : Mesh -> Scene -> Scene.
Variable removeFromScene : Mesh -> Scene -> Scene.
Variable updateSun : Scene -> Scene.
Variable Math_atan2 : num -> num -> num.

Import BoidSimulation.

Lemma map_id_assign (l : list BoidState.t) :
  forall (i : nat) (b b' : BoidState.t),
    nth_error l i = Some b ->
    BoidState.id b' = BoidState.id b ->
    map BoidState.id (assign l i b') = map BoidState.id l.
Proof.
  induction l as [|a l IH]; intros [|i] b b' Hnth Hid; simpl in *;
    try discriminate.
  - injection Hnth as ->. now rewrite Hid.
  - f_equal. eapply IH; eassumption.
Qed.

Lemma updateBoid_ids (this : t Scene) (i : nat) :
  map BoidState.id (boids (updateBoid Math_atan2 this i))
  = map BoidState.id (boids this)
  /\ nextBoidId (updateBoid Math_atan2 this i) = nextBoidId this.
Proof.
  unfold updateBoid.
  destruct (nth_error (boids this) i) as [boid |] eqn:Hnth; [| split; reflexivity].
  match goal with
  | |- context [Boid.updateAndMove Math_atan2 boid ?rules ?args ?g] =>
      destruct (updateAndMove_unfolded Math_atan2 boid rules args g)
        as (_ & _ & _ & _ & _ & _ & Hid);
      destruct (Boid.updateAndMove Math_atan2 boid rules args g) as [boid' g']
  end.
  cbn [fst] in Hid. split; [| reflexivity].
  cbn [boids set_random set_boids]. eapply map_id_assign; eassumption.
Qed.

Lemma updateBoids_ids (this : t Scene) :
  map BoidState.id (boids (updateBoids Math_atan2 this))
  = map BoidState.id (boids this)
  /\ nextBoidId (updateBoids Math_atan2 this) = nextBoidId this.
Proof.
  unfold updateBoids. generalize (seq 0 (List.length (boids this))).
  intros indices. revert this.
  induction indices as [|i indices IH]; intros this; simpl.
  - split; reflexivity.
  - destruct (IH (updateBoid Math_atan2 this i)) as [Hids Hnext].
    destruct (updateBoid_ids this i) as [Hids' Hnext'].
    split; congruence.
Qed.

Lemma ids_below_next_map (this this' : t Scene) :
  map BoidState.id (boids this') = map BoidState.id (boids this) ->
  nextBoidId this' = nextBoidId this ->
  ids_below_next this -> ids_below_next this'.
Proof.
  unfold ids_below_next. intros Hids Hnext Hinv. rewrite Hnext.
  rewrite Forall_forall in *. intros b Hb.
  apply (in_map BoidState.id) in Hb. rewrite Hids in Hb.
  apply in_map_iff in Hb as (b0 & <- & Hb0). now apply Hinv.
Qed.

Lemma updateBoidCount_ids_below_next (this : t Scene) :
  ids_below_next this ->
  ids_below_next (updateBoidCount addToScene removeFromScene this).
Proof.
  intros Hinv. unfold updateBoidCount.
  destruct (Z.eqb_spec (BoidSimulationParams.boidCount (simParams this))
              (Z.of_nat (List.length (boids this)))) as [_ | Hne];
    [assumption |].
  set (difference := (BoidSimulationParams.boidCount (simParams this)
                      - Z.of_nat (List.length (boids this)))%Z).
  destruct (Z_lt_dec 0 difference) as [Hpos | Hneg].
  - rewrite (generateLoop_iter Scene addToScene (Z.to_nat difference)) by lia.
    simp removeLoop. simpl.
    pose proof (iter_generateBoid_spec Scene addToScene (Z.to_nat difference)
                  this) as Hiter.
    cbv zeta in Hiter.
    destruct Hiter as ((news & Hb & Hids & _) & Hnext & _).
    unfold ids_below_next in *. rewrite Hb, Hnext.
    apply Forall_app. split.
    + eapply Forall_impl; [| exact Hinv]. simpl. intros b Hlt. lia.
    + rewrite Forall_forall. intros b Hb'.
      apply (in_map BoidState.id) in Hb'. rewrite Hids in Hb'.
      apply in_seq in Hb'. lia.
  - rewrite generateLoop_nonpositive by lia.
    pose proof (removeLoop_spec Scene removeFromScene (Z.to_nat (- difference))
                  difference this eq_refl) as Hspec.
    cbv zeta in Hspec.
    destruct (removeLoop removeFromScene difference this) as [d this'].
    simpl in Hspec. destruct Hspec as (Hb & Hnext & _).
    unfold ids_below_next in *. rewrite Hb, Hnext.
    rewrite Forall_forall in *. intros b Hb'.
    apply Hinv.
    rewrite <- (firstn_skipn
                  (List.length (boids this) - Z.to_nat (- difference))
                  (boids this)).
    apply in_or_app. now left.
Qed.

(** A tick keeps the invariant, and so does every tick after it: the ids
    of the live boids are always among those already handed out. *)
Lemma update_ids_below_next (this this' : t Scene) :
  ids_below_next this ->
  update clearScene addToScene removeFromScene updateSun Math_atan2 this
  = ok this' ->
  ids_below_next this'.
Proof.
  intros Hinv. unfold update, bind.
  destruct (needsReload this).
  - destruct (reloadWorld clearScene addToScene updateSun this)
      as [e | this1] eqn:Hreload; [discriminate |].
    intros H. injection H as <-.
    destruct (reloadWorld_ok Scene clearScene addToScene updateSun this this1
                Hreload) as (_ & _ & _ & _ & Hnil & _).
    destruct (updateBoids_ids
                (updateBoidCount addToScene removeFromScene this1))
      as [Hids Hnext].
    apply (ids_below_next_map _ _ Hids Hnext).
    apply updateBoidCount_ids_below_next.
    unfold ids_below_next. rewrite Hnil. constructor.
  - intros H. injection H as <-.
    destruct (updateBoids_ids
                (updateBoidCount addToScene removeFromScene this))
      as [Hids Hnext].
    apply (ids_below_next_map _ _ Hids Hnext).
    now apply updateBoidCount_ids_below_next.
Qed.

End IdFacts.

(** ** The properties at the sample objects *)

Lemma updateBoidCount_removes_from_the_end_witness :
  (List.length (BoidSimulation.boids (sample_simulation 1 "Default")) = 3%nat
   /\ BoidSimulationParams.boidCount
        (BoidSimulation.simParams (sample_simulation 1 "Default")) = 1%Z
   /\ (1 < Z.of_nat 3)%Z)
  /\ BoidSimulation.boids
       (BoidSimulation.updateBoidCount sample_addToScene sample_removeFromScene
          (sample_simulation 1 "Default"))
     = [boid_with_id 0 0 0 0].
Proof.
  split.
  - repeat split; lia.
  - exact (proj1
      (updateBoidCount_removes_from_the_end (list Mesh) sample_addToScene
         sample_removeFromScene (sample_simulation 1 "Default") 3 1
         eq_refl eq_refl ltac:(lia))).
Defined.

Lemma world_switch_is_atomic_witness :
  BoidSimulation.currentWorldName (sample_simulation 3 "Obstacles1")
  <> BoidSimulationParams.worldName
       (BoidSimulation.simParams (sample_simulation 3 "Obstacles1"))
  /\ exists this1,
       BoidSimulation.reloadWorld sample_clearScene sample_addToScene
         sample_updateSun (sample_simulation 3 "Obstacles1") = ok this1
       /\ BoidSimulationParams.worldDimens (BoidSimulation.simParams this1)
          = World.get3DBoundaries sample_world
       /\ exists world,
            WorldTools.getWorldByName
              (BoidSimulation.worlds (sample_simulation 3 "Obstacles1"))
              "Obstacles1" = ok world
            /\ forall k,
                 ObstacleAvoidanceRule.world
                   (BoidSimulation.obstacleAvoidRule
                      (fold_left (BoidSimulation.updateBoid sample_atan2)
                         (seq 0 k)
                         (BoidSimulation.updateBoidCount sample_addToScene
                            sample_removeFromScene this1)))
                 = world.
Proof.
  split; [discriminate |].
  eexists. split; [reflexivity |]. split; [reflexivity |].
  destruct (proj2
    (world_switch_is_atomic (list Mesh) sample_clearScene sample_addToScene
       sample_removeFromScene sample_updateSun sample_atan2
       (sample_simulation 3 "Obstacles1") ltac:(discriminate))
    _ eq_refl) as (world & Hworld & _ & Hk).
  exists world. split; [exact Hworld |].
  intros k. exact (proj1 (proj2 (Hk k))).
Defined.

Lemma getWorldByName_first_or_error_witness :
  ((exists before after,
      [default_world; sample_world] = before ++ sample_world :: after
      /\ World.name sample_world = "Obstacles1"%string
      /\ forall w', In w' before -> World.name w' <> "Obstacles1"%string)
   /\ WorldTools.getWorldByName [default_world; sample_world] "Obstacles1"
      = ok sample_world)
  /\ ((forall w, In w [default_world; sample_world] ->
       World.name w <> "Nowhere"%string)
      /\ WorldTools.getWorldByName [default_world; sample_world] "Nowhere"
         = throw (mkError "World not found.")).
Proof.
  assert (Hfirst :
    exists before after,
      [default_world; sample_world] = before ++ sample_world :: after
      /\ World.name sample_world = "Obstacles1"%string
      /\ forall w', In w' before -> World.name w' <> "Obstacles1"%string).
  { exists [default_world], []. split; [reflexivity | split; [reflexivity |]].
    intros w' [<- | []]. discriminate. }
  assert (Hnone :
    forall w, In w [default_world; sample_world] ->
              World.name w <> "Nowhere"%string).
  { intros w [<- | [<- | []]]; discriminate. }
  split.
  - split; [exact Hfirst |].
    exact (proj2 (proj1 (proj2
      (getWorldByName_first_or_error [default_world; sample_world] "Obstacles1"))
      sample_world) Hfirst).
  - split; [exact Hnone |].
    exact (proj2 (proj1
      (getWorldByName_first_or_error [default_world; sample_world] "Nowhere"))
      Hnone).
Defined.

(** * Further properties of the code *)

(** ** The world registry and the errors of a tick *)

Lemma getNames_acc (worlds : list World.t) :
  forall names : list string,
    fold_left (fun names world => names ++ [World.name world]) worlds names
    = names ++ map World.name worlds.
Proof.
  induction worlds as [|w worlds IH]; intros names; simpl.
  - now rewrite app_nil_r.
  - rewrite IH, <- app_assoc. reflexivity.
Qed.

Lemma getNames_map (worlds : list World.t) :
  WorldTools.getNames worlds = map World.name worlds.
Proof. unfold WorldTools.getNames. now rewrite getNames_acc. Qed.

Lemma getWorldByName_ok_iff_listed (worlds : list World.t) (worldName : string) :
  (exists w, WorldTools.getWorldByName worlds worldName = ok w)
  <-> In worldName (map World.name worlds).
Proof.
  induction worlds as [|world worlds IH]; simpl.
  - split; [intros [w Hw]; discriminate | intros []].
  - destruct (String.eqb_spec (World.name world) worldName) as [Heq | Hne].
    + split; [intros _; now left | intros _; now exists world].
    + rewrite IH. split; [intros H; now right | intros [H | H]; [contradiction | assumption]].
Qed.

Lemma getWorldByName_throw_iff_not_listed (worlds : list World.t)
  (worldName : string) (e : Error) :
  WorldTools.getWorldByName worlds worldName = throw e
  <-> e = mkError "World not found." /\ ~ In worldName (map World.name worlds).
Proof.
  induction worlds as [|world worlds IH]; simpl.
  - split.
    + intros H. injection H as <-. split; [reflexivity | intros []].
    + intros [-> _]. reflexivity.
  - destruct (String.eqb_spec (World.name world) worldName) as [Heq | Hne].
    + split; [discriminate | intros [_ Hnot]; exfalso; apply Hnot; now left].
    + rewrite IH. split.
      * intros [He Hnot]. split; [assumption |].
        intros [H | H]; [contradiction | now apply Hnot].
      * intros [He Hnot]. split; [assumption |].
        intros H. apply Hnot. now right.
Qed.

Lemma getWorldByName_ok_sound (worlds : list World.t) (worldName : string)
  (w : World.t) :
  WorldTools.getWorldByName worlds worldName = ok w ->
  World.name w = worldName /\ In w worlds.
Proof.
  induction worlds as [|world worlds IH]; simpl; [discriminate |].
  destruct (String.eqb_spec (World.name world) worldName) as [Heq | Hne].
  - intros H. injection H as <-. split; [assumption | now left].
  - intros H. destruct (IH H) as [Hn Hin]. split; [assumption | now right].
Qed.

(** X1. The names that [getNames] lists, in the order of the registry, are
    exactly the names that [getWorldByName] finds: a listed name yields a
    world of the registry that has this name, an unlisted name yields the
    error. *)
Theorem getNames_lists_the_names_that_are_found (worlds : list World.t)
  (worldName : string) :
  WorldTools.getNames worlds = map World.name worlds
  /\ (In worldName (WorldTools.getNames worlds)
      <-> exists w,
            WorldTools.getWorldByName worlds worldName = ok w
            /\ World.name w = worldName /\ In w worlds)
  /\ (~ In worldName (WorldTools.getNames worlds)
      <-> WorldTools.getWorldByName worlds worldName
          = throw (mkError "World not found.")).
Proof.
  rewrite getNames_map. split; [reflexivity |]. split.
  - rewrite <- getWorldByName_ok_iff_listed. split.
    + intros [w Hw]. exists w. split; [assumption |].
      now apply (getWorldByName_ok_sound worlds).
    + intros (w & Hw & _). now exists w.
  - rewrite getWorldByName_throw_iff_not_listed. split.
    + intros H. split; [reflexivity | assumption].
    + intros [_ H]. assumption.
Qed.

Section TickErrorFacts.

Variable Scene : Type.
Variable clearScene : Scene -> Scene.
Variable addToScene : Mesh -> Scene -> Scene.
Variable removeFromScene : Mesh -> Scene -> Scene.
Variable updateSun : Scene -> Scene.
Variable Math_atan2 : num -> num -> num.

Import BoidSimulation.

Lemma reloadWorld_ok_or_throw (this : t Scene) :
  (exists this1, reloadWorld clearScene addToScene updateSun this = ok this1)
  \/ reloadWorld clearScene addToScene updateSun this
     = throw (mkError "World not found.").
Proof.
  unfold reloadWorld, bind.
  destruct (WorldTools.getWorldByName (worlds this)
              (BoidSimulationParams.worldName (simParams this)))
    as [e | world] eqn:Hw.
  - right. apply getWorldByName_throw_iff_not_listed in Hw as [-> _].
    reflexivity.
  - left. eexists. reflexivity.
Qed.

(** X2. A tick fails only while reloading the world: [update] throws
    exactly when a reload is due and the selected world name is not in the
    registry, and the error is then "World not found."; a tick that needs
    no reload never throws. *)
Theorem update_throws_iff_world_missing (this : t Scene) :
  (forall e,
     update clearScene addToScene removeFromScene updateSun Math_atan2 this
     = throw e
     <-> e = mkError "World not found."
         /\ needsReload this = true
         /\ ~ In (BoidSimulationParams.worldName (simParams this))
                 (WorldTools.getNames (worlds this)))
  /\ (needsReload this = false ->
      update clearScene addToScene removeFromScene updateSun Math_atan2 this
      = ok (updateBoids Math_atan2
              (updateBoidCount addToScene removeFromScene this))).
Proof.
  split.
  - intros e. rewrite getNames_map. unfold update, bind.
    destruct (needsReload this).
    + unfold reloadWorld, bind.
      destruct (WorldTools.getWorldByName (worlds this)
                  (BoidSimulationParams.worldName (simParams this)))
        as [e' | world] eqn:Hw.
      * apply getWorldByName_throw_iff_not_listed in Hw as [-> Hnot].
        split.
        -- intros H. injection H as <-. auto.
        -- intros (-> & _ & _). reflexivity.
      * split; [discriminate |].
        intros (_ & _ & Hnot). exfalso. apply Hnot.
        apply getWorldByName_ok_iff_listed. now exists world.
    + split; [discriminate | intros (_ & H & _); discriminate].
  - intros Hno. unfold update. rewrite Hno. reflexivity.
Qed.

End TickErrorFacts.

(** ** The population across ticks *)

Section PopulationTickFacts.

Variable Scene : Type.
Variable clearScene : Scene -> Scene.
Variable addToScene : Mesh -> Scene -> Scene.
Variable removeFromScene : Mesh -> Scene -> Scene.
Variable updateSun : Scene -> Scene.
Variable Math_atan2 : num -> num -> num.

Import BoidSimulation.

Lemma same_settings_refl (this : t Scene) : same_settings this this.
Proof. repeat split. Qed.

Lemma same_settings_trans (this1 this2 this3 : t Scene) :
  same_settings this1 this2 -> same_settings this2 this3 ->
  same_settings this1 this3.
Proof.
  intros (H1 & H2 & H3 & H4 & H5 & H6) (K1 & K2 & K3 & K4 & K5 & K6).
  repeat split; congruence.
Qed.

Lemma generateBoid_frame (this : t Scene) :
  same_settings this (generateBoid addToScene this)
  /\ random (generateBoid addToScene this)
     = Random.mk (Random.samples (random this))
         (7 + Random.cursor (random this)).
Proof. repeat split. Qed.

Lemma iter_generateBoid_frame (k : nat) (this : t Scene) :
  same_settings this (Nat.iter k (generateBoid addToScene) this)
  /\ random (Nat.iter k (generateBoid addToScene) this)
     = Random.mk (Random.samples (random this))
         (7 * k + Random.cursor (random this)).
Proof.
  induction k as [|k [IHs IHr]].
  - split; [apply same_settings_refl | simpl; now destruct (random this)].
  - change (Nat.iter (S k) (generateBoid addToScene) this)
      with (generateBoid addToScene (Nat.iter k (generateBoid addToScene) this)).
    destruct (generateBoid_frame (Nat.iter k (generateBoid addToScene) this))
      as [Hs Hr].
    split; [eapply same_settings_trans; eassumption |].
    rewrite Hr, IHr. cbn [Random.samples Random.cursor]. f_equal. lia.
Qed.

Lemma removeLoop_frame (difference : Z) (this : t Scene) :
  same_settings this (snd (removeLoop removeFromScene difference this)).
Proof.
  pose proof (removeLoop_spec Scene removeFromScene
                (Z.to_nat (- difference)) difference this eq_refl) as H.
  cbv zeta in H.
  destruct H as (_ & _ & Hp & _ & Ho & Hr & Hw & Hc & Hcr).
  repeat split; assumption.
Qed.

(** The three ways of the reconciliation: nothing to do, generate, remove. *)
Lemma updateBoidCount_cases (this : t Scene) :
  let n := Z.of_nat (List.length (boids this)) in
  let m := BoidSimulationParams.boidCount (simParams this) in
  (m = n -> updateBoidCount addToScene removeFromScene this = this)
  /\ ((n < m)%Z ->
      updateBoidCount addToScene removeFromScene this
      = Nat.iter (Z.to_nat (m - n)) (generateBoid addToScene) this)
  /\ ((m < n)%Z ->
      updateBoidCount addToScene removeFromScene this
      = snd (removeLoop removeFromScene (m - n) this)).
Proof.
  intros n m. subst n m. unfold updateBoidCount.
  destruct (Z.eqb_spec (BoidSimulationParams.boidCount (simParams this))
              (Z.of_nat (List.length (boids this)))) as [Heq | Hne].
  - split; [reflexivity |]. split; intros; lia.
  - split; [intros; contradiction |]. split; intros Hlt.
    + rewrite (generateLoop_iter Scene addToScene
                 (Z.to_nat (BoidSimulationParams.boidCount (simParams this)
                            - Z.of_nat (List.length (boids this))))) by lia.
      simp removeLoop. reflexivity.
    + rewrite generateLoop_nonpositive by lia.
      destruct (removeLoop removeFromScene _ this). reflexivity.
Qed.

Lemma updateBoidCount_frame (this : t Scene) :
  same_settings this (updateBoidCount addToScene removeFromScene this).
Proof.
  destruct (updateBoidCount_cases this) as (Heq & Hgrow & Hshrink).
  destruct (Z.lt_trichotomy (BoidSimulationParams.boidCount (simParams this))
              (Z.of_nat (List.length (boids this)))) as [H | [H | H]].
  - rewrite (Hshrink H). apply removeLoop_frame.
  - rewrite (Heq H). apply same_settings_refl.
  - rewrite (Hgrow H). apply iter_generateBoid_frame.
Qed.

Lemma updateBoidCount_length (this : t Scene) :
  List.length (boids (updateBoidCount addToScene removeFromScene this))
  = Z.to_nat (BoidSimulationParams.boidCount (simParams this)).
Proof.
  destruct (updateBoidCount_cases this) as (Heq & Hgrow & Hshrink).
  destruct (Z.lt_trichotomy (BoidSimulationParams.boidCount (simParams this))
              (Z.of_nat (List.length (boids this)))) as [H | [H | H]].
  - rewrite (Hshrink H).
    pose proof (removeLoop_spec Scene removeFromScene
                  (Z.to_nat (- (BoidSimulationParams.boidCount (simParams this)
                                - Z.of_nat (List.length (boids this)))))
                  _ this eq_refl) as Hspec.
    cbv zeta in Hspec. destruct Hspec as (Hb & _).
    rewrite Hb, length_firstn. lia.
  - rewrite (Heq H), H. lia.
  - rewrite (Hgrow H).
    pose proof (iter_generateBoid_spec Scene addToScene
                  (Z.to_nat (BoidSimulationParams.boidCount (simParams this)
                             - Z.of_nat (List.length (boids this))))
                  this) as Hiter.
    cbv zeta in Hiter. destruct Hiter as ((news & Hb & Hids & _) & _).
    rewrite Hb, length_app, <- (length_map BoidState.id news), Hids, length_seq.
    lia.
Qed.

Lemma length_assign {A : Type} (l : list A) :
  forall (i : nat) (a : A), List.length (assign l i a) = List.length l.
Proof.
  induction l as [|b l IH]; intros [|i] a; simpl; auto.
Qed.

Lemma updateBoid_frame (this : t Scene) (i : nat) :
  same_settings this (updateBoid Math_atan2 this i)
  /\ List.length (boids (updateBoid Math_atan2 this i))
     = List.length (boids this).
Proof.
  unfold updateBoid.
  destruct (nth_error (boids this) i) as [boid |]; [| repeat split].
  destruct (Boid.updateAndMove _ _ _ _ _) as [boid' g].
  split; [repeat split |]. cbn. apply length_assign.
Qed.

Lemma updateBoids_frame (this : t Scene) :
  same_settings this (updateBoids Math_atan2 this)
  /\ List.length (boids (updateBoids Math_atan2 this))
     = List.length (boids this).
Proof.
  unfold updateBoids. generalize (seq 0 (List.length (boids this))).
  intros indices. revert this.
  induction indices as [|i indices IH]; intros this; simpl.
  - split; [apply same_settings_refl | reflexivity].
  - destruct (IH (updateBoid Math_atan2 this i)) as [Hs Hl].
    destruct (updateBoid_frame this i) as [Hs' Hl'].
    split; [eapply same_settings_trans; eassumption | congruence].
Qed.

Lemma needsReload_same_settings (this this' : t Scene) :
  same_settings this this' -> needsReload this' = needsReload this.
Proof.
  intros (_ & Hc & Hr & Hp & _). unfold needsReload. now rewrite Hc, Hr, Hp.
Qed.

Lemma RenderingModes_eqb_refl (r : RenderingModes) :
  RenderingModes_eqb r r = true.
Proof. now destruct r. Qed.

(** What a tick that succeeds amounts to. *)
Lemma update_ok (this this' : t Scene) :
  update clearScene addToScene removeFromScene updateSun Math_atan2 this
  = ok this' ->
  exists this1,
    (if needsReload this
     then reloadWorld clearScene addToScene updateSun this = ok this1
     else this1 = this)
    /\ this' = updateBoids Math_atan2
                 (updateBoidCount addToScene removeFromScene this1).
Proof.
  unfold update, bind. destruct (needsReload this).
  - destruct (reloadWorld clearScene addToScene updateSun this) as [e | this1];
      [discriminate |].
    intros H. injection H as <-. now exists this1.
  - intros H. injection H as <-. now exists this.
Qed.

(** X3. After a tick that succeeds, no reload is due: the current world
    name and rendering mode equal the selected ones, so that a world
    switch is reloaded once and not again on the ticks that follow. *)
Theorem update_leaves_no_reload_due (this this' : t Scene) :
  update clearScene addToScene removeFromScene updateSun Math_atan2 this
  = ok this' ->
  needsReload this' = false
  /\ currentWorldName this' = BoidSimulationParams.worldName (simParams this')
  /\ currentRendering this' = BoidSimulationParams.rendering (simParams this')
  /\ BoidSimulationParams.worldName (simParams this')
     = BoidSimulationParams.worldName (simParams this)
  /\ BoidSimulationParams.rendering (simParams this')
     = BoidSimulationParams.rendering (simParams this).
Proof.
  intros Hupdate.
  destruct (update_ok this this' Hupdate) as (this1 & Hfirst & ->).
  assert (Hs : same_settings this1
                 (updateBoids Math_atan2
                    (updateBoidCount addToScene removeFromScene this1))).
  { eapply same_settings_trans;
      [apply updateBoidCount_frame | apply updateBoids_frame]. }
  assert (H1 : currentWorldName this1
               = BoidSimulationParams.worldName (simParams this1)
               /\ currentRendering this1
                  = BoidSimulationParams.rendering (simParams this1)
               /\ BoidSimulationParams.worldName (simParams this1)
                  = BoidSimulationParams.worldName (simParams this)
               /\ BoidSimulationParams.rendering (simParams this1)
                  = BoidSimulationParams.rendering (simParams this)).
  { destruct (needsReload this) eqn:Hneeds.
    - destruct (reloadWorld_ok Scene clearScene addToScene updateSun this this1
                  Hfirst) as (world & _ & Hp & _ & _ & _ & _ & _ & _ & Hc & Hr).
      rewrite Hp, Hc, Hr. repeat split.
    - subst this1. unfold needsReload in Hneeds.
      apply orb_false_iff in Hneeds as [Hn Hr].
      apply negb_false_iff in Hn, Hr. apply String.eqb_eq in Hn.
      split; [assumption |]. split; [| split; reflexivity].
      destruct (currentRendering this),
        (BoidSimulationParams.rendering (simParams this));
        (reflexivity || discriminate). }
  destruct H1 as (Hc1 & Hr1 & Hn1 & Hm1).
  destruct Hs as (_ & Hc & Hr & Hp & _).
  rewrite Hp, Hc, Hr.
  split; [| repeat split; assumption].
  unfold needsReload. rewrite Hp, Hc, Hr, Hc1, Hr1.
  now rewrite String.eqb_refl, RenderingModes_eqb_refl.
Qed.

End PopulationTickFacts.

Section PopulationGrowthFacts.

Variable Scene : Type.
Variable clearScene : Scene -> Scene.
Variable addToScene : Mesh -> Scene -> Scene.
Variable removeFromScene : Mesh -> Scene -> Scene.
Variable updateSun : Scene -> Scene.
Variable Math_atan2 : num -> num -> num.

Import BoidSimulation.

(** X5. Raising the boid-count target from [n] to [m] keeps the boids
    there are, in place and unchanged, and appends [m - n] boids made by
    the generator under the next [m - n] ids; the id counter moves on by
    [m - n] and the random source by seven draws per new boid. *)
Theorem updateBoidCount_appends_new_boids (this : t Scene) (n : nat) (m : Z) :
  List.length (boids this) = n ->
  BoidSimulationParams.boidCount (simParams this) = m ->
  (Z.of_nat n < m)%Z ->
  let k := Z.to_nat (m - Z.of_nat n) in
  let this' := updateBoidCount addToScene removeFromScene this in
  (exists news,
     boids this' = boids this ++ news
     /\ List.length news = k
     /\ map BoidState.id news = seq (nextBoidId this) k
     /\ Forall (freshly_generated (simParams this)) news)
  /\ nextBoidId this' = (nextBoidId this + k)%nat
  /\ random this'
     = Random.mk (Random.samples (random this))
         (7 * k + Random.cursor (random this)).
Proof.
  intros Hn Hm Hlt k this'. subst this'.
  destruct (updateBoidCount_cases Scene addToScene removeFromScene this)
    as (_ & Hgrow & _).
  rewrite Hn, Hm in Hgrow. rewrite (Hgrow Hlt). fold k.
  pose proof (iter_generateBoid_spec Scene addToScene k this) as Hiter.
  cbv zeta in Hiter.
  destruct Hiter as ((news & Hb & Hids & Hfresh) & Hnext & _).
  split; [| split].
  - exists news. split; [assumption |]. split; [| split; assumption].
    rewrite <- (length_map BoidState.id), Hids. apply length_seq.
  - assumption.
  - apply (iter_generateBoid_frame Scene addToScene k this).
Qed.

Lemma updateBoidCount_ids_unique (this : t Scene) :
  ids_unique this -> ids_below_next this ->
  ids_unique (updateBoidCount addToScene removeFromScene this).
Proof.
  unfold ids_unique, ids_below_next. intros Huniq Hbelow.
  destruct (updateBoidCount_cases Scene addToScene removeFromScene this)
    as (Heq & Hgrow & Hshrink).
  destruct (Z.lt_trichotomy (BoidSimulationParams.boidCount (simParams this))
              (Z.of_nat (List.length (boids this)))) as [H | [H | H]].
  - rewrite (Hshrink H).
    pose proof (removeLoop_spec Scene removeFromScene
                  (Z.to_nat (- (BoidSimulationParams.boidCount (simParams this)
                                - Z.of_nat (List.length (boids this)))))
                  _ this eq_refl) as Hspec.
    cbv zeta in Hspec. destruct Hspec as (Hb & _).
    rewrite Hb, <- firstn_map.
    rewrite <- (firstn_skipn
                  (List.length (boids this)
                   - Z.to_nat (- (BoidSimulationParams.boidCount (simParams this)
                                  - Z.of_nat (List.length (boids this)))))
                  (map BoidState.id (boids this))) in Huniq.
    now apply NoDup_app_remove_r in Huniq.
  - now rewrite (Heq H).
  - rewrite (Hgrow H).
    pose proof (iter_generateBoid_spec Scene addToScene
                  (Z.to_nat (BoidSimulationParams.boidCount (simParams this)
                             - Z.of_nat (List.length (boids this))))
                  this) as Hiter.
    cbv zeta in Hiter. destruct Hiter as ((news & Hb & Hids & _) & _).
    rewrite Hb, map_app, Hids.
    apply NoDup_app; [assumption | apply seq_NoDup |].
    intros i Hold Hnew. apply in_seq in Hnew.
    apply in_map_iff in Hold as (b & <- & Hb').
    rewrite Forall_forall in Hbelow. specialize (Hbelow b Hb'). lia.
Qed.

(** X7. A tick keeps the ids of the live boids pairwise distinct and
    below the id counter: no id is ever handed out twice, across
    generation, removal, world switches and agent updates. *)
Theorem update_keeps_ids_unique (this this' : t Scene) :
  ids_unique this ->
  ids_below_next this ->
  update clearScene addToScene removeFromScene updateSun Math_atan2 this
  = ok this' ->
  ids_unique this' /\ ids_below_next this'.
Proof.
  intros Huniq Hbelow Hupdate.
  split;
    [| exact (update_ids_below_next Scene clearScene addToScene removeFromScene
                updateSun Math_atan2 this this' Hbelow Hupdate)].
  destruct (update_ok Scene clearScene addToScene removeFromScene updateSun
              Math_atan2 this this' Hupdate) as (this1 & Hfirst & ->).
  unfold ids_unique.
  rewrite (proj1 (updateBoids_ids Scene Math_atan2
                    (updateBoidCount addToScene removeFromScene this1))).
  apply updateBoidCount_ids_unique.
  - destruct (needsReload this).
    + destruct (reloadWorld_ok Scene clearScene addToScene updateSun this this1
                  Hfirst) as (world & _ & _ & _ & Hnil & _).
      unfold ids_unique. rewrite Hnil. constructor.
    + now rewrite Hfirst.
  - destruct (needsReload this).
    + destruct (reloadWorld_ok Scene clearScene addToScene updateSun this this1
                  Hfirst) as (world & _ & _ & _ & Hnil & _).
      unfold ids_below_next. rewrite Hnil. constructor.
    + now rewrite Hfirst.
Qed.

End PopulationGrowthFacts.

(** ** The neighbour query, for all numbers *)

Lemma sub_sqr_sym (a b : num) :
  ((a - b) * (a - b))%num = ((b - a) * (b - a))%num.
Proof.
  destruct a, b; simpl; try reflexivity. f_equal. ring.
Qed.

Lemma distanceTo_sym (p q : Vector3.t) :
  Vector3.distanceTo p q = Vector3.distanceTo q p.
Proof.
  unfold Vector3.distanceTo, Vector3.distanceToSquared. cbv zeta.
  now rewrite (sub_sqr_sym (Vector3.x p)), (sub_sqr_sym (Vector3.y p)),
    (sub_sqr_sym (Vector3.z p)).
Qed.

(** A square root is zero or more, infinite, or NaN: it is below no
    number that fails to be greater than zero. *)
Lemma Math_sqrt_not_below (a thr : num) :
  (Fin 0 <? thr)%num = false -> (Num.Math_sqrt a <? thr)%num = false.
Proof.
  intros Hthr. destruct a as [r | | |]; simpl; try reflexivity.
  - destruct (Num.Rltb r 0); [reflexivity |].
    destruct thr as [t | | |]; simpl in *; try reflexivity; try discriminate.
    apply Rltb_false in Hthr. apply Rltb_false.
    pose proof (sqrt_pos r). lra.
  - now destruct thr.
Qed.

Section NeighbourQueryFacts.

Variable Scene : Type.

Import BoidSimulation.

Lemma neighboursLoop_sorted (boid : nat) (thisBoid : BoidState.t) (thr : num)
  (others : list BoidState.t) :
  forall k,
    StronglySorted lt (neighboursLoop boid thisBoid thr k others)
    /\ Forall (fun r => (k <= r)%nat) (neighboursLoop boid thisBoid thr k others).
Proof.
  induction others as [|otherBoid others IH]; intros k; simpl.
  - split; constructor.
  - destruct (IH (S k)) as [Hs Hf].
    assert (Hf' : Forall (fun r => (k <= r)%nat)
                    (neighboursLoop boid thisBoid thr (S k) others)).
    { eapply Forall_impl; [| exact Hf]. simpl. intros; lia. }
    destruct (Nat.eqb k boid); [split; assumption |].
    destruct (Boid.isOtherBoidVisible thisBoid otherBoid thr);
      [| split; assumption].
    split.
    + constructor; [assumption |].
      eapply Forall_impl; [| exact Hf]. simpl. intros; lia.
    + constructor; [lia | assumption].
Qed.

Lemma neighboursLoop_length (boid : nat) (thisBoid : BoidState.t) (thr : num)
  (others : list BoidState.t) :
  forall k,
    (List.length (neighboursLoop boid thisBoid thr k others)
     <= List.length others)%nat
    /\ ((k <= boid < k + List.length others)%nat ->
        (List.length (neighboursLoop boid thisBoid thr k others)
         < List.length others)%nat).
Proof.
  induction others as [|otherBoid others IH]; intros k; simpl.
  - split; [lia | intros; lia].
  - destruct (IH (S k)) as [Hle Hlt].
    destruct (Nat.eqb_spec k boid) as [Hk | Hk].
    + split; [lia | intros; lia].
    + destruct (Boid.isOtherBoidVisible thisBoid otherBoid thr); simpl.
      * split; [lia |]. intros Hin.
        assert (S k <= boid < S k + List.length others)%nat by lia.
        specialize (Hlt H). lia.
      * split; [lia | intros; lia].
Qed.

(** X9. Being a neighbour is mutual, for all positions and thresholds,
    finite or not: a boid is among the neighbours of another exactly when
    the other is among its own. *)
Theorem getBoidNeighbours_symmetric (this : t Scene) (a b : nat) :
  In b (getBoidNeighbours this a) <-> In a (getBoidNeighbours this b).
Proof.
  assert (Hone : forall a b,
            In b (getBoidNeighbours this a) -> In a (getBoidNeighbours this b)).
  { clear a b. intros a b Hin. unfold getBoidNeighbours in Hin.
    destruct (nth_error (boids this) a) as [A |] eqn:HA; [| destruct Hin].
    apply neighboursLoop_In in Hin as (Hne & _ & B & HB & Hvis).
    rewrite Nat.sub_0_r in HB.
    apply (getBoidNeighbours_In Scene this b a B A HB HA).
    split; [congruence |].
    unfold Boid.isOtherBoidVisible in *. now rewrite distanceTo_sym. }
  split; apply Hone.
Qed.

(** X10. A visibility threshold that is not greater than zero (zero, a
    negative number, or NaN) leaves every boid without neighbours. *)
Theorem getBoidNeighbours_none_without_positive_threshold
  (this : t Scene) (boid : nat) :
  (Fin 0 <? BoidSimulationParams.visibilityThreshold (simParams this))%num
  = false ->
  getBoidNeighbours this boid = [].
Proof.
  intros Hthr.
  destruct (getBoidNeighbours this boid) as [|r l] eqn:HN; [reflexivity |].
  exfalso.
  assert (Hin : In r (getBoidNeighbours this boid)) by (rewrite HN; now left).
  unfold getBoidNeighbours in Hin.
  destruct (nth_error (boids this) boid) as [thisBoid |]; [| destruct Hin].
  apply neighboursLoop_In in Hin as (_ & _ & other & _ & Hvis).
  unfold Boid.isOtherBoidVisible, Vector3.distanceTo in Hvis.
  rewrite Math_sqrt_not_below in Hvis by assumption. discriminate.
Qed.

End NeighbourQueryFacts.

(** ** Generated boids *)

Lemma scaled_sample_between (r lo hi : R) :
  0 <= r < 1 -> lo <= hi -> lo <= r * (hi + - lo) + lo <= hi.
Proof. intros Hr Hle. split; nra. Qed.


Lemma default_position_bounds_well_formed :
  well_formed_bounds default_position_bounds.
Proof.
  exists (-100), 100, 0, 50, (-100), 100.
  split; [reflexivity |]. repeat split; lra.
Qed.

(** A vector of three scaled samples lies inside the box it is scaled to. *)
Lemma scaled_samples_inside (bounds : Bounds3D.t) (rx ry rz : R) :
  well_formed_bounds bounds ->
  0 <= rx < 1 -> 0 <= ry < 1 -> 0 <= rz < 1 ->
  inside bounds
    (Vector3.mk
       (Fin rx * (Bounds3D.xMax bounds - Bounds3D.xMin bounds)
        + Bounds3D.xMin bounds)%num
       (Fin ry * (Bounds3D.yMax bounds - Bounds3D.yMin bounds)
        + Bounds3D.yMin bounds)%num
       (Fin rz * (Bounds3D.zMax bounds - Bounds3D.zMin bounds)
        + Bounds3D.zMin bounds)%num).
Proof.
  intros (x0 & x1 & y0 & y1 & z0 & z1 & -> & Hx & Hy & Hz) Hrx Hry Hrz.
  exists x0, x1, y0, y1, z0, z1,
    (rx * (x1 + - x0) + x0), (ry * (y1 + - y0) + y0), (rz * (z1 + - z0) + z0).
  split; [reflexivity |]. split; [reflexivity |].
  repeat split; now apply scaled_sample_between.
Qed.



(** X12. The factory method of Boid.ts and the generator build the same
    boid from the same bounds and the same random source, whatever the
    boid type and the acceleration asked of the generator; and with no
    options at all the factory places the boid inside the default
    position bounds. *)
Theorem factory_and_generator_agree (id : BoidId)
  (positionBounds velocityBounds : option Bounds3D.t)
  (photorealisticRendering : bool) (boidType : option BoidType)
  (acceleration : option num) (g : Random.t) :
  Boid.generateWithRandomPosAndVel id
    (Some (Boid.mkFactoryOptions positionBounds velocityBounds
             photorealisticRendering)) g
  = BoidGenerator.generateBoidWithRandomPosAndVec id
      (BoidGenerator.mkOptions boidType positionBounds velocityBounds
         acceleration photorealisticRendering) g
  /\ Boid.generateWithRandomPosAndVel id None g
     = BoidGenerator.generateBoidWithRandomPosAndVec id
         (BoidGenerator.mkOptions boidType None None acceleration false) g
  /\ (unit_samples g ->
      inside default_position_bounds
        (BoidState.position
           (fst (Boid.generateWithRandomPosAndVel id None g)))).
Proof.
  split; [reflexivity |]. split; [reflexivity |].
  intros Hunit.
  unfold Boid.generateWithRandomPosAndVel.
  cbn [Boid.bound Random.Math_random Boid.new fst snd Random.samples
       Random.cursor BoidOptions.position BoidState.position
       Vector3.x Vector3.y Vector3.z].
  apply (scaled_samples_inside default_position_bounds);
    [apply default_position_bounds_well_formed | apply Hunit ..].
Qed.

Section GeneratedPopulationFacts.

Variable Scene : Type.
Variable clearScene : Scene -> Scene.
Variable addToScene : Mesh -> Scene -> Scene.
Variable removeFromScene : Mesh -> Scene -> Scene.
Variable updateSun : Scene -> Scene.
Variable Math_atan2 : num -> num -> num.

Import BoidSimulation.





Lemma updateAndMove_random (this : BoidState.t) (rules : list Rule.t)
  (args : RuleArguments.t) (g : Random.t) :
  snd (Boid.updateAndMove Math_atan2 this rules args g)
  = Random.mk (Random.samples g) (3 + Random.cursor g).
Proof.
  unfold Boid.updateAndMove, Boid.addRandomnessToVelocity,
    Boid.updateRandomBias.
  cbn [Random.Math_random fst snd Random.samples Random.cursor].
  reflexivity.
Qed.

End GeneratedPopulationFacts.

(** ** The speed cap *)

Section CapSpeedFacts.

Variable Math_atan2 : num -> num -> num.

Import BoidState.

Lemma mul_NaN_l (a : num) : (NaN * a)%num = NaN.
Proof. reflexivity. Qed.

Lemma length_has_NaN (v : Vector3.t) : has_NaN v -> Vector3.length v = NaN.
Proof.
  unfold Vector3.length.
  intros [H | [H | H]]; rewrite H; cbn [Num.mul Num.add].
  - reflexivity.
  - now destruct (Vector3.x v * Vector3.x v)%num.
  - now destruct (Vector3.x v * Vector3.x v + Vector3.y v * Vector3.y v)%num.
Qed.

Lemma add_NaN_l (a : num) : (NaN + a)%num = NaN.
Proof. reflexivity. Qed.

Lemma add_NaN_r (a : num) : (a + NaN)%num = NaN.
Proof. now destruct a. Qed.

Lemma has_NaN_add_l (v u : Vector3.t) : has_NaN v -> has_NaN (Vector3.add v u).
Proof.
  unfold has_NaN, Vector3.add. cbn [Vector3.x Vector3.y Vector3.z].
  intros [H | [H | H]]; rewrite H; auto.
Qed.

Lemma has_NaN_add_r (v u : Vector3.t) : has_NaN u -> has_NaN (Vector3.add v u).
Proof.
  unfold has_NaN, Vector3.add. cbn [Vector3.x Vector3.y Vector3.z].
  intros [H | [H | H]]; rewrite H, add_NaN_r; auto.
Qed.

Lemma applyRules_has_NaN (rules : list Rule.t) (args : RuleArguments.t) :
  forall this : BoidState.t,
    has_NaN (velocity this) ->
    has_NaN (velocity (Boid.applyRules this rules args)).
Proof.
  unfold Boid.applyRules.
  induction rules as [|rule rules IH]; intros this H; simpl; [assumption |].
  apply IH. cbn [velocity set_velocity]. now apply has_NaN_add_l.
Qed.

(** X19. NaN is never repaired: the cap leaves a velocity with a NaN
    component as it is, whatever the maximum speed, and after a whole tick
    the velocity still has a NaN component and the position has one too,
    whatever the rules return. *)
Theorem NaN_velocity_survives_the_tick (this : BoidState.t)
  (rules : list Rule.t) (args : RuleArguments.t) (g : Random.t) :
  has_NaN (velocity this) ->
  (forall maxSpeed, Boid.capSpeed this maxSpeed = this)
  /\ has_NaN (velocity (fst (Boid.updateAndMove Math_atan2 this rules args g)))
  /\ has_NaN (position (fst (Boid.updateAndMove Math_atan2 this rules args g))).
Proof.
  intros HNaN.
  assert (Hcap : forall b maxSpeed,
            has_NaN (velocity b) -> Boid.capSpeed b maxSpeed = b).
  { intros b maxSpeed Hb. unfold Boid.capSpeed.
    rewrite (length_has_NaN _ Hb). unfold Num.gtb.
    now destruct maxSpeed. }
  split; [intros; now apply Hcap |].
  destruct (updateAndMove_unfolded Math_atan2 this rules args g)
    as (_ & _ & Hvel & _ & Hpos & _).
  cbv zeta in Hvel, Hpos.
  assert (Hv : has_NaN
                 (velocity (fst (Boid.updateAndMove Math_atan2 this rules args g)))).
  { rewrite Hvel. apply has_NaN_add_l.
    rewrite Hcap; now apply applyRules_has_NaN. }
  split; [assumption |].
  rewrite Hpos. now apply has_NaN_add_r.
Qed.

End CapSpeedFacts.

(** ** The random bias *)

Section RandomBiasFacts.

Variable Math_atan2 : num -> num -> num.

Import BoidState.






End RandomBiasFacts.

(** ** Obstacle avoidance, further *)

Lemma setLength_fin_any (a b c l : R) :
  exists k,
    0 < k
    /\ Vector3.setLength (Vector3.fin a b c) (Fin l)
       = Vector3.fin (a * k * l) (b * k * l) (c * k * l).
Proof.
  destruct (Req_dec_T (norm3 a b c) 0) as [Hz | Hn].
  - exists (1 / 1). split; [lra |].
    unfold Vector3.setLength, Vector3.normalize.
    rewrite length_fin. fold (norm3 a b c). rewrite Hz.
    unfold Num.or_else.
    replace (Num.Reqb 0 0) with true by (symmetry; now apply Reqb_true).
    rewrite divideScalar_fin by lra. reflexivity.
  - exists (1 / norm3 a b c). split.
    + pose proof (norm3_nonneg a b c).
      unfold Rdiv. rewrite Rmult_1_l. apply Rinv_0_lt_compat. lra.
    + now apply setLength_fin.
Qed.

Section ObstacleForceFacts.

Import ObstacleAvoidanceRule.

Variable this : ObstacleAvoidanceRule.t.
Variables S W : R.
Hypothesis HS : SHARPNESS this = Fin S.
Hypothesis HS0 : 0 < S.
Hypothesis HW : Rule.weight (fields this) = Fin W.



End ObstacleForceFacts.


(** ** The colour and the heading of a boid *)

Lemma clamp_unit (v : R) :
  exists l',
    Num.Math_min (Num.Math_max (Fin v) (Fin 0)) (Fin 1) = Fin l'
    /\ 0 <= l' <= 1
    /\ (0 <= v < 1 -> l' = v)
    /\ (0 <= v -> v <= l' \/ l' = 1).
Proof.
  unfold Num.Math_max. cbn [Num.ltb].
  destruct (Num.Rltb v 0) eqn:H0.
  - apply Rltb_true in H0. unfold Num.Math_min. cbn [Num.ltb].
    destruct (Num.Rltb 1 0) eqn:H1.
    + apply Rltb_true in H1. lra.
    + exists 0. repeat split; try lra.
  - apply Rltb_false in H0. unfold Num.Math_min. cbn [Num.ltb].
    destruct (Num.Rltb 1 v) eqn:H1.
    + apply Rltb_true in H1. exists 1. repeat split; try lra.
    + apply Rltb_false in H1. exists v. repeat split; try lra.
Qed.

(** ** The further properties at the sample objects *)





Lemma sample_ids_unique (boidCount : Z) (worldName : string) :
  ids_unique (sample_simulation boidCount worldName).
Proof.
  unfold ids_unique. cbn. repeat constructor; cbn; intuition discriminate.
Qed.

Lemma sample_ids_below_next (boidCount : Z) (worldName : string) :
  ids_below_next (sample_simulation boidCount worldName).
Proof. unfold ids_below_next. cbn. repeat constructor. Qed.

Lemma update_leaves_no_reload_due_witness :
  exists this',
    BoidSimulation.update sample_clearScene sample_addToScene
      sample_removeFromScene sample_updateSun sample_atan2
      (sample_simulation 3 "Obstacles1") = ok this'
    /\ BoidSimulation.needsReload this' = false
    /\ BoidSimulation.currentWorldName this' = "Obstacles1"%string.
Proof.
  eexists. split; [reflexivity |].
  destruct (update_leaves_no_reload_due (list Mesh) sample_clearScene
              sample_addToScene sample_removeFromScene sample_updateSun
              sample_atan2 (sample_simulation 3 "Obstacles1") _ eq_refl)
    as (Hdue & Hname & _ & Hkept & _).
  split; [exact Hdue |]. rewrite Hname, Hkept. reflexivity.
Defined.

Lemma updateBoidCount_appends_new_boids_witness :
  (List.length (BoidSimulation.boids (sample_simulation 5 "Default")) = 3%nat
   /\ BoidSimulationParams.boidCount
        (BoidSimulation.simParams (sample_simulation 5 "Default")) = 5%Z
   /\ (Z.of_nat 3 < 5)%Z)
  /\ exists news,
       BoidSimulation.boids
         (BoidSimulation.updateBoidCount sample_addToScene
            sample_removeFromScene (sample_simulation 5 "Default"))
       = sample_boids ++ news
       /\ List.length news = 2%nat
       /\ map BoidState.id news = [3; 4]%nat.
Proof.
  split; [repeat split; lia |].
  pose proof (updateBoidCount_appends_new_boids (list Mesh) sample_addToScene
                sample_removeFromScene (sample_simulation 5 "Default") 3 5
                eq_refl eq_refl ltac:(lia)) as H.
  cbv zeta in H. destruct H as [(news & Hboids & Hlen & Hids & _) _].
  exists news. split; [exact Hboids |]. split; [exact Hlen | exact Hids].
Defined.

Lemma update_keeps_ids_unique_witness :
  (ids_unique (sample_simulation 5 "Default")
   /\ ids_below_next (sample_simulation 5 "Default"))
  /\ exists this',
       BoidSimulation.update sample_clearScene sample_addToScene
         sample_removeFromScene sample_updateSun sample_atan2
         (sample_simulation 5 "Default") = ok this'
       /\ ids_unique this' /\ ids_below_next this'.
Proof.
  split; [split; [apply sample_ids_unique | apply sample_ids_below_next] |].
  eexists. split; [reflexivity |].
  exact (update_keeps_ids_unique (list Mesh) sample_clearScene
           sample_addToScene sample_removeFromScene sample_updateSun
           sample_atan2 (sample_simulation 5 "Default") _
           (sample_ids_unique 5 "Default") (sample_ids_below_next 5 "Default")
           eq_refl).
Defined.

Lemma getBoidNeighbours_none_without_positive_threshold_witness :
  (Fin 0 <? BoidSimulationParams.visibilityThreshold
              (BoidSimulation.simParams (sample_simulation_seeing (Fin 0))))%num
  = false
  /\ BoidSimulation.getBoidNeighbours (sample_simulation_seeing (Fin 0)) 0 = [].
Proof.
  assert (H : (Fin 0 <? BoidSimulationParams.visibilityThreshold
                          (BoidSimulation.simParams
                             (sample_simulation_seeing (Fin 0))))%num = false).
  { change (Num.Rltb 0 0 = false). apply Rltb_false. lra. }
  split; [exact H |].
  exact (getBoidNeighbours_none_without_positive_threshold (list Mesh)
           (sample_simulation_seeing (Fin 0)) 0 H).
Defined.




Lemma NaN_velocity_survives_the_tick_witness :
  has_NaN
    (BoidState.velocity
       (BoidState.set_velocity sample_boid (Vector3.mk NaN (Fin 0) (Fin 0))))
  /\ has_NaN
       (BoidState.velocity
          (fst (Boid.updateAndMove sample_atan2
                  (BoidState.set_velocity sample_boid
                     (Vector3.mk NaN (Fin 0) (Fin 0)))
                  [] (sample_args []) sample_random)))
  /\ has_NaN
       (BoidState.position
          (fst (Boid.updateAndMove sample_atan2
                  (BoidState.set_velocity sample_boid
                     (Vector3.mk NaN (Fin 0) (Fin 0)))
                  [] (sample_args []) sample_random))).
Proof.
  assert (H : has_NaN
                (BoidState.velocity
                   (BoidState.set_velocity sample_boid
                      (Vector3.mk NaN (Fin 0) (Fin 0)))))
    by (left; reflexivity).
  split; [exact H |].
  exact (proj2
    (NaN_velocity_survives_the_tick sample_atan2
       (BoidState.set_velocity sample_boid (Vector3.mk NaN (Fin 0) (Fin 0)))
       [] (sample_args []) sample_random H)).
Defined.




(** * The tick, step by step *)

Section TickSteps.

Variable Math_atan2 : num -> num -> num.

Import BoidState.

Lemma set_velocity_velocity (this : BoidState.t) :
  set_velocity this (velocity this) = this.
Proof. now destruct this. Qed.

(** The loop over the rules changes the velocity alone, to the velocity
    with the forces added one after the other. *)
Lemma applyRules_velocity_with_forces (rules : list Rule.t)
  (args : RuleArguments.t) (this : BoidState.t) :
  Boid.applyRules this rules args
  = set_velocity this (velocity_with_forces this rules args).
Proof.
  unfold Boid.applyRules, velocity_with_forces.
  rewrite <- (set_velocity_velocity this) at 1.
  generalize (velocity this) as v.
  induction rules as [|rule rules IH]; intros v; [reflexivity |].
  cbn [fold_left]. rewrite <- IH. reflexivity.
Qed.

Lemma updateAndMove_tick (this : BoidState.t) (rules : list Rule.t)
  (args : RuleArguments.t) (g : Random.t) :
  Boid.updateAndMove Math_atan2 this rules args g
  = tick_in_specified_order Math_atan2 this rules args g.
Proof.
  unfold Boid.updateAndMove, tick_in_specified_order.
  rewrite applyRules_velocity_with_forces.
  generalize (velocity_with_forces this rules args) as v. intros v.
  unfold Boid.capSpeed, capped_velocity.
  cbn [velocity set_velocity].
  destruct (Vector3.length v >? _)%num;
    unfold Boid.addRandomnessToVelocity, Boid.updateRandomBias, drifted_bias;
    cbn [Random.Math_random Random.samples Random.cursor set_randomBias
         set_velocity randomBias velocity id position rotation Nat.add];
    match goal with
    | |- context [(Vector3.length ?b >? ?l)%num] =>
        destruct (Vector3.length b >? l)%num
    end;
    reflexivity.
Qed.

(** C1. The per-tick update of a boid is, for every boid, rule list and
    random source, the five steps of the specification in their order:
    (1) every rule is evaluated and its force is added to the velocity as
    it is; (2) the velocity is capped at the maximum speed; (3) the random
    bias drifts, is rescaled when it is above its limit, and is added to
    the capped velocity; (4) the velocity is added to the position; (5)
    the orientation is computed from the new velocity alone.  The cap
    comes before the randomness: the bias is added to the capped
    velocity. *)
Theorem updateAndMove_steps_in_order (this : BoidState.t) (rules : list Rule.t)
  (args : RuleArguments.t) (g : Random.t) :
  Boid.updateAndMove Math_atan2 this rules args g
  = tick_in_specified_order Math_atan2 this rules args g.
Proof. apply updateAndMove_tick. Qed.

End TickSteps.

(** * The speed cap and the random bias *)


Section CapAndBias.

Variable Math_atan2 : num -> num -> num.

Import BoidState.



End CapAndBias.

Section Binary64Runs.

Import Floats.
Local Open Scope float_scope.


End Binary64Runs.

(** * The neighbour query and the visibility threshold *)

Lemma ltb_irrefl (a : num) : (a <? a)%num = false.
Proof. destruct a; try reflexivity. cbn [Num.ltb]. apply Rltb_false. lra. Qed.

Section NeighbourThreshold.

Variable Scene : Type.

Import BoidSimulation.

(** C5, as amended. For two distinct live boids, each is among the
    neighbours of the other exactly when the distance between their
    positions as the program computes it, [distanceTo], is strictly below
    the visibility threshold: at a computed distance equal to the
    threshold neither sees the other.  The computed distance is the same
    in both directions. *)
Theorem neighbours_iff_computed_distance_below_threshold
  (this : t Scene) (a b : nat) (A B : BoidState.t) :
  a <> b ->
  nth_error (boids this) a = Some A ->
  nth_error (boids this) b = Some B ->
  let thr := BoidSimulationParams.visibilityThreshold (simParams this) in
  let d := Vector3.distanceTo (BoidState.position A) (BoidState.position B) in
  (In b (getBoidNeighbours this a) <-> (d <? thr)%num = true)
  /\ (In a (getBoidNeighbours this b) <-> (d <? thr)%num = true)
  /\ (d = thr ->
      ~ In b (getBoidNeighbours this a) /\ ~ In a (getBoidNeighbours this b))
  /\ Vector3.distanceTo (BoidState.position B) (BoidState.position A) = d.
Proof.
  intros Hab HA HB thr d.
  assert (Hba : In b (getBoidNeighbours this a) <-> (d <? thr)%num = true).
  { rewrite (getBoidNeighbours_In Scene this a b A B HA HB).
    unfold Boid.isOtherBoidVisible. fold thr d. split; [tauto | auto]. }
  assert (Hab' : In a (getBoidNeighbours this b) <-> (d <? thr)%num = true).
  { rewrite (getBoidNeighbours_In Scene this b a B A HB HA).
    unfold Boid.isOtherBoidVisible.
    rewrite (distanceTo_sym (BoidState.position B) (BoidState.position A)).
    fold thr d. split; [tauto | auto]. }
  split; [assumption |]. split; [assumption |]. split.
  - intros Heq. rewrite Hba, Hab', Heq, ltb_irrefl. split; discriminate.
  - apply distanceTo_sym.
Qed.

End NeighbourThreshold.

Lemma neighbours_iff_computed_distance_below_threshold_witness :
  (0%nat <> 1%nat
   /\ nth_error (BoidSimulation.boids (sample_simulation 3 "Default")) 0
      = Some (boid_with_id 0 0 0 0)
   /\ nth_error (BoidSimulation.boids (sample_simulation 3 "Default")) 1
      = Some (boid_with_id 1 3 0 0))
  /\ (In 1%nat
        (BoidSimulation.getBoidNeighbours (sample_simulation 3 "Default") 0)
      <-> (Vector3.distanceTo (Vector3.fin 0 0 0) (Vector3.fin 3 0 0)
           <? Fin 25)%num = true).
Proof.
  split; [repeat split; discriminate |].
  exact (proj1
    (neighbours_iff_computed_distance_below_threshold (list Mesh)
       (sample_simulation 3 "Default") 0 1
       (boid_with_id 0 0 0 0) (boid_with_id 1 3 0 0)
       ltac:(discriminate) eq_refl eq_refl)).
Defined.

Section Binary64Distance.

Import Floats.

(** The real numbers behind the binary64 numbers of the sample boids. *)
Lemma to_R_zero : Binary64.to_R 0%float = 0.
Proof. reflexivity. Qed.

Lemma to_R_three : Binary64.to_R 3%float = 3.
Proof.
  unfold Binary64.to_R.
  change (Prim2SF 3%float) with (S754_finite false 6755399441055744 (-51)).
  cbn [powerRZ]. replace (Pos.to_nat 51) with 51%nat by reflexivity.
  replace (2 ^ 51) with 2251799813685248
    by (rewrite (pow_IZR 2 51); f_equal).
  lra.
Qed.

Lemma to_R_five : Binary64.to_R 5%float = 5.
Proof.
  unfold Binary64.to_R.
  change (Prim2SF 5%float) with (S754_finite false 5629499534213120 (-50)).
  cbn [powerRZ]. replace (Pos.to_nat 50) with 50%nat by reflexivity.
  replace (2 ^ 50) with 1125899906842624
    by (rewrite (pow_IZR 2 50); f_equal).
  lra.
Qed.

Lemma to_R_below_four :
  Binary64.to_R binary64_below_four = 4 - / 2251799813685248.
Proof.
  unfold Binary64.to_R.
  change (Prim2SF binary64_below_four)
    with (S754_finite false 9007199254740991 (-51)).
  cbn [powerRZ]. replace (Pos.to_nat 51) with 51%nat by reflexivity.
  replace (2 ^ 51) with 2251799813685248
    by (rewrite (pow_IZR 2 51); f_equal).
  lra.
Qed.

(** C5, the counterexample. On binary64 numbers, with the visibility
    threshold 5: the boids at (0, 0, 0) and at (3, 4 - 2^-51, 0) are
    closer to each other than the threshold, by a positive amount, but
    the distance that the program computes is 5, which is not below the
    threshold, and neither boid is a neighbour of the other. *)
Lemma closer_than_threshold_yet_invisible :
  let A := binary64_boid_at 0 0 0 in
  let B := binary64_boid_at 3 binary64_below_four 0 in
  binary64_boids = [A; B]
  /\ euclidean_distance
       (Binary64.Vector3.to_R3 (Binary64.Boid.position A))
       (Binary64.Vector3.to_R3 (Binary64.Boid.position B))
     < Binary64.to_R
         (Binary64.BoidSimulationParams.visibilityThreshold binary64_params)
  /\ Binary64.Vector3.distanceTo (Binary64.Boid.position A)
       (Binary64.Boid.position B) = 5%float
  /\ Binary64.Boid.isOtherBoidVisible A B
       (Binary64.BoidSimulationParams.visibilityThreshold binary64_params)
     = false
  /\ Binary64.BoidSimulation.getBoidNeighbours binary64_boids binary64_params 0
     = []
  /\ Binary64.BoidSimulation.getBoidNeighbours binary64_boids binary64_params 1
     = [].
Proof.
  cbv zeta. split; [reflexivity |]. split.
  - change (euclidean_distance
              (Binary64.to_R 0%float, Binary64.to_R 0%float,
               Binary64.to_R 0%float)
              (Binary64.to_R 3%float, Binary64.to_R binary64_below_four,
               Binary64.to_R 0%float)
            < Binary64.to_R 5%float).
    rewrite to_R_zero, to_R_three, to_R_five, to_R_below_four.
    unfold euclidean_distance.
    assert (H : 0 < / 2251799813685248 < 1).
    { split; [apply Rinv_0_lt_compat; lra |].
      rewrite <- Rinv_1. apply Rinv_lt_contravar; lra. }
    apply Rlt_le_trans with (R_sqrt.sqrt (5 * 5));
      [| rewrite sqrt_square; lra].
    apply sqrt_lt_1_alt. unfold Rsqr. split; nra.
  - repeat split; vm_compute; reflexivity.
Qed.

End Binary64Distance.

(** * The magnitude of the avoidance vector *)

Section AvoidanceMagnitude.

Import ObstacleAvoidanceRule.


Lemma avoidanceVector_fin (thisBoid : BoidState.t)
  (cylinder : CylinderDescription.t) (cx cz r px py pz : R) :
  BoidState.position thisBoid = Vector3.fin px py pz ->
  cylinder = CylinderDescription.mk (BasePoint.mk (Fin cx) (Fin cz)) (Fin r) ->
  avoidanceVector thisBoid cylinder
  = Vector3.fin (px + - cx) (py + - py) (pz + - cz).
Proof. intros Hp ->. unfold avoidanceVector. rewrite Hp. reflexivity. Qed.




End AvoidanceMagnitude.


Section Binary64Avoidance.

Import Floats.

(** The avoidance force as the program computes it on binary64 numbers,
    for the cylinder of radius 1 about the vertical axis through the
    origin, sharpness 3 and weight 1.  A boid beside the axis, at the
    distance 2^-600 from it: the length of its offset is computed as
    zero, [setLength] divides the offset by one, and the force is the
    offset times 3^10, far below the force 729 on the boid at (5, 0, 0),
    which is four units outside the surface.  And the boid at (3, 0, 4),
    at the same computed distance from the surface as the boid at
    (5, 0, 0), gets a force of a greater computed length. *)
Lemma avoidance_force_on_binary64 :
  let force px py pz :=
    Binary64.ObstacleAvoidanceRule.calculateVector binary64_pow_whole
      binary64_obstacleAvoidRule (binary64_boid_at px py pz) in
  (0 <? binary64_tiny)%float = true
  /\ Binary64.Vector3.length (Binary64.Vector3.mk binary64_tiny 0 0) = 0%float
  /\ force binary64_tiny 0%float 0%float
     = Binary64.Vector3.mk (59049 * binary64_tiny)%float 0%float 0%float
  /\ force 5%float 0%float 0%float
     = Binary64.Vector3.mk 729%float 0%float 0%float
  /\ (59049 * binary64_tiny <? 729)%float = true
  /\ Binary64.Vector3.length (Binary64.Vector3.mk 5 0 0) = 5%float
  /\ Binary64.Vector3.length (Binary64.Vector3.mk 3 0 4) = 5%float
  /\ (Binary64.Vector3.length (force 5%float 0%float 0%float)
      <? Binary64.Vector3.length (force 3%float 0%float 4%float))%float = true.
Proof. vm_compute. repeat split. Qed.

End Binary64Avoidance.

(** * The population after a world switch *)

Section Regeneration.

Variable Scene : Type.
Variable clearScene : Scene -> Scene.
Variable addToScene : Mesh -> Scene -> Scene.
Variable removeFromScene : Mesh -> Scene -> Scene.
Variable updateSun : Scene -> Scene.
Variable Math_atan2 : num -> num -> num.

Import BoidSimulation.

(** One pass through the generation loop appends the boid drawn from the
    seven samples under the cursor, between the world bounds. *)
Lemma generateBoid_drawn (this : t Scene) :
  boids (generateBoid addToScene this)
  = boids this
      ++ [drawn_boid (BoidSimulationParams.worldDimens (simParams this))
            (Random.samples (random this)) (Random.cursor (random this))
            (nextBoidId this)].
Proof. reflexivity. Qed.

Lemma iter_generateBoid_drawn (k : nat) (this : t Scene) :
  boids (Nat.iter k (generateBoid addToScene) this)
  = boids this
      ++ map (fun j =>
                drawn_boid (BoidSimulationParams.worldDimens (simParams this))
                  (Random.samples (random this))
                  (7 * j + Random.cursor (random this))
                  (nextBoidId this + j))
           (seq 0 k).
Proof.
  induction k as [|k IH].
  - simpl. now rewrite app_nil_r.
  - change (Nat.iter (S k) (generateBoid addToScene) this)
      with (generateBoid addToScene (Nat.iter k (generateBoid addToScene) this)).
    rewrite generateBoid_drawn, IH.
    destruct (iter_generateBoid_frame Scene addToScene k this)
      as [(_ & _ & _ & Hp & _) Hr].
    pose proof (iter_generateBoid_spec Scene addToScene k this) as Hspec.
    cbv zeta in Hspec. destruct Hspec as (_ & Hnext & _).
    rewrite Hp, Hr, Hnext. cbn [Random.samples Random.cursor].
    rewrite seq_S, map_app, <- app_assoc. reflexivity.
Qed.

(** Reconciling an empty collection fills it with the boids drawn from
    the random source, seven samples each. *)
Lemma updateBoidCount_from_empty_drawn (this : t Scene) :
  boids this = [] ->
  let count := Z.to_nat (BoidSimulationParams.boidCount (simParams this)) in
  let this' := updateBoidCount addToScene removeFromScene this in
  boids this'
  = map (fun j =>
           drawn_boid (BoidSimulationParams.worldDimens (simParams this))
             (Random.samples (random this))
             (7 * j + Random.cursor (random this))
             (nextBoidId this + j))
      (seq 0 count)
  /\ random this'
     = Random.mk (Random.samples (random this))
         (7 * count + Random.cursor (random this)).
Proof.
  intros Hnil count this'. subst this'.
  destruct (updateBoidCount_cases Scene addToScene removeFromScene this)
    as (Hsame & Hgrow & Hshrink).
  rewrite Hnil in Hsame, Hgrow, Hshrink. cbn [List.length] in *.
  change (Z.of_nat 0) with 0%Z in *.
  destruct (Z.lt_trichotomy (BoidSimulationParams.boidCount (simParams this)) 0)
    as [Hneg | [Hzero | Hpos]].
  - rewrite (Hshrink Hneg).
    pose proof (removeLoop_spec Scene removeFromScene
                  (Z.to_nat (- (BoidSimulationParams.boidCount (simParams this)
                                - 0)))
                  (BoidSimulationParams.boidCount (simParams this) - 0)%Z
                  this eq_refl) as Hspec.
    cbv zeta in Hspec. destruct Hspec as (Hb & _ & _ & Hr & _).
    rewrite Hb, Hr, Hnil, firstn_nil.
    replace count with 0%nat by (subst count; lia).
    split; [reflexivity | now destruct (random this)].
  - rewrite (Hsame Hzero), Hnil.
    replace count with 0%nat by (subst count; lia).
    split; [reflexivity | now destruct (random this)].
  - rewrite (Hgrow Hpos).
    replace (Z.to_nat (BoidSimulationParams.boidCount (simParams this) - 0))
      with count by (subst count; lia).
    rewrite iter_generateBoid_drawn, Hnil. split; [reflexivity |].
    apply (iter_generateBoid_frame Scene addToScene count this).
Qed.

(** C10. A world or rendering switch destroys the population: after
    [reloadWorld] the collection is empty, and the count reconciliation
    that follows in the same call of [update] fills it anew, for a target
    of [m] boids, a whole number.  Boid number [k] of the new population
    has the fresh id [nextBoidId + k] and is drawn from seven samples of
    its own of the random source, from the index [7 k] after the cursor
    on: three place it between the bounds of the selected world, three
    give it its velocity.  None of the state of an old boid enters, and
    no new boid carries the id of an old one. *)
Theorem reloadWorld_destroys_population (this this1 : t Scene) (m : Z) :
  BoidSimulationParams.boidCount (simParams this) = m ->
  reloadWorld clearScene addToScene updateSun this = ok this1 ->
  let count := Z.to_nat m in
  let this2 := updateBoidCount addToScene removeFromScene this1 in
  boids this1 = []
  /\ (exists world,
        WorldTools.getWorldByName (worlds this)
          (BoidSimulationParams.worldName (simParams this)) = ok world
        /\ boids this2
           = map (fun k =>
                    drawn_boid (World.get3DBoundaries world)
                      (Random.samples (random this))
                      (7 * k + Random.cursor (random this))
                      (nextBoidId this + k))
               (seq 0 count))
  /\ map BoidState.id (boids this2) = seq (nextBoidId this) count
  /\ random this2
     = Random.mk (Random.samples (random this))
         (7 * count + Random.cursor (random this))
  /\ (needsReload this = true ->
      update clearScene addToScene removeFromScene updateSun Math_atan2 this
      = ok (updateBoids Math_atan2 this2))
  /\ (ids_below_next this ->
      forall old new,
        In old (boids this) -> In new (boids this2) ->
        BoidState.id new <> BoidState.id old).
Proof.
  intros Hm Hreload. subst m. intros count this2.
  destruct (reloadWorld_ok Scene clearScene addToScene updateSun this this1
              Hreload)
    as (world & Hworld & Hp & _ & Hnil & Hnext & Hrandom & _).
  pose proof (updateBoidCount_from_empty_drawn this1 Hnil) as Hfill.
  cbv zeta in Hfill. fold this2 in Hfill.
  rewrite Hp, Hnext, Hrandom in Hfill.
  cbn [BoidSimulationParams.set_worldDimens BoidSimulationParams.worldDimens
       BoidSimulationParams.boidCount] in Hfill.
  fold count in Hfill. destruct Hfill as [Hboids Hdrawn].
  assert (Hids : map BoidState.id (boids this2) = seq (nextBoidId this) count).
  { rewrite Hboids, map_map. cbn [drawn_boid BoidState.id].
    clear. generalize (nextBoidId this) as n.
    induction count as [|c IH]; intros n; [reflexivity |].
    rewrite seq_S, map_app, IH, seq_S. reflexivity. }
  split; [assumption |].
  split; [exists world; split; assumption |].
  split; [assumption |]. split; [assumption |]. split.
  - intros Hneeds. unfold update. rewrite Hneeds, Hreload. reflexivity.
  - intros Hinv old new Hold Hnew Heq. unfold ids_below_next in Hinv.
    rewrite Forall_forall in Hinv. specialize (Hinv old Hold).
    apply (in_map BoidState.id) in Hnew. rewrite Hids in Hnew.
    apply in_seq in Hnew. lia.
Qed.

End Regeneration.

Lemma reloadWorld_destroys_population_witness :
  exists this1,
    BoidSimulationParams.boidCount
      (BoidSimulation.simParams (sample_simulation 3 "Obstacles1")) = 3%Z
    /\ BoidSimulation.reloadWorld sample_clearScene sample_addToScene
         sample_updateSun (sample_simulation 3 "Obstacles1") = ok this1
    /\ BoidSimulation.boids this1 = []
    /\ BoidSimulation.boids
         (BoidSimulation.updateBoidCount sample_addToScene
            sample_removeFromScene this1)
       = [drawn_boid sample_bounds (fun _ => 1/2) 0 3;
          drawn_boid sample_bounds (fun _ => 1/2) 7 4;
          drawn_boid sample_bounds (fun _ => 1/2) 14 5].
Proof.
  eexists. split; [reflexivity |]. split; [reflexivity |].
  destruct (reloadWorld_destroys_population (list Mesh) sample_clearScene
              sample_addToScene sample_removeFromScene sample_updateSun
              sample_atan2 (sample_simulation 3 "Obstacles1") _ 3%Z
              eq_refl eq_refl)
    as (Hnil & (world & Hworld & Hboids) & _).
  split; [exact Hnil |].
  rewrite Hboids. injection Hworld as <-. reflexivity.
Defined.

(** * Further properties, on whole-number targets and on signs *)

Section PopulationTargets.

Variable Scene : Type.
Variable clearScene : Scene -> Scene.
Variable addToScene : Mesh -> Scene -> Scene.
Variable removeFromScene : Mesh -> Scene -> Scene.
Variable updateSun : Scene -> Scene.
Variable Math_atan2 : num -> num -> num.

Import BoidSimulation.

(** X4. For a boid-count target that is a whole number [m]: after a tick
    that succeeds the collection holds exactly [m] boids (none when [m] is
    negative), and the tick leaves the target as it is. *)
Theorem update_population_equals_target (this this' : t Scene) (m : Z) :
  BoidSimulationParams.boidCount (simParams this) = m ->
  update clearScene addToScene removeFromScene updateSun Math_atan2 this
  = ok this' ->
  List.length (boids this') = Z.to_nat m
  /\ BoidSimulationParams.boidCount (simParams this') = m.
Proof.
  intros Hm Hupdate. subst m.
  destruct (update_ok Scene clearScene addToScene removeFromScene updateSun
              Math_atan2 this this' Hupdate) as (this1 & Hfirst & ->).
  destruct (updateBoids_frame Scene Math_atan2
              (updateBoidCount addToScene removeFromScene this1))
    as [(_ & _ & _ & Hp & _) Hl].
  destruct (updateBoidCount_frame Scene addToScene removeFromScene this1)
    as (_ & _ & _ & Hp1 & _).
  rewrite Hl, updateBoidCount_length, Hp, Hp1.
  destruct (needsReload this).
  - destruct (reloadWorld_ok Scene clearScene addToScene updateSun this this1
                Hfirst) as (world & _ & Hp0 & _).
    rewrite Hp0. split; reflexivity.
  - rewrite Hfirst. split; reflexivity.
Qed.

(** X6. For a boid-count target that is a whole number [m], the
    reconciliation is idempotent: once it has run the collection holds
    [m] boids (none when [m] is negative) and running it again changes
    nothing. *)
Theorem updateBoidCount_idempotent (this : t Scene) (m : Z) :
  BoidSimulationParams.boidCount (simParams this) = m ->
  List.length (boids (updateBoidCount addToScene removeFromScene this))
  = Z.to_nat m
  /\ updateBoidCount addToScene removeFromScene
       (updateBoidCount addToScene removeFromScene this)
     = updateBoidCount addToScene removeFromScene this.
Proof.
  intros Hm. subst m.
  pose proof (updateBoidCount_length Scene addToScene removeFromScene this)
    as Hlen.
  split; [assumption |].
  destruct (updateBoidCount_frame Scene addToScene removeFromScene this)
    as (_ & _ & _ & Hp & _).
  set (this' := updateBoidCount addToScene removeFromScene this) in *.
  destruct (updateBoidCount_cases Scene addToScene removeFromScene this')
    as (Heq & _ & Hshrink).
  rewrite Hp, Hlen in Heq, Hshrink.
  destruct (Z_le_dec 0 (BoidSimulationParams.boidCount (simParams this)))
    as [Hnonneg | Hneg].
  - apply Heq. lia.
  - rewrite Hshrink by lia.
    assert (Hnil : boids this' = []).
    { destruct (boids this'); [reflexivity | simpl in Hlen; lia]. }
    simp removeLoop.
    destruct (Z_lt_dec _ 0) as [Hlt | Hge]; [| reflexivity].
    simpl. rewrite Hnil. reflexivity.
Qed.

(** X8. The neighbours of a boid are references to other boids of the
    collection, in the order of the collection and without repetition:
    the boid itself is never among them, every reference is valid, and a
    boid of the collection has fewer neighbours than there are boids. *)
Theorem getBoidNeighbours_are_other_live_boids (this : t Scene) (boid : nat) :
  ~ In boid (getBoidNeighbours this boid)
  /\ Forall (fun r => (r < List.length (boids this))%nat)
       (getBoidNeighbours this boid)
  /\ StronglySorted lt (getBoidNeighbours this boid)
  /\ NoDup (getBoidNeighbours this boid)
  /\ ((boid < List.length (boids this))%nat ->
      (List.length (getBoidNeighbours this boid) < List.length (boids this))%nat).
Proof.
  unfold getBoidNeighbours.
  destruct (nth_error (boids this) boid) as [thisBoid |] eqn:Hnth.
  - set (thr := BoidSimulationParams.visibilityThreshold (simParams this)).
    destruct (neighboursLoop_sorted boid thisBoid thr (boids this) 0)
      as [Hsorted _].
    split; [| split; [| split; [| split]]].
    + intros Hin. apply neighboursLoop_In in Hin as (Hne & _). contradiction.
    + rewrite Forall_forall. intros r Hin.
      apply neighboursLoop_In in Hin as (_ & _ & other & Hother & _).
      rewrite Nat.sub_0_r in Hother.
      apply nth_error_Some. congruence.
    + assumption.
    + clear - Hsorted.
      induction Hsorted as [|r l Hl IH Hall]; constructor; [| assumption].
      intros Hin. rewrite Forall_forall in Hall. specialize (Hall r Hin). lia.
    + intros Hlive.
      apply (neighboursLoop_length boid thisBoid thr (boids this) 0). lia.
  - split; [intros [] |]. split; [constructor |]. split; [constructor |].
    split; [constructor |].
    intros Hlive. apply nth_error_None in Hnth. lia.
Qed.

End PopulationTargets.

Lemma update_population_equals_target_witness :
  BoidSimulationParams.boidCount
    (BoidSimulation.simParams (sample_simulation 5 "Default")) = 5%Z
  /\ exists this',
       BoidSimulation.update sample_clearScene sample_addToScene
         sample_removeFromScene sample_updateSun sample_atan2
         (sample_simulation 5 "Default") = ok this'
       /\ List.length (BoidSimulation.boids this') = 5%nat.
Proof.
  split; [reflexivity |].
  eexists. split; [reflexivity |].
  exact (proj1
    (update_population_equals_target (list Mesh) sample_clearScene
       sample_addToScene sample_removeFromScene sample_updateSun sample_atan2
       (sample_simulation 5 "Default") _ 5 eq_refl eq_refl)).
Defined.

Lemma updateBoidCount_idempotent_witness :
  BoidSimulationParams.boidCount
    (BoidSimulation.simParams (sample_simulation 5 "Default")) = 5%Z
  /\ BoidSimulation.updateBoidCount sample_addToScene sample_removeFromScene
       (BoidSimulation.updateBoidCount sample_addToScene
          sample_removeFromScene (sample_simulation 5 "Default"))
     = BoidSimulation.updateBoidCount sample_addToScene sample_removeFromScene
         (sample_simulation 5 "Default").
Proof.
  split; [reflexivity |].
  exact (proj2
    (updateBoidCount_idempotent (list Mesh) sample_addToScene
       sample_removeFromScene (sample_simulation 5 "Default") 5 eq_refl)).
Defined.

Lemma normalize_fin_any (a b c : R) :
  exists k,
    0 < k
    /\ Vector3.normalize (Vector3.fin a b c)
       = Vector3.fin (a * k) (b * k) (c * k).
Proof.
  destruct (Req_dec_T (norm3 a b c) 0) as [Hz | Hn].
  - exists (1 / 1). split; [lra |].
    unfold Vector3.normalize.
    rewrite length_fin. fold (norm3 a b c). rewrite Hz.
    unfold Num.or_else.
    replace (Num.Reqb 0 0) with true by (symmetry; now apply Reqb_true).
    now rewrite divideScalar_fin by lra.
  - exists (1 / norm3 a b c). split.
    + pose proof (norm3_nonneg a b c).
      unfold Rdiv. rewrite Rmult_1_l. apply Rinv_0_lt_compat. lra.
    + unfold Vector3.normalize.
      rewrite length_fin. fold (norm3 a b c).
      now rewrite or_else_fin, divideScalar_fin by assumption.
Qed.

Section CapSigns.

Import BoidState.

(** X16. The speed cap on a finite velocity, for a maximum speed of zero
    or more: a velocity that the test [speed > maxSpeed] does not catch is
    left as it is, any other is replaced by [setLength(maxSpeed)] of it;
    either way every component keeps its sign or becomes zero, so the cap
    never turns the boid around, and nothing but the velocity changes. *)
Theorem capSpeed_keeps_the_direction (this : BoidState.t) (a b c M : R) :
  velocity this = Vector3.fin a b c ->
  0 <= M ->
  ((Vector3.length (velocity this) >? Fin M)%num = false ->
   Boid.capSpeed this (Fin M) = this)
  /\ ((Vector3.length (velocity this) >? Fin M)%num = true ->
      velocity (Boid.capSpeed this (Fin M))
      = Vector3.setLength (velocity this) (Fin M))
  /\ (exists a' b' c',
        velocity (Boid.capSpeed this (Fin M)) = Vector3.fin a' b' c'
        /\ 0 <= a * a' /\ 0 <= b * b' /\ 0 <= c * c')
  /\ position (Boid.capSpeed this (Fin M)) = position this
  /\ randomBias (Boid.capSpeed this (Fin M)) = randomBias this
  /\ rotation (Boid.capSpeed this (Fin M)) = rotation this
  /\ id (Boid.capSpeed this (Fin M)) = id this.
Proof.
  intros Hv HM. unfold Boid.capSpeed.
  destruct (Vector3.length (velocity this) >? Fin M)%num eqn:Htest.
  - split; [discriminate |]. split; [reflexivity |].
    split; [| repeat split].
    cbn [velocity set_velocity]. rewrite Hv.
    destruct (setLength_fin_any a b c M) as (k & Hk & ->).
    exists (a * k * M), (b * k * M), (c * k * M).
    split; [reflexivity |].
    assert (0 <= k * M) by (apply Rmult_le_pos; lra).
    repeat split; nra.
  - split; [reflexivity |]. split; [discriminate |].
    split; [| repeat split].
    exists a, b, c. rewrite Hv. split; [reflexivity |]. repeat split; nra.
Qed.


(** X29. The normalised velocity of a boid with a finite velocity is a
    finite vector, never an undefined one: every component has the sign
    of the same component of the velocity, and for a boid at rest it is
    the zero vector. *)
Theorem velocityNormalised_is_finite (this : BoidState.t) (a b c : R) :
  velocity this = Vector3.fin a b c ->
  (exists a' b' c',
     Boid.velocityNormalised this = Vector3.fin a' b' c'
     /\ 0 <= a * a' /\ 0 <= b * b' /\ 0 <= c * c')
  /\ (a = 0 -> b = 0 -> c = 0 -> Boid.velocityNormalised this = Vector3.zero).
Proof.
  intros Hv. unfold Boid.velocityNormalised. rewrite Hv.
  destruct (normalize_fin_any a b c) as (k & Hk & ->). split.
  - exists (a * k), (b * k), (c * k). split; [reflexivity |].
    repeat split; nra.
  - intros -> -> ->. unfold Vector3.fin, Vector3.zero.
    f_equal; f_equal; ring.
Qed.

End CapSigns.

Lemma capSpeed_keeps_the_direction_witness :
  (BoidState.velocity sample_boid = Vector3.fin (1/2) 0 0 /\ 0 <= 1/4)
  /\ exists a' b' c',
       BoidState.velocity (Boid.capSpeed sample_boid (Fin (1/4)))
       = Vector3.fin a' b' c'
       /\ 0 <= 1/2 * a' /\ 0 <= 0 * b' /\ 0 <= 0 * c'.
Proof.
  split; [split; [reflexivity | lra] |].
  exact (proj1 (proj2 (proj2
    (capSpeed_keeps_the_direction sample_boid (1/2) 0 0 (1/4)
       eq_refl ltac:(lra))))).
Defined.


Lemma velocityNormalised_is_finite_witness :
  BoidState.velocity sample_boid = Vector3.fin (1/2) 0 0
  /\ exists a' b' c',
       Boid.velocityNormalised sample_boid = Vector3.fin a' b' c'
       /\ 0 <= 1/2 * a' /\ 0 <= 0 * b' /\ 0 <= 0 * c'.
Proof.
  split; [reflexivity |].
  exact (proj1 (velocityNormalised_is_finite sample_boid (1/2) 0 0 eq_refl)).
Defined.

Section AvoidanceForceSigns.

Import ObstacleAvoidanceRule.

(** X23. The magnitude that the rule sets the avoidance vector to has a
    plateau and a unit point: wherever the horizontal distance of the boid
    from the axis, as the rule computes it, is within the radius, the
    distance to the surface is zero and the magnitude is the sharpness to
    the power of ten; and where that distance less the radius is ten, the
    magnitude is one, whatever the sharpness. *)
Theorem avoidance_magnitude_plateau (this : ObstacleAvoidanceRule.t)
  (thisBoid : BoidState.t) (cylinder : CylinderDescription.t) (rho r : R) :
  Vector3.length (avoidanceVector thisBoid cylinder) = Fin rho ->
  CylinderDescription.radius cylinder = Fin r ->
  (rho <= r ->
   distance thisBoid cylinder = Fin 0
   /\ magnitude this thisBoid cylinder
      = Num.Math_pow (SHARPNESS this) (Fin 10))
  /\ (rho - r = 10 -> magnitude this thisBoid cylinder = Fin 1).
Proof.
  intros Hrho Hr.
  assert (Hd : rho <= r -> distance thisBoid cylinder = Fin 0).
  { intros Hle. unfold distance. rewrite Hrho, Hr.
    cbn [Num.sub Num.add Num.neg Num.ltb].
    destruct (Num.Rltb (rho + - r) 0) eqn:Hin; [reflexivity |].
    apply Rltb_false in Hin. f_equal. lra. }
  split.
  - intros Hle. split; [now apply Hd |].
    unfold magnitude. rewrite (Hd Hle). cbn [Num.sub Num.add Num.neg].
    do 2 f_equal. lra.
  - intros Hten. unfold magnitude, distance. rewrite Hrho, Hr.
    cbn [Num.sub Num.add Num.neg Num.ltb].
    replace (Num.Rltb (rho + - r) 0) with false
      by (symmetry; apply Rltb_false; lra).
    cbn [Num.sub Num.add Num.neg]. unfold Num.Math_pow.
    match goal with
    | |- context [Num.Reqb ?e 0] =>
        destruct (Num.Reqb e 0) eqn:He;
        [reflexivity | apply Reqb_false in He; lra]
    end.
Qed.


End AvoidanceForceSigns.

Lemma avoidance_magnitude_plateau_witness :
  (Vector3.length
     (ObstacleAvoidanceRule.avoidanceVector (boid_at (1/2) 0 0) sample_cylinder)
   = Fin (planar_distance 0 0 (1/2) 0)
   /\ CylinderDescription.radius sample_cylinder = Fin 1
   /\ planar_distance 0 0 (1/2) 0 <= 1)
  /\ ObstacleAvoidanceRule.distance (boid_at (1/2) 0 0) sample_cylinder = Fin 0
  /\ ObstacleAvoidanceRule.magnitude sample_obstacleAvoidRule
       (boid_at (1/2) 0 0) sample_cylinder
     = Num.Math_pow (Fin 3) (Fin 10).
Proof.
  assert (Hrho :
    Vector3.length
      (ObstacleAvoidanceRule.avoidanceVector (boid_at (1/2) 0 0)
         sample_cylinder)
    = Fin (planar_distance 0 0 (1/2) 0)).
  { rewrite (avoidanceVector_fin (boid_at (1/2) 0 0) sample_cylinder
               0 0 1 (1/2) 0 0 eq_refl eq_refl).
    rewrite length_fin.
    fold (norm3 (1/2 + - 0) (0 + - 0) (0 + - 0)).
    now rewrite norm3_planar. }
  assert (Hle : planar_distance 0 0 (1/2) 0 <= 1)
    by (rewrite planar_distance_x; lra).
  split; [split; [exact Hrho | split; [reflexivity | exact Hle]] |].
  exact (proj1
    (avoidance_magnitude_plateau sample_obstacleAvoidRule (boid_at (1/2) 0 0)
       sample_cylinder (planar_distance 0 0 (1/2) 0) 1 Hrho eq_refl) Hle).
Defined.


(** X28. The colour of a new boid: hue and saturation are those of the
    base colour, the lightness lies between 0 and 1 whatever the random
    source yields, and one random sample is consumed.  With a sample in
    the range of [Math.random], under the simple rendering neither clamp
    acts: the lightness is the base lightness plus the adjustment, above
    0 and at most 0.5; under the photorealistic rendering only the clamp
    at 1 can act, and the lightness is at least the base lightness. *)
Theorem generateIndividualColour_lightness (photorealisticRendering : bool)
  (g : Random.t) :
  let r := Fin (Random.samples g (Random.cursor g)) in
  exists l',
    Boid.generateIndividualColour photorealisticRendering g
    = (Boid.mkHSL (Boid.h Boid.baseColour) (Boid.s Boid.baseColour) (Fin l'),
       Random.mk (Random.samples g) (S (Random.cursor g)))
    /\ 0 <= l' <= 1
    /\ (unit_samples g ->
        if photorealisticRendering
        then Fin l'
             = Num.Math_min (Boid.l Boid.baseColour + r * Fin (8/10))%num (Fin 1)
             /\ 3/10 <= l'
        else Fin l'
             = (Boid.l Boid.baseColour + (r * Fin (4/10) - Fin (2/10)))%num
             /\ 0 < l' <= 1/2).
Proof.
  intros r. subst r.
  unfold Boid.generateIndividualColour, Random.Math_random.
  set (r := Random.samples g (Random.cursor g)).
  destruct photorealisticRendering.
  - cbn [Boid.l Boid.baseColour Num.add Num.mul].
    destruct (clamp_unit (3/10 + r * (8/10))) as (l' & Hclamp & Hl & _ & Hge).
    rewrite Hclamp. exists l'. split; [reflexivity |]. split; [assumption |].
    intros Hunit. specialize (Hunit (Random.cursor g)). fold r in Hunit.
    split; [| destruct Hge as [Hge | ->]; lra].
    rewrite <- Hclamp. unfold Num.Math_max. cbn [Num.ltb].
    replace (Num.Rltb (3/10 + r * (8/10)) 0) with false; [reflexivity |].
    symmetry. apply Rltb_false. lra.
  - cbn [Boid.l Boid.baseColour Num.add Num.mul Num.sub Num.neg].
    destruct (clamp_unit (3/10 + (r * (4/10) + - (2/10))))
      as (l' & -> & Hl & Hid & _).
    exists l'. split; [reflexivity |]. split; [assumption |].
    intros Hunit. specialize (Hunit (Random.cursor g)). fold r in Hunit.
    rewrite Hid by lra. split; [reflexivity | lra].
Qed.
